(** * The dashboard script [static/script.js], embedded in Rocq

    The script is the presentation layer of a numerical-methods dashboard:
    a tab dispatcher ([showCase]), a loading indicator ([showLoading]),
    eight request handlers ([runCase1] ... [runCase6], [findOptimalOmega],
    [runCase4Simple]), six result renderers ([displayCase1Result] ...
    [displayCase6Result]) and three chart builders sharing the global
    [currentChart].

    JavaScript values are embedded as the inductive [Value]; numbers are
    IEEE-754 doubles ([PrimFloat.float]).  The page (DOM elements, the charts
    built so far, the notifications raised by [alert], the console) is an
    explicit state threaded through the monad [JS], whose computations either
    complete normally or throw.

    What lies outside the script is modelled as far as the script uses it:
    strings are sequences of bytes (UTF-8); the markup assigned to
    [innerHTML] is kept as text and not parsed into elements; building a
    chart always succeeds and attaches it, destroying it detaches it; the
    backend is the outcome of a request, any value at all. *)

From Stdlib Require Import List String Ascii Bool Arith NArith ZArith Lia.
From Stdlib Require Import Floats DecimalString.
Import ListNotations.
Set Warnings "-register-all".
Local Open Scope list_scope.
Local Open Scope string_scope.

(** ** Values *)

Inductive Value : Type :=
| VUndefined
| VNull
| VBool (b : bool)
| VNum (x : float)
| VStr (s : string)
| VArr (items : list Value)
| VObj (fields : list (string * Value)).

(** Exceptions are [Error] objects; only their [message] is ever read.  The
    message of a TypeError is worded by the engine; the wording of V8 is
    used. *)
Inductive Exn : Type :=
| TypeError (message : string)
| FetchError (message : string).

Definition message (e : Exn) : string :=
  match e with
  | TypeError m => m
  | FetchError m => m
  end.

Inductive Completion (A : Type) : Type :=
| Normal (a : A)
| Throw (e : Exn).
Arguments Normal {A} a.
Arguments Throw {A} e.

Definition cbind {A B} (c : Completion A) (k : A -> Completion B) : Completion B :=
  match c with
  | Normal a => k a
  | Throw e => Throw e
  end.

Declare Scope completion_scope.
Delimit Scope completion_scope with comp.
Notation "x <- c ;; k" := (cbind c (fun x => k))
  (at level 61, c at next level, right associativity) : completion_scope.

(** The double quote character, which the HTML fragments are full of. *)
Definition dq : string := String (ascii_of_nat 34) EmptyString.

(** Decimal digits of a natural number: what a template literal prints for a
    small non-negative integer such as [i+1]. *)
Definition nat_toString (n : nat) : string :=
  NilZero.string_of_uint (Nat.to_uint n).

(** Decimal digits of [Date.now()], an integer number of milliseconds. *)
Definition N_toString (n : N) : string :=
  NilZero.string_of_uint (N.to_uint n).

(** ** The parts of the JavaScript runtime the script relies on

    Number formatting and parsing are built-ins of the host, not code of the
    script; they are taken as parameters. *)
Record Runtime : Type := {
  Number_toString : float -> string;         (* String(x), `${x}` *)
  toFixed : float -> nat -> string;          (* x.toFixed(d) *)
  toExponential : float -> nat -> string;    (* x.toExponential(d) *)
  StringToNumber : string -> float;          (* Number(s) *)
  parseInt : string -> float                 (* parseInt(s) *)
}.

Fixpoint lookup (k : string) (fs : list (string * Value)) : option Value :=
  match fs with
  | [] => None
  | (k', v) :: r => if String.eqb k k' then Some v else lookup k r
  end.

Definition has_key (k : string) (fs : list (string * Value)) : bool :=
  match lookup k fs with Some _ => true | None => false end.

(** [v.name] for a property name that no built-in prototype defines (every
    field name the script reads is of that kind). *)
Definition Get (v : Value) (name : string) : Completion Value :=
  match v with
  | VUndefined =>
      Throw (TypeError ("Cannot read properties of undefined (reading '" ++ name ++ "')"))
  | VNull =>
      Throw (TypeError ("Cannot read properties of null (reading '" ++ name ++ "')"))
  | VObj fs =>
      match lookup name fs with
      | Some x => Normal x
      | None => Normal VUndefined
      end
  | _ => Normal VUndefined
  end.

(** [arr[i]] *)
Definition Index (xs : list Value) (i : nat) : Value :=
  nth i xs VUndefined.

Definition ToBoolean (v : Value) : bool :=
  match v with
  | VUndefined | VNull => false
  | VBool b => b
  | VNum x => negb (is_zero x || is_nan x)
  | VStr s => negb (String.eqb s "")
  | VArr _ | VObj _ => true
  end.

Definition is_undefined (v : Value) : bool :=
  match v with VUndefined => true | _ => false end.

Definition is_number (v : Value) : bool :=
  match v with VNum _ => true | _ => false end.

(** The TypeError of a method call [callee.name(...)] whose receiver [v] has
    no such method; [callee] is the text of the receiver expression in the
    script, which the engine quotes when the receiver is neither null nor
    undefined. *)
Definition not_a_function (v : Value) (callee name : string) : Exn :=
  match v with
  | VUndefined =>
      TypeError ("Cannot read properties of undefined (reading '" ++ name ++ "')")
  | VNull =>
      TypeError ("Cannot read properties of null (reading '" ++ name ++ "')")
  | _ => TypeError (callee ++ "." ++ name ++ " is not a function")
  end.

(** The receiver of [callee.forEach(...)] and [callee.map(...)]: only an
    array has them. *)
Definition as_array (v : Value) (callee method : string) : Completion (list Value) :=
  match v with
  | VArr xs => Normal xs
  | _ => Throw (not_a_function v callee method)
  end.

Definition join (sep : string) (l : list string) : string :=
  String.concat sep l.

Section Script.

Variable rt : Runtime.

Local Open Scope completion_scope.

(** ToString, as applied by template literals and by [+] with a string. *)
Fixpoint ToString (v : Value) : Completion string :=
  match v with
  | VUndefined => Normal "undefined"
  | VNull => Normal "null"
  | VBool true => Normal "true"
  | VBool false => Normal "false"
  | VNum x => Normal (Number_toString rt x)
  | VStr s => Normal s
  | VArr xs =>
      (fix items (l : list Value) : Completion string :=
         match l with
         | [] => Normal ""
         | x :: r =>
             s <- match x with
                  | VUndefined | VNull => Normal ""
                  | _ => ToString x
                  end ;;
             match r with
             | [] => Normal s
             | _ :: _ => t <- items r ;; Normal (s ++ "," ++ t)
             end
         end) xs
  | VObj fs =>
      if has_key "toString" fs
      then Throw (TypeError "Cannot convert object to primitive value")
      else Normal "[object Object]"
  end.

(** ToNumber, as applied by [Math.abs]. *)
Definition ToNumber (v : Value) : Completion float :=
  match v with
  | VUndefined => Normal nan
  | VNull => Normal zero
  | VBool true => Normal one
  | VBool false => Normal zero
  | VNum x => Normal x
  | VStr s => Normal (StringToNumber rt s)
  | VArr _ | VObj _ => s <- ToString v ;; Normal (StringToNumber rt s)
  end.

Definition Math_abs (v : Value) : Completion float :=
  x <- ToNumber v ;; Normal (abs x).

(** [Math.max(...xs)] on numbers: -Infinity for no argument, NaN as soon as
    one argument is NaN, +0 above -0. *)
Fixpoint Math_max_from (highest : float) (xs : list float) : float :=
  match xs with
  | [] => highest
  | x :: r =>
      if is_nan x then nan
      else if ltb highest x then Math_max_from x r
      else if is_zero x && is_zero highest && get_sign highest && negb (get_sign x)
           then Math_max_from x r
      else Math_max_from highest r
  end.

Definition Math_max (xs : list float) : float :=
  Math_max_from neg_infinity xs.

(** [callee.toFixed(d)] and [callee.toExponential(d)]: only a number has
    them. *)
Definition call_toFixed (v : Value) (callee : string) (d : nat) : Completion string :=
  match v with
  | VNum x => Normal (toFixed rt x d)
  | _ => Throw (not_a_function v callee "toFixed")
  end.

Definition call_toExponential (v : Value) (callee : string) (d : nat)
  : Completion string :=
  match v with
  | VNum x => Normal (toExponential rt x d)
  | _ => Throw (not_a_function v callee "toExponential")
  end.

(** [callee.startsWith(p)]: only a string has it. *)
Definition call_startsWith (v : Value) (callee p : string) : Completion bool :=
  match v with
  | VStr s => Normal (String.prefix p s)
  | _ => Throw (not_a_function v callee "startsWith")
  end.

(** [xs.map(f)] and the accumulation done by [xs.forEach(...)] bodies, with a
    callback that may throw. *)
Fixpoint mapM {A B} (f : A -> Completion B) (l : list A) : Completion (list B) :=
  match l with
  | [] => Normal []
  | x :: r => y <- f x ;; ys <- mapM f r ;; Normal (y :: ys)
  end.

Fixpoint mapiM_from {A B} (i : nat) (f : nat -> A -> Completion B) (l : list A)
  : Completion (list B) :=
  match l with
  | [] => Normal []
  | x :: r => y <- f i x ;; ys <- mapiM_from (S i) f r ;; Normal (y :: ys)
  end.

Definition mapiM {A B} (f : nat -> A -> Completion B) (l : list A) :=
  mapiM_from 0 f l.

End Script.

(** ** The page: DOM elements, charts, notifications *)

(** An element of the document, with the attributes the script reads or
    writes: its [id], its class list, [style.display], [innerHTML] and, for
    an input, its [value].  The markup produced by assigning [innerHTML] is
    kept as text. *)
Record Element : Type := mkElement {
  el_id : string;
  el_classes : list string;
  el_display : string;
  el_innerHTML : string;
  el_value : string
}.

(** A chart object built by [new Chart(ctx, config)]: the canvas element it
    was given (an index in the document, or [None] for [null]), its
    configuration, and whether it is still attached (not yet destroyed). *)
Record ChartInstance : Type := mkChart {
  chart_canvas : option nat;
  chart_config : Value;
  chart_attached : bool
}.

(** The global state the script acts on.  [currentChart] is the script's
    global of that name: [None] for [null], otherwise the index in [charts]
    of the chart object it refers to.  [charts] lists every chart object ever
    built, oldest first. *)
Record Page : Type := mkPage {
  elements : list Element;
  currentChart : option nat;
  charts : list ChartInstance;
  alerts : list string;
  console : list (list Value)
}.

Definition JS (A : Type) : Type := Page -> Completion A * Page.

Definition ret {A} (a : A) : JS A := fun p => (Normal a, p).

Definition throw {A} (e : Exn) : JS A := fun p => (Throw e, p).

Definition bind {A B} (c : JS A) (k : A -> JS B) : JS B :=
  fun p =>
    match c p with
    | (Normal a, p') => k a p'
    | (Throw e, p') => (Throw e, p')
    end.

(** A computation without effect on the page, run inside [JS]. *)
Definition lift {A} (c : Completion A) : JS A := fun p => (c, p).

Declare Scope js_scope.
Delimit Scope js_scope with js.
Notation "x <- c ;; k" := (bind c (fun x => k))
  (at level 61, c at next level, right associativity) : js_scope.
Notation "c ;; k" := (bind c (fun _ => k))
  (at level 61, right associativity) : js_scope.

(** [try { body } catch (error) { handler error } finally { final }] *)
Definition try_catch_finally (body : JS unit) (handler : Exn -> JS unit)
    (final : JS unit) : JS unit :=
  fun p =>
    let '(r, p1) :=
      match body p with
      | (Normal tt, p') => (Normal tt, p')
      | (Throw e, p') => handler e p'
      end in
    match final p1 with
    | (Normal tt, p2) => (r, p2)
    | (Throw e, p2) => (Throw e, p2)
    end.

Fixpoint update_nth {A} (i : nat) (f : A -> A) (l : list A) : list A :=
  match l, i with
  | [], _ => []
  | x :: r, O => f x :: r
  | x :: r, S j => x :: update_nth j f r
  end.

Fixpoint find_index {A} (f : A -> bool) (l : list A) : option nat :=
  match l with
  | [] => None
  | x :: r => if f x then Some O else option_map S (find_index f r)
  end.

Definition set_elements (f : list Element -> list Element) : JS unit :=
  fun p => (Normal tt,
            mkPage (f (elements p)) (currentChart p) (charts p) (alerts p) (console p)).

(** The first element of the page with a given id, if any (no element has
    the empty id). *)
Definition element_index (id : string) (p : Page) : option nat :=
  if String.eqb id "" then None
  else find_index (fun e => String.eqb id (el_id e)) (elements p).

(** [document.getElementById(id)]: that element, or null. *)
Definition getElementById (id : string) : JS (option nat) :=
  fun p => (Normal (element_index id p), p).

Definition null_read {A} (prop : string) : JS A :=
  throw (TypeError ("Cannot read properties of null (reading '" ++ prop ++ "')")).

Definition null_write {A} (prop : string) : JS A :=
  throw (TypeError ("Cannot set properties of null (setting '" ++ prop ++ "')")).

Definition with_display (v : string) (e : Element) : Element :=
  mkElement (el_id e) (el_classes e) v (el_innerHTML e) (el_value e).

Definition with_innerHTML (h : string) (e : Element) : Element :=
  mkElement (el_id e) (el_classes e) (el_display e) h (el_value e).

Definition with_classes (cs : list string) (e : Element) : Element :=
  mkElement (el_id e) cs (el_display e) (el_innerHTML e) (el_value e).

(** [el.style.display = v] *)
Definition set_display (el : option nat) (v : string) : JS unit :=
  match el with
  | None => null_read "style"
  | Some i => set_elements (update_nth i (with_display v))
  end.

(** [el.innerHTML = h] *)
Definition set_innerHTML (el : option nat) (h : string) : JS unit :=
  match el with
  | None => null_write "innerHTML"
  | Some i => set_elements (update_nth i (with_innerHTML h))
  end.

(** [el.value] *)
Definition get_value (el : option nat) : JS string :=
  match el with
  | None => null_read "value"
  | Some i =>
      fun p => (Normal (match nth_error (elements p) i with
                        | Some e => el_value e
                        | None => ""
                        end), p)
  end.

Definition alert (msg : string) : JS unit :=
  fun p => (Normal tt,
            mkPage (elements p) (currentChart p) (charts p) (alerts p ++ [msg])%list
                   (console p)).

Definition console_log (args : list Value) : JS unit :=
  fun p => (Normal tt,
            mkPage (elements p) (currentChart p) (charts p) (alerts p)
                   (console p ++ [args])%list).

(** ** Case/tab dispatcher *)

Definition has_class (c : string) (e : Element) : bool :=
  existsb (String.eqb c) (el_classes e).

Definition classList_remove (c : string) (e : Element) : Element :=
  with_classes (filter (fun x => negb (String.eqb c x)) (el_classes e)) e.

Definition classList_add (c : string) (e : Element) : Element :=
  if has_class c e then e else with_classes (el_classes e ++ [c])%list e.

(** [document.querySelectorAll('.' + cls).forEach(el => f el)] for a callback
    that only rewrites the element it is given. *)
Definition querySelectorAll_forEach (cls : string) (f : Element -> Element) : JS unit :=
  set_elements (map (fun e => if has_class cls e then f e else e)).

(** [el.classList.add(c)] *)
Definition classList_add_at (el : option nat) (c : string) : JS unit :=
  match el with
  | None => null_read "classList"
  | Some i => set_elements (update_nth i (classList_add c))
  end.

Local Open Scope js_scope.

(** [showCase(caseId)].  The script reads the tab to activate from the
    ambient [event.target]; it is the second argument here: the index of the
    target element ([Some i]; an index outside the document stands for a node
    that is not part of it), or [None] when there is no current event. *)
Definition showCase (caseId : string) (event_target : option nat) : JS unit :=
  querySelectorAll_forEach "case-content" (classList_remove "active") ;;
  querySelectorAll_forEach "tab-btn" (classList_remove "active") ;;
  panel <- getElementById caseId ;;
  classList_add_at panel "active" ;;
  match event_target with
  | None =>
      throw (TypeError "Cannot read properties of undefined (reading 'target')")
  | Some _ => classList_add_at event_target "active"
  end.

(** ** Loading indicator *)

Definition showLoading (show : bool) : JS unit :=
  loading <- getElementById "loading" ;;
  set_display loading (if show then "flex" else "none").

(** ** Chart manager: the global [currentChart] *)

(** [chart.destroy()]: the chart leaves its canvas. *)
Definition detach (ch : ChartInstance) : ChartInstance :=
  mkChart (chart_canvas ch) (chart_config ch) false.

(** [if (currentChart) { currentChart.destroy(); }] *)
Definition destroy_currentChart : JS unit :=
  fun p =>
    match currentChart p with
    | None => (Normal tt, p)
    | Some c =>
        (Normal tt,
         mkPage (elements p) (currentChart p) (update_nth c detach (charts p))
                (alerts p) (console p))
    end.

(** [currentChart = new Chart(ctx, config)] *)
Definition new_currentChart (ctx : option nat) (config : Value) : JS unit :=
  fun p =>
    (Normal tt,
     mkPage (elements p) (Some (List.length (charts p)))
            (charts p ++ [mkChart ctx config true])%list
            (alerts p) (console p)).

Section Renderers.

Variable rt : Runtime.

(** `${v}` inside a template literal. *)
Definition interpolate (v : Value) : Completion string := ToString rt v.

(** ** Case 1: Gaussian elimination / LU steps *)

(** `<td>${typeof val === 'number' ? val.toFixed(4) : val}</td>` *)
Definition case1_matrix_cell (val : Value) : Completion string :=
  (s <- (if is_number val then call_toFixed rt val "val" 4 else interpolate val) ;;
   Normal ("<td>" ++ s ++ "</td>"))%comp.

(** `<td>${val.toFixed(4)}</td>` *)
Definition case1_factor_cell (val : Value) : Completion string :=
  (s <- call_toFixed rt val "val" 4 ;;
   Normal ("<td>" ++ s ++ "</td>"))%comp.

(** The nested [forEach] that the script writes out three times (for
    [step.matrix], [step.L] and [step.U], the [callee]): one [<tr>] per row,
    one cell per entry. *)
Definition case1_rows (cell : Value -> Completion string) (m : Value)
    (callee : string) : Completion string :=
  (rows <- as_array m callee "forEach" ;;
   trs <- mapM (fun row =>
                  cells <- as_array row "row" "forEach" ;;
                  tds <- mapM cell cells ;;
                  Normal ("<tr>" ++ String.concat "" tds ++ "</tr>")) rows ;;
   Normal (String.concat "" trs))%comp.

(** The body of [data.steps.forEach((step, index) => ...)]: what one step
    appends to [stepsHTML]. *)
Definition case1_step (step : Value) : Completion string :=
  (n <- Get step "step" ;;
   n <- interpolate n ;;
   d <- Get step "description" ;;
   d <- interpolate d ;;
   m <- Get step "matrix" ;;
   mh <- (if ToBoolean m
          then rows <- case1_rows case1_matrix_cell m "step.matrix" ;;
               Normal ("<div class=" ++ dq ++ "matrix-table" ++ dq ++ "><table>"
                       ++ rows ++ "</table></div>")
          else Normal "") ;;
   l <- Get step "L" ;;
   lh <- (if ToBoolean l
          then lrows <- case1_rows case1_factor_cell l "step.L" ;;
               u <- Get step "U" ;;
               urows <- case1_rows case1_factor_cell u "step.U" ;;
               Normal ("<h4>矩阵 L:</h4><div class=" ++ dq ++ "matrix-table" ++ dq ++ "><table>"
                       ++ lrows ++ "</table></div>"
                       ++ "<h4>矩阵 U:</h4><div class=" ++ dq ++ "matrix-table" ++ dq ++ "><table>"
                       ++ urows ++ "</table></div>")
          else Normal "") ;;
   Normal ("
            <div class=" ++ dq ++ "step-item" ++ dq ++ ">
                <div class=" ++ dq ++ "step-header" ++ dq ++ ">
                    <div class=" ++ dq ++ "step-number" ++ dq ++ ">" ++ n ++ "</div>
                    <span>" ++ d ++ "</span>
                </div>
        " ++ mh ++ lh ++ "</div>"))%comp.

Definition case1_stepsHTML (data : Value) : Completion string :=
  (steps <- Get data "steps" ;;
   steps <- as_array steps "data.steps" "forEach" ;;
   items <- mapM case1_step steps ;;
   Normal ("<h3>求解步骤:</h3>" ++ String.concat "" items))%comp.

(** [solutionHTML] for a truthy [data.solution]. *)
Definition case1_solutionHTML (data solution : Value) : Completion string :=
  (xs <- as_array solution "data.solution" "forEach" ;;
   items <- mapiM (fun i x =>
                     s <- call_toFixed rt x "x" 8 ;;
                     Normal ("<div class=" ++ dq ++ "solution-item" ++ dq ++ ">x<sub>"
                             ++ nat_toString (i + 1) ++ "</sub> = " ++ s ++ "</div>")) xs ;;
   m <- Get data "method" ;;
   m <- interpolate m ;;
   k <- Get data "num_steps" ;;
   k <- interpolate k ;;
   Normal ("<div class=" ++ dq ++ "solution-box" ++ dq ++ "><h3>🎯 最终解:</h3>"
           ++ String.concat "" items
           ++ "<p style=" ++ dq ++ "margin-top:15px;" ++ dq ++ ">方法: <strong>" ++ m
           ++ "</strong> | 总步数: " ++ k ++ "</p></div>"))%comp.

Definition displayCase1Result (data : Value) : JS unit :=
  resultDiv <- getElementById "case1-result" ;;
  stepsDiv <- getElementById "case1-steps" ;;
  solutionDiv <- getElementById "case1-solution" ;;
  set_display resultDiv "block" ;;
  stepsHTML <- lift (case1_stepsHTML data) ;;
  set_innerHTML stepsDiv stepsHTML ;;
  solution <- lift (Get data "solution") ;;
  if ToBoolean solution
  then solutionHTML <- lift (case1_solutionHTML data solution) ;;
       set_innerHTML solutionDiv solutionHTML
  else ret tt.

(** ** Case 2: SOR iteration *)

Definition colors : list Value :=
  [VStr "#3b82f6"; VStr "#10b981"; VStr "#f59e0b"; VStr "#ef4444"].

(** `iter => ({ x: iter.iteration, y: iter.exact_error })` *)
Definition convergence_point (iter : Value) : Completion Value :=
  (x <- Get iter "iteration" ;;
   y <- Get iter "exact_error" ;;
   Normal (VObj [("x", x); ("y", y)]))%comp.

(** The callback of [results.map((result, index) => ...)]: one dataset. *)
Definition convergence_dataset (index : nat) (result : Value) : Completion Value :=
  (omega <- Get result "omega" ;;
   omega <- interpolate omega ;;
   iterations <- Get result "iterations" ;;
   iterations <- as_array iterations "result.iterations" "map" ;;
   points <- mapM convergence_point iterations ;;
   background <- ToString rt (Index colors index) ;;
   Normal (VObj [("label", VStr ("ω = " ++ omega));
                 ("data", VArr points);
                 ("borderColor", Index colors index);
                 ("backgroundColor", VStr (background ++ "33"));
                 ("borderWidth", VNum 2%float);
                 ("pointRadius", VNum 3%float)]))%comp.

Definition convergence_datasets (results : Value) : Completion (list Value) :=
  (results <- as_array results "results" "map" ;;
   mapiM convergence_dataset results)%comp.

Definition convergence_config (datasets : list Value) : Value :=
  VObj [("type", VStr "line");
        ("data", VObj [("datasets", VArr datasets)]);
        ("options",
         VObj [("responsive", VBool true);
               ("maintainAspectRatio", VBool true);
               ("scales",
                VObj [("x", VObj [("type", VStr "linear");
                                  ("title", VObj [("display", VBool true);
                                                  ("text", VStr "迭代次数")])]);
                      ("y", VObj [("type", VStr "logarithmic");
                                  ("title", VObj [("display", VBool true);
                                                  ("text", VStr "误差 (对数尺度)")])])]);
               ("plugins",
                VObj [("title", VObj [("display", VBool true);
                                      ("text", VStr "SOR迭代法收敛曲线对比");
                                      ("font", VObj [("size", VNum 16%float);
                                                     ("weight", VStr "bold")])]);
                      ("legend", VObj [("position", VStr "top")])])])].

Definition plotConvergenceCurves (results : Value) : JS unit :=
  ctx <- getElementById "case2-chart" ;;
  destroy_currentChart ;;
  datasets <- lift (convergence_datasets results) ;;
  new_currentChart ctx (convergence_config datasets).

(** `r => ({ x: r.omega, y: r.iterations })` *)
Definition search_point (r : Value) : Completion Value :=
  (x <- Get r "omega" ;;
   y <- Get r "iterations" ;;
   Normal (VObj [("x", x); ("y", y)]))%comp.

Definition search_config (points : list Value) : Value :=
  VObj [("type", VStr "line");
        ("data",
         VObj [("datasets",
                VArr [VObj [("label", VStr "收敛步数");
                            ("data", VArr points);
                            ("borderColor", VStr "#667eea");
                            ("backgroundColor", VStr "#667eea33");
                            ("borderWidth", VNum 3%float);
                            ("pointRadius", VNum 4%float);
                            ("pointHoverRadius", VNum 6%float)]])]);
        ("options",
         VObj [("responsive", VBool true);
               ("scales",
                VObj [("x", VObj [("title", VObj [("display", VBool true);
                                                  ("text", VStr "松弛因子 ω")])]);
                      ("y", VObj [("title", VObj [("display", VBool true);
                                                  ("text", VStr "收敛步数")])])]);
               ("plugins",
                VObj [("title", VObj [("display", VBool true);
                                      ("text", VStr "最优松弛因子搜索");
                                      ("font", VObj [("size", VNum 16%float);
                                                     ("weight", VStr "bold")])])])])].

Definition plotOptimalOmegaSearch (searchResults : Value) : JS unit :=
  ctx <- getElementById "case2-chart" ;;
  destroy_currentChart ;;
  points <- lift (rs <- as_array searchResults "searchResults" "map" ;;
                  mapM search_point rs)%comp ;;
  new_currentChart ctx (search_config points).

(** The body of [results.forEach(result => ...)]: one summary card. *)
Definition case2_card (result : Value) : Completion string :=
  (omega <- Get result "omega" ;;
   omega <- interpolate omega ;;
   iters <- Get result "convergence_iter" ;;
   iters <- interpolate iters ;;
   final <- Get result "final_solution" ;;
   final <- as_array final "result.final_solution" "map" ;;
   final <- mapM (fun x => call_toFixed rt x "x" 4) final ;;
   Normal ("
            <div class=" ++ dq ++ "stat-card" ++ dq ++ ">
                <div class=" ++ dq ++ "stat-label" ++ dq ++ ">ω = " ++ omega ++ "</div>
                <div class=" ++ dq ++ "stat-value" ++ dq ++ ">" ++ iters ++ "</div>
                <div class=" ++ dq ++ "stat-label" ++ dq ++ ">迭代次数</div>
                <div style=" ++ dq ++ "margin-top:10px; font-size:0.9em; color:#666;" ++ dq ++ ">
                    最终解: [" ++ join ", " final ++ "]
                </div>
            </div>
        "))%comp.

Definition displayCase2Result (results : Value) : JS unit :=
  resultDiv <- getElementById "case2-result" ;;
  summaryDiv <- getElementById "case2-summary" ;;
  set_display resultDiv "block" ;;
  match results with
  | VArr items =>
      cards <- lift (mapM case2_card items) ;;
      set_innerHTML summaryDiv
        ("<div class=" ++ dq ++ "stats-grid" ++ dq ++ ">" ++ String.concat "" cards ++ "</div>") ;;
      plotConvergenceCurves results
  | _ =>
      set_innerHTML summaryDiv
        ("<p style=" ++ dq ++ "color:red;" ++ dq ++ ">数据格式错误</p>")
  end.

(** ** Case 3: regression *)

Definition feature_config (labels data : list Value) : Value :=
  VObj [("type", VStr "bar");
        ("data",
         VObj [("labels", VArr labels);
               ("datasets",
                VArr [VObj [("label", VStr "系数绝对值");
                            ("data", VArr data);
                            ("backgroundColor", VStr "rgba(102, 126, 234, 0.7)");
                            ("borderColor", VStr "rgb(102, 126, 234)");
                            ("borderWidth", VNum 2%float)]])]);
        ("options",
         VObj [("responsive", VBool true);
               ("indexAxis", VStr "y");
               ("plugins",
                VObj [("title", VObj [("display", VBool true);
                                      ("text", VStr "特征重要性分析");
                                      ("font", VObj [("size", VNum 16%float);
                                                     ("weight", VStr "bold")])])])])].

(** `c => Math.abs(c.coefficient)` *)
Definition abs_coefficient (c : Value) : Completion float :=
  (x <- Get c "coefficient" ;; Math_abs rt x)%comp.

Definition plotFeatureImportance (coefficients : Value) : JS unit :=
  ctx <- getElementById "case3-chart" ;;
  destroy_currentChart ;;
  labels <- lift (cs <- as_array coefficients "coefficients" "map" ;;
                  mapM (fun c => Get c "feature") cs)%comp ;;
  data <- lift (cs <- as_array coefficients "coefficients" "map" ;;
                mapM abs_coefficient cs)%comp ;;
  new_currentChart ctx (feature_config labels (map VNum data)).

(** [barWidth] of one entry of [data.coefficients_sorted]:
    [(Math.abs(coeff.coefficient) /
      Math.max(...data.coefficients_sorted.map(c => Math.abs(c.coefficient)))) * 100] *)
Definition barWidth (data coeff : Value) : Completion float :=
  (a <- abs_coefficient coeff ;;
   cs <- Get data "coefficients_sorted" ;;
   cs <- as_array cs "data.coefficients_sorted" "map" ;;
   mags <- mapM abs_coefficient cs ;;
   Normal (mul (div a (Math_max mags)) 100%float))%comp.

(** The template literal of the [forEach] body, with its three
    substitutions: `${coeff.feature}`, `${barWidth}` and
    `${coeff.coefficient.toFixed(6)}`. *)
Definition case3_item_html (feature width value : string) : string :=
  "
            <div class=" ++ dq ++ "coefficient-item" ++ dq ++ ">
                <div>
                    <div class=" ++ dq ++ "coefficient-name" ++ dq ++ ">" ++ feature ++ "</div>
                    <div class=" ++ dq ++ "coefficient-bar" ++ dq ++ " style=" ++ dq ++ "width: " ++ width ++ "%" ++ dq ++ "></div>
                </div>
                <div class=" ++ dq ++ "coefficient-value" ++ dq ++ ">" ++ value ++ "</div>
            </div>
        ".

(** The body of [data.coefficients_sorted.forEach(coeff => ...)]. *)
Definition case3_item (data coeff : Value) : Completion string :=
  (w <- barWidth data coeff ;;
   f <- Get coeff "feature" ;;
   f <- interpolate f ;;
   c <- Get coeff "coefficient" ;;
   c <- call_toFixed rt c "coeff.coefficient" 6 ;;
   Normal (case3_item_html f (Number_toString rt w) c))%comp.

Definition case3_metricsHTML (data : Value) : Completion string :=
  (r2 <- Get data "r_squared" ;;
   r2 <- call_toFixed rt r2 "data.r_squared" 4 ;;
   rmse <- Get data "rmse" ;;
   rmse <- call_toFixed rt rmse "data.rmse" 4 ;;
   samples <- Get data "num_samples" ;;
   samples <- interpolate samples ;;
   features <- Get data "num_features" ;;
   features <- interpolate features ;;
   Normal ("
        <div class=" ++ dq ++ "stats-grid" ++ dq ++ ">
            <div class=" ++ dq ++ "stat-card" ++ dq ++ ">
                <div class=" ++ dq ++ "stat-label" ++ dq ++ ">R² (决定系数)</div>
                <div class=" ++ dq ++ "stat-value" ++ dq ++ ">" ++ r2 ++ "</div>
            </div>
            <div class=" ++ dq ++ "stat-card" ++ dq ++ ">
                <div class=" ++ dq ++ "stat-label" ++ dq ++ ">RMSE</div>
                <div class=" ++ dq ++ "stat-value" ++ dq ++ ">" ++ rmse ++ "</div>
            </div>
            <div class=" ++ dq ++ "stat-card" ++ dq ++ ">
                <div class=" ++ dq ++ "stat-label" ++ dq ++ ">样本数量</div>
                <div class=" ++ dq ++ "stat-value" ++ dq ++ ">" ++ samples ++ "</div>
            </div>
            <div class=" ++ dq ++ "stat-card" ++ dq ++ ">
                <div class=" ++ dq ++ "stat-label" ++ dq ++ ">特征数量</div>
                <div class=" ++ dq ++ "stat-value" ++ dq ++ ">" ++ features ++ "</div>
            </div>
        </div>
    "))%comp.

(** What [coeffHTML] starts as. *)
Definition case3_list_open : string :=
  "<h3>特征系数 (按重要性排序):</h3><div class=" ++ dq ++ "coefficient-list" ++ dq ++ ">".

Definition case3_coeffHTML (data : Value) : Completion string :=
  (cs <- Get data "coefficients_sorted" ;;
   cs <- as_array cs "data.coefficients_sorted" "forEach" ;;
   items <- mapM (case3_item data) cs ;;
   Normal (case3_list_open ++ String.concat "" items ++ "</div>"))%comp.

Definition displayCase3Result (data : Value) : JS unit :=
  resultDiv <- getElementById "case3-result" ;;
  coeffDiv <- getElementById "case3-coefficients" ;;
  metricsDiv <- getElementById "case3-metrics" ;;
  set_display resultDiv "block" ;;
  metricsHTML <- lift (case3_metricsHTML data) ;;
  set_innerHTML metricsDiv metricsHTML ;;
  coeffHTML <- lift (case3_coeffHTML data) ;;
  set_innerHTML coeffDiv coeffHTML ;;
  coefficients <- lift (Get data "coefficients_sorted") ;;
  plotFeatureImportance coefficients.

(** ** Case 4: bridge statics *)

(** The inline SVG shown by the [onerror] handler of the bridge image. *)
Definition case4_fallback_src : string :=
  "data:image/svg+xml,%3Csvg xmlns='http://www.w3.org/2000/svg' width='400' height='200'%3E%3Ctext x='50%25' y='50%25' text-anchor='middle' fill='red'%3E图片加载失败%3C/text%3E%3C/svg%3E".

(** [imgPath]: the path itself when it starts with a slash, else the path
    behind one. *)
Definition case4_imgPath (figure_path : Value) : Completion string :=
  (slash <- call_startsWith figure_path "data.figure_path" "/" ;;
   s <- ToString rt figure_path ;;
   Normal (if slash then s else "/" ++ s))%comp.

(** The [src] attribute of the bridge image; [now] is [Date.now()]. *)
Definition case4_img_src (imgPath : string) (now : N) : string :=
  imgPath ++ "?t=" ++ N_toString now.

(** The template literal assigned to [imageDiv.innerHTML], with the [src]
    attribute of the image and the path shown below it. *)
Definition case4_image_html (src shown : string) : string :=
  "
            <div class=" ++ dq ++ "image-display" ++ dq ++ ">
                <img src=" ++ dq ++ src ++ dq ++ " alt=" ++ dq ++ "桥梁结构图" ++ dq ++ " onerror=" ++ dq ++ "this.onerror=null; this.src='" ++ case4_fallback_src ++ "';" ++ dq ++ " />
                <p style=" ++ dq ++ "text-align:center; color:#666; margin-top:10px;" ++ dq ++ ">图片路径: " ++ shown ++ "</p>
            </div>
        ".

Definition case4_no_image : string :=
  "<p style=" ++ dq ++ "color:red;" ++ dq ++ ">图片生成失败</p>".

Definition case4_imageHTML (now : N) (figure_path : Value) : Completion string :=
  (if ToBoolean figure_path
   then imgPath <- case4_imgPath figure_path ;;
        shown <- interpolate figure_path ;;
        Normal (case4_image_html (case4_img_src imgPath now) shown)
   else Normal case4_no_image)%comp.

(** `Array.isArray(v) ? v : []` *)
Definition array_or_empty (v : Value) : list Value :=
  match v with
  | VArr xs => xs
  | _ => []
  end.

(** The template literal of a table row, with its three substitutions. *)
Definition case4_row_html (number position reaction : string) : string :=
  "
                <tr>
                    <td>支座 " ++ number ++ "</td>
                    <td>" ++ position ++ "</td>
                    <td>" ++ reaction ++ "</td>
                </tr>
            ".

(** The body of [reactions.forEach((R, i) => ...)]: one table row. *)
Definition case4_row (positions : list Value) (i : nat) (R : Value)
  : Completion string :=
  (pos <- (if ToBoolean (Index positions i)
           then call_toFixed rt (Index positions i) "positions[i]" 2
           else Normal "0.00") ;;
   r <- call_toFixed rt R "R" 4 ;;
   Normal (case4_row_html (nat_toString (i + 1)) pos r))%comp.

Definition case4_no_data_row : string :=
  "<tr><td colspan=" ++ dq ++ "3" ++ dq ++ " style=" ++ dq ++ "text-align:center; color:red;" ++ dq ++ ">无数据</td></tr>".

Definition case4_reactionsHTML (data : Value) : Completion string :=
  (sr <- Get data "support_reactions" ;;
   sp <- Get data "support_positions" ;;
   let reactions := array_or_empty sr in
   let positions := array_or_empty sp in
   rows <- match reactions with
           | [] => Normal case4_no_data_row
           | _ :: _ =>
               rs <- mapiM (case4_row positions) reactions ;;
               Normal (String.concat "" rs)
           end ;;
   Normal ("<h3>支座反力:</h3><table class=" ++ dq ++ "data-table" ++ dq
           ++ "><thead><tr><th>支座</th><th>位置 (m)</th><th>反力 (kN)</th></tr></thead><tbody>"
           ++ rows ++ "</tbody></table>"))%comp.

(** `x !== undefined ? x.toExponential(4) : 'N/A'`, where [x] is the
    expression [callee]. *)
Definition case4_residual (callee : string) (x : Value) : Completion string :=
  if is_undefined x then Normal "N/A" else call_toExponential rt x callee 4.

(** `x !== undefined ? `<p>label${x.toFixed(4)} kN</p>` : ''`, where [x] is
    the expression [callee]. *)
Definition case4_total (label callee : string) (x : Value) : Completion string :=
  (if is_undefined x then Normal ""
   else s <- call_toFixed rt x callee 4 ;;
        Normal ("<p>" ++ label ++ s ++ " kN</p>"))%comp.

Definition case4_verificationHTML (data : Value) : Completion string :=
  (v <- Get data "verification" ;;
   let verification := if ToBoolean v then v else VObj [] in
   b <- Get verification "is_balanced" ;;
   let isBalanced := if ToBoolean b then b else VBool false in
   fe <- Get verification "force_balance_error" ;;
   fe <- case4_residual "verification.force_balance_error" fe ;;
   me <- Get verification "moment_balance_error" ;;
   me <- case4_residual "verification.moment_balance_error" me ;;
   tr <- Get verification "total_reaction" ;;
   tr <- case4_total "支座反力总和: " "verification.total_reaction" tr ;;
   te <- Get verification "total_external" ;;
   te <- case4_total "外力总和: " "verification.total_external" te ;;
   Normal ("
        <div class=" ++ dq ++ (if ToBoolean isBalanced then "solution-box" else "problem-box") ++ dq ++ " style=" ++ dq ++ "margin-top:20px;" ++ dq ++ ">
            <h3>平衡验证:</h3>
            <p>力平衡误差: " ++ fe ++ "</p>
            <p>力矩平衡误差: " ++ me ++ "</p>
            " ++ tr ++ "
            " ++ te ++ "
            <p><strong>" ++ (if ToBoolean isBalanced
                             then "✅ 方程组求解正确，满足平衡条件"
                             else "⚠️ 请检查数据") ++ "</strong></p>
        </div>
    "))%comp.

(** [displayCase4Result(data)], run while [Date.now()] reads [now]. *)
Definition displayCase4Result (now : N) (data : Value) : JS unit :=
  resultDiv <- getElementById "case4-result" ;;
  imageDiv <- getElementById "case4-image" ;;
  reactionsDiv <- getElementById "case4-reactions" ;;
  verificationDiv <- getElementById "case4-verification" ;;
  set_display resultDiv "block" ;;
  console_log [VStr "Case4 data:"; data] ;;
  figure_path <- lift (Get data "figure_path") ;;
  imageHTML <- lift (case4_imageHTML now figure_path) ;;
  set_innerHTML imageDiv imageHTML ;;
  reactionsHTML <- lift (case4_reactionsHTML data) ;;
  set_innerHTML reactionsDiv reactionsHTML ;;
  verificationHTML <- lift (case4_verificationHTML data) ;;
  set_innerHTML verificationDiv verificationHTML.

(** ** Case 5: ray tracing *)

(** The template literal that [displayCase5Result] and [displayCase6Result]
    assign to [imageDiv.innerHTML]: an image with a [src] and an [alt], and
    nothing else. *)
Definition plain_image_html (src alt : string) : string :=
  "
        <div class=" ++ dq ++ "image-display" ++ dq ++ ">
            <img src=" ++ dq ++ src ++ dq ++ " alt=" ++ dq ++ alt ++ dq ++ " />
        </div>
    ".

Definition case5_imageHTML (data : Value) : Completion string :=
  (fp <- Get data "figure_path" ;;
   fp <- interpolate fp ;;
   Normal (plain_image_html ("/" ++ fp) "光线追踪"))%comp.

Definition case5_statsHTML (data : Value) : Completion string :=
  (rays <- Get data "num_rays" ;;
   rays <- interpolate rays ;;
   hits <- Get data "total_intersections" ;;
   hits <- interpolate hits ;;
   Normal ("
        <div class=" ++ dq ++ "stats-grid" ++ dq ++ ">
            <div class=" ++ dq ++ "stat-card" ++ dq ++ ">
                <div class=" ++ dq ++ "stat-label" ++ dq ++ ">光线数量</div>
                <div class=" ++ dq ++ "stat-value" ++ dq ++ ">" ++ rays ++ "</div>
            </div>
            <div class=" ++ dq ++ "stat-card" ++ dq ++ ">
                <div class=" ++ dq ++ "stat-label" ++ dq ++ ">交点总数</div>
                <div class=" ++ dq ++ "stat-value" ++ dq ++ ">" ++ hits ++ "</div>
            </div>
        </div>
    "))%comp.

Definition displayCase5Result (data : Value) : JS unit :=
  resultDiv <- getElementById "case5-result" ;;
  imageDiv <- getElementById "case5-image" ;;
  statsDiv <- getElementById "case5-stats" ;;
  set_display resultDiv "block" ;;
  imageHTML <- lift (case5_imageHTML data) ;;
  set_innerHTML imageDiv imageHTML ;;
  statsHTML <- lift (case5_statsHTML data) ;;
  set_innerHTML statsDiv statsHTML.

(** ** Case 6: conjugate gradient *)

Definition case6_imageHTML (data : Value) : Completion string :=
  (fp <- Get data "figure_path" ;;
   fp <- interpolate fp ;;
   Normal (plain_image_html ("/" ++ fp) "共轭梯度法"))%comp.

Definition case6_statsHTML (data : Value) : Completion string :=
  (n1 <- Get data "matrix_size" ;;
   n1 <- interpolate n1 ;;
   n2 <- Get data "matrix_size" ;;
   n2 <- interpolate n2 ;;
   its <- Get data "iterations" ;;
   its <- interpolate its ;;
   res <- Get data "final_residual" ;;
   res <- call_toExponential rt res "data.final_residual" 2 ;;
   err <- Get data "relative_error" ;;
   err <- call_toExponential rt err "data.relative_error" 2 ;;
   Normal ("
        <div class=" ++ dq ++ "stats-grid" ++ dq ++ ">
            <div class=" ++ dq ++ "stat-card" ++ dq ++ ">
                <div class=" ++ dq ++ "stat-label" ++ dq ++ ">矩阵规模</div>
                <div class=" ++ dq ++ "stat-value" ++ dq ++ ">" ++ n1 ++ "×" ++ n2 ++ "</div>
            </div>
            <div class=" ++ dq ++ "stat-card" ++ dq ++ ">
                <div class=" ++ dq ++ "stat-label" ++ dq ++ ">迭代次数</div>
                <div class=" ++ dq ++ "stat-value" ++ dq ++ ">" ++ its ++ "</div>
            </div>
            <div class=" ++ dq ++ "stat-card" ++ dq ++ ">
                <div class=" ++ dq ++ "stat-label" ++ dq ++ ">最终残差</div>
                <div class=" ++ dq ++ "stat-value" ++ dq ++ ">" ++ res ++ "</div>
            </div>
            <div class=" ++ dq ++ "stat-card" ++ dq ++ ">
                <div class=" ++ dq ++ "stat-label" ++ dq ++ ">相对误差</div>
                <div class=" ++ dq ++ "stat-value" ++ dq ++ ">" ++ err ++ "</div>
            </div>
        </div>
    "))%comp.

Definition displayCase6Result (data : Value) : JS unit :=
  resultDiv <- getElementById "case6-result" ;;
  imageDiv <- getElementById "case6-image" ;;
  statsDiv <- getElementById "case6-stats" ;;
  set_display resultDiv "block" ;;
  imageHTML <- lift (case6_imageHTML data) ;;
  set_innerHTML imageDiv imageHTML ;;
  statsHTML <- lift (case6_statsHTML data) ;;
  set_innerHTML statsDiv statsHTML.

(** ** Request handlers *)

(** What [fetch] is called with: the endpoint, the method, whether the JSON
    content type header is set, and the object handed to [JSON.stringify]
    for the body, if any. *)
Record Request : Type := mkRequest {
  req_url : string;
  req_method : string;
  req_json_header : bool;
  req_body : option Value
}.

(** How the two awaits of a handler ([fetch], then [response.json()]) end:
    the network call is rejected, the body is not JSON, or the body parses to
    a value. *)
Inductive NetOutcome : Type :=
| FetchRejected (e : Exn)
| JsonRejected (e : Exn)
| Parsed (data : Value).

Definition await_json (o : NetOutcome) : JS Value :=
  match o with
  | FetchRejected e => throw e
  | JsonRejected e => throw e
  | Parsed data => ret data
  end.

(** An async handler, cut at its suspension point: the code that runs until
    the request is issued, and the continuation that runs in a later turn,
    once the outcome of the request is known. *)
Record Async : Type := mkAsync {
  before_await : JS Request;
  after_await : NetOutcome -> JS unit
}.

(** A handler run in one piece, with nothing interleaved while it waits. *)
Definition run (h : Async) (o : NetOutcome) : JS unit :=
  _ <- before_await h ;; after_await h o.

(** `catch (error) { alert('请求失败: ' + error.message); }` *)
Definition alert_failure (error : Exn) : JS unit :=
  alert ("请求失败: " ++ message error).

(** `if (data.error) { alert('错误: ' + data.error); return; } render(data)` *)
Definition unless_error (data : Value) (render : JS unit) : JS unit :=
  err <- lift (Get data "error") ;;
  if ToBoolean err
  then msg <- lift (ToString rt err) ;;
       alert ("错误: " ++ msg)
  else render.

Definition runCase1 (method : Value) : Async :=
  mkAsync
    (showLoading true ;;
     ret (mkRequest "/api/case1/gauss" "POST" true (Some (VObj [("method", method)]))))
    (fun o =>
       try_catch_finally
         (data <- await_json o ;;
          unless_error data (displayCase1Result data))
         alert_failure
         (showLoading false)).

Definition runCase2 : Async :=
  mkAsync
    (showLoading true ;;
     ret (mkRequest "/api/case2/sor" "POST" true
            (Some (VObj [("omegas", VArr [VNum 0.75%float; VNum 1.0%float;
                                          VNum 1.25%float; VNum 1.5%float])]))))
    (fun o =>
       try_catch_finally
         (data <- await_json o ;;
          unless_error data
            (results <- lift (Get data "results") ;;
             displayCase2Result results))
         alert_failure
         (showLoading false)).

Definition findOptimalOmega : Async :=
  mkAsync
    (showLoading true ;;
     ret (mkRequest "/api/case2/find_optimal" "POST" true None))
    (fun o =>
       try_catch_finally
         (data <- await_json o ;;
          unless_error data
            (omega <- lift (x <- Get data "optimal_omega" ;;
                            call_toFixed rt x "data.optimal_omega" 4)%comp ;;
             iterations <- lift (x <- Get data "iterations" ;; interpolate x)%comp ;;
             alert ("最优松弛因子: ω = " ++ omega ++ "
收敛步数: " ++ iterations) ;;
             search_results <- lift (Get data "search_results") ;;
             plotOptimalOmegaSearch search_results))
         alert_failure
         (showLoading false)).

Definition runCase3 : Async :=
  mkAsync
    (showLoading true ;;
     ret (mkRequest "/api/case3/analyze" "POST" false None))
    (fun o =>
       try_catch_finally
         (data <- await_json o ;;
          unless_error data (displayCase3Result data))
         alert_failure
         (showLoading false)).

Definition runCase4Simple (now : N) : Async :=
  mkAsync
    (showLoading true ;;
     ret (mkRequest "/api/case4/simple_beam" "POST" false None))
    (fun o =>
       try_catch_finally
         (data <- await_json o ;;
          displayCase4Result now data)
         alert_failure
         (showLoading false)).

Definition runCase4 (now : N) (type : Value) : Async :=
  mkAsync
    (showLoading true ;;
     ret (mkRequest "/api/case4/continuous_bridge" "POST" true
            (Some (VObj [("type", type)]))))
    (fun o =>
       try_catch_finally
         (data <- await_json o ;;
          displayCase4Result now data)
         alert_failure
         (showLoading false)).

Definition runCase5 : Async :=
  mkAsync
    (showLoading true ;;
     input <- getElementById "num-rays" ;;
     numRays <- get_value input ;;
     ret (mkRequest "/api/case5/ray_tracing" "POST" true
            (Some (VObj [("num_rays", VNum (parseInt rt numRays))]))))
    (fun o =>
       try_catch_finally
         (data <- await_json o ;;
          displayCase5Result data)
         alert_failure
         (showLoading false)).

Definition runCase6 : Async :=
  mkAsync
    (showLoading true ;;
     input <- getElementById "matrix-size" ;;
     size <- get_value input ;;
     ret (mkRequest "/api/case6/conjugate_gradient" "POST" true
            (Some (VObj [("size", VNum (parseInt rt size))]))))
    (fun o =>
       try_catch_finally
         (data <- await_json o ;;
          displayCase6Result data)
         alert_failure
         (showLoading false)).

(** The six cases, and the user actions that start a request. *)
Inductive Case : Type :=
| LinearSolve | SORIterate | Regression | BridgeStatics | RayTrace | ConjugateGradient.

Inductive Action : Type :=
| DoCase1 (method : Value)
| DoCase2
| DoFindOptimalOmega
| DoCase3
| DoCase4Simple
| DoCase4 (type : Value)
| DoCase5
| DoCase6.

Definition case_of (a : Action) : Case :=
  match a with
  | DoCase1 _ => LinearSolve
  | DoCase2 | DoFindOptimalOmega => SORIterate
  | DoCase3 => Regression
  | DoCase4Simple | DoCase4 _ => BridgeStatics
  | DoCase5 => RayTrace
  | DoCase6 => ConjugateGradient
  end.

(** The handler an action runs; [now] is what [Date.now()] reads when its
    continuation renders. *)
Definition handler (now : N) (a : Action) : Async :=
  match a with
  | DoCase1 method => runCase1 method
  | DoCase2 => runCase2
  | DoFindOptimalOmega => findOptimalOmega
  | DoCase3 => runCase3
  | DoCase4Simple => runCase4Simple now
  | DoCase4 type => runCase4 now type
  | DoCase5 => runCase5
  | DoCase6 => runCase6
  end.

(** The renderer of a case, applied to what its handler hands it (for
    [SORIterate], the [results] field of the response). *)
Definition render (now : N) (c : Case) (payload : Value) : JS unit :=
  match c with
  | LinearSolve => displayCase1Result payload
  | SORIterate => displayCase2Result payload
  | Regression => displayCase3Result payload
  | BridgeStatics => displayCase4Result now payload
  | RayTrace => displayCase5Result payload
  | ConjugateGradient => displayCase6Result payload
  end.

End Renderers.

(** ** Observations on a page *)

(** Indices of the elements (or charts) that satisfy a test, in document
    order. *)
Definition indices_where {A} (f : A -> bool) (l : list A) : list nat :=
  filter (fun k => match nth_error l k with
                   | Some x => f x
                   | None => false
                   end)
         (seq 0 (List.length l)).

(** A case panel is visible when it carries the class [active]; likewise a
    tab control is marked active by that class. *)
Definition is_visible_panel (e : Element) : bool :=
  has_class "case-content" e && has_class "active" e.

Definition is_active_tab (e : Element) : bool :=
  has_class "tab-btn" e && has_class "active" e.

Definition visible_panels (p : Page) : list nat :=
  indices_where is_visible_panel (elements p).

Definition active_tabs (p : Page) : list nat :=
  indices_where is_active_tab (elements p).

(** Whether the element at index [i] carries class [c]. *)
Definition class_at (p : Page) (i : nat) (c : string) : bool :=
  match nth_error (elements p) i with
  | Some e => has_class c e
  | None => false
  end.

(** What [showCase] has done to an element when it hides the panels and
    deactivates the tabs. *)
Definition deactivated (e : Element) : Element :=
  let e1 := if has_class "case-content" e then classList_remove "active" e else e in
  if has_class "tab-btn" e1 then classList_remove "active" e1 else e1.

(** A page for trying the dispatcher: two panels, the first one visible, and
    their two tabs, the first one active. *)
Definition tabs_page : Page :=
  mkPage [mkElement "case1" ["case-content"; "active"] "" "" "";
          mkElement "case2" ["case-content"] "" "" "";
          mkElement "" ["tab-btn"; "active"] "" "" "";
          mkElement "" ["tab-btn"] "" "" ""]
         None [] [] [].

(** The same page in a state the dispatcher itself never produces: both
    panels visible and both tabs active. *)
Definition crowded_tabs_page : Page :=
  mkPage [mkElement "case1" ["case-content"; "active"] "" "" "";
          mkElement "case2" ["active"; "case-content"] "" "" "";
          mkElement "" ["tab-btn"; "active"] "" "" "";
          mkElement "" ["tab-btn"; "active"] "" "" ""]
         None [] [] [].

(** ** Observations on the charts *)

(** The chart objects that have been built and not destroyed: the ones a
    canvas still hosts. *)
Definition attached_charts (p : Page) : list nat :=
  indices_where chart_attached (charts p).

(** The chart list once [if (currentChart) currentChart.destroy()] has run. *)
Definition charts_after_destroy (p : Page) : list ChartInstance :=
  match currentChart p with
  | None => charts p
  | Some c => update_nth c detach (charts p)
  end.

(** The chart object built last, if any was. *)
Definition most_recent_chart (p : Page) : option nat :=
  match charts p with
  | [] => None
  | _ :: _ => Some (List.length (charts p) - 1)
  end.

(** The page when the script has just been loaded: [currentChart] is null
    and no chart exists. *)
Definition script_loaded (els : list Element) : Page :=
  mkPage els None [] [] [].

(** A call of one of the three chart builders, with its argument. *)
Inductive ChartCall : Type :=
| ConvergenceCurves (results : Value)
| OptimalOmegaSearch (searchResults : Value)
| FeatureImportance (coefficients : Value).

Definition chart_call (rt : Runtime) (c : ChartCall) : JS unit :=
  match c with
  | ConvergenceCurves results => plotConvergenceCurves rt results
  | OptimalOmegaSearch searchResults => plotOptimalOmegaSearch searchResults
  | FeatureImportance coefficients => plotFeatureImportance rt coefficients
  end.

(** The pages observed after each call of a sequence, each call running to
    completion (normally or by throwing) before the next one starts. *)
Fixpoint pages_after (rt : Runtime) (calls : list ChartCall) (p : Page) : list Page :=
  match calls with
  | [] => []
  | c :: rest =>
      let p' := snd (chart_call rt c p) in
      p' :: pages_after rt rest p'
  end.

(** At most one chart is attached, it is the one [currentChart] refers to,
    and [currentChart] refers to the chart built last. *)
Definition single_chart (p : Page) : Prop :=
  (attached_charts p = [] \/
   exists c, attached_charts p = [c] /\ currentChart p = Some c) /\
  currentChart p = most_recent_chart p.

(** ** Observations on the loading indicator *)

(** [style.display] of the loading overlay: the LoadingFlag is set when it
    is [flex] and cleared when it is [none]. *)
Definition loading_display (p : Page) : option string :=
  match element_index "loading" p with
  | Some i => option_map el_display (nth_error (elements p) i)
  | None => None
  end.

(** A computation that leaves the ids of the document as they are. *)
Definition keeps_ids {A} (c : JS A) : Prop :=
  forall p, map el_id (elements (snd (c p))) = map el_id (elements p).

(** A page for trying the handlers: the loading overlay, the two inputs and
    the result areas of cases 1, 4, 5 and 6. *)
Definition dashboard_page : Page :=
  mkPage [mkElement "loading" [] "none" "" "";
          mkElement "num-rays" [] "" "" "100";
          mkElement "matrix-size" [] "" "" "50";
          mkElement "case1-result" [] "none" "" "";
          mkElement "case1-steps" [] "" "" "";
          mkElement "case1-solution" [] "" "" "";
          mkElement "case4-result" [] "none" "" "";
          mkElement "case4-image" [] "" "" "";
          mkElement "case4-reactions" [] "" "" "";
          mkElement "case4-verification" [] "" "" "";
          mkElement "case5-result" [] "none" "" "";
          mkElement "case5-image" [] "" "" "";
          mkElement "case5-stats" [] "" "" "";
          mkElement "case6-result" [] "none" "" "";
          mkElement "case6-image" [] "" "" "";
          mkElement "case6-stats" [] "" "" ""]
         None [] [] [].

(** ** A host for running the script

    The number formatting and parsing built-ins, written out from their
    definitions in ECMA-262 over the exact rational value of a double.  The
    properties below hold for every [Runtime]; this one is used to run the
    script on concrete inputs. *)
Module Host.

Local Open Scope Z_scope.

(** A positive rational [num / den], [den > 0]. *)
Definition rat : Type := (Z * Z)%type.

(** [m * 2^e2 * 10^e10] *)
Definition scaled (m e2 e10 : Z) : rat :=
  (m * 2 ^ Z.max e2 0 * 10 ^ Z.max e10 0,
   2 ^ Z.max (- e2) 0 * 10 ^ Z.max (- e10) 0).

Definition rle (a b : rat) : bool := fst a * snd b <=? fst b * snd a.
Definition rlt (a b : rat) : bool := fst a * snd b <? fst b * snd a.
Definition rmid (a b : rat) : rat :=
  (fst a * snd b + fst b * snd a, 2 * snd a * snd b).
(** [a / (10^e)] *)
Definition rshift10 (a : rat) (e : Z) : rat :=
  (fst a * 10 ^ Z.max (- e) 0, snd a * 10 ^ Z.max e 0).
Definition rfloor (a : rat) : Z := fst a / snd a.
(** nearest integer, a tie going up *)
Definition rround_up (a : rat) : Z := (2 * fst a + snd a) / (2 * snd a).
(** distance of [a] to the integer [s], as a rational *)
Definition rdist (a : rat) (s : Z) : rat := (Z.abs (fst a - s * snd a), snd a).

(** The magnitude of a finite non-zero double, exactly. *)
Definition magnitude (x : float) : option (Z * Z) :=
  match Prim2SF x with
  | S754_finite _ m e => Some (Zpos m, e)
  | _ => None
  end.

Definition digits (z : Z) : string := NilZero.string_of_uint (N.to_uint (Z.to_N z)).

Fixpoint zeros (n : nat) : string :=
  match n with O => "" | S k => "0" ++ zeros k end.

(** The least [n] from [lo] on with [q < 10^n]. *)
Fixpoint magnitude10 (fuel : nat) (n : Z) (q : rat) : Z :=
  match fuel with
  | O => n
  | S f => if rlt q (scaled 1 0 n) then n else magnitude10 f (n + 1) q
  end.

Definition exponent10 (q : rat) : Z := magnitude10 700 (-330) q.

(** The decimal digits [s] (as an integer), their count [k] and the position
    [n] of the decimal point of the shortest decimal that reads back as the
    double of magnitude [m * 2^e]; among the shortest, the closest. *)
Definition rounding_interval (x : float) (m e : Z) : rat * rat :=
  let v := scaled m e 0 in
  let lo := match magnitude (next_down (abs x)) with
            | Some (m', e') => rmid (scaled m' e' 0) v
            | None => scaled m (e - 1) 0
            end in
  let hi := match magnitude (next_up (abs x)) with
            | Some (m', e') => rmid v (scaled m' e' 0)
            | None => scaled (2 * m + 1) (e - 1) 0
            end in
  (lo, hi).

Definition inside (even : bool) (lo hi d : rat) : bool :=
  if even then rle lo d && rle d hi else rlt lo d && rlt d hi.

Fixpoint shortest (fuel : nat) (k : Z) (n : Z) (even : bool) (lo hi v : rat)
  : Z * Z * Z :=
  match fuel with
  | O => (rround_up (rshift10 v (n - k)), k, n)
  | S f =>
      let w := rshift10 v (n - k) in
      let s1 := rfloor w in
      let s2 := s1 + 1 in
      let ok s := (10 ^ (k - 1) <=? s) && (s <=? 10 ^ k)
                  && inside even lo hi (fst (scaled s 0 (n - k)) , snd (scaled s 0 (n - k))) in
      let pick s := if s =? 10 ^ k then (1, 1, n + 1) else (s, k, n) in
      match ok s1, ok s2 with
      | true, false => pick s1
      | false, true => pick s2
      | true, true =>
          if rlt (rdist w s1) (rdist w s2) then pick s1
          else if rlt (rdist w s2) (rdist w s1) then pick s2
          else if Z.even s1 then pick s1 else pick s2
      | false, false => shortest f (k + 1) n even lo hi v
      end
  end.

Definition exp_suffix (e : Z) : string :=
  "e" ++ (if e <? 0 then "-" else "+") ++ digits (Z.abs e).

Definition first_rest (d : string) : string * string :=
  match d with
  | EmptyString => ("", "")
  | String c r => (String c EmptyString, r)
  end.

Definition format_shortest (s k n : Z) : string :=
  let d := digits s in
  if (k <=? n) && (n <=? 21) then d ++ zeros (Z.to_nat (n - k))
  else if (0 <? n) && (n <=? 21)
       then substring 0 (Z.to_nat n) d ++ "." ++ substring (Z.to_nat n) (Z.to_nat (k - n)) d
  else if (-6 <? n) && (n <=? 0) then "0." ++ zeros (Z.to_nat (- n)) ++ d
  else let (a, b) := first_rest d in
       if k =? 1 then a ++ exp_suffix (n - 1) else a ++ "." ++ b ++ exp_suffix (n - 1).

Definition Number_toString (x : float) : string :=
  if is_nan x then "NaN"
  else if is_zero x then "0"
  else if is_infinity x then (if get_sign x then "-Infinity" else "Infinity")
  else match magnitude x with
       | Some (m, e) =>
           let v := scaled m e 0 in
           let '(lo, hi) := rounding_interval x m e in
           let n := exponent10 v in
           let '(s, k, n') := shortest 20 1 n (Z.even m) lo hi v in
           (if get_sign x then "-" else "") ++ format_shortest s k n'
       | None => "NaN"
       end.

Definition pad_left (n : nat) (d : string) : string :=
  zeros (n - String.length d) ++ d.

Definition toFixed (x : float) (f : nat) : string :=
  match magnitude x with
  | None => if is_zero x
            then (if Nat.eqb f 0 then "0" else "0." ++ zeros f)
            else Number_toString x
  | Some (m, e) =>
      let v := scaled m e 0 in
      if rle (scaled 1 0 21) v then Number_toString x
      else
        let n := rround_up (rshift10 v (- Z.of_nat f)) in
        let d := pad_left (f + 1) (digits n) in
        let len := String.length d in
        (if get_sign x then "-" else "")
        ++ (if Nat.eqb f 0 then d
            else substring 0 (len - f) d ++ "." ++ substring (len - f) f d)
  end.

Definition toExponential (x : float) (f : nat) : string :=
  match magnitude x with
  | None => if is_zero x
            then (if Nat.eqb f 0 then "0" else "0." ++ zeros f) ++ "e+0"
            else Number_toString x
  | Some (m, e) =>
      let v := scaled m e 0 in
      let e0 := exponent10 v - 1 in
      let n0 := rround_up (rshift10 v (e0 - Z.of_nat f)) in
      let '(n, e1) := if 10 ^ (Z.of_nat f + 1) <=? n0 then (n0 / 10, e0 + 1) else (n0, e0) in
      let (a, b) := first_rest (digits n) in
      (if get_sign x then "-" else "")
      ++ (if Nat.eqb f 0 then a else a ++ "." ++ b) ++ exp_suffix e1
  end.


(** The double nearest to the rational [q >= 0], a tie going to the even
    mantissa. *)
Definition of_rat (q : rat) : float :=
  let (a, b) := q in
  if a =? 0 then zero
  else
    let e0 := Z.log2 a - Z.log2 b in
    let e := if rlt q (scaled 1 e0 0) then e0 - 1 else e0 in
    let ex := Z.max (e - 52) (-1074) in
    let w := (a * 2 ^ Z.max (- ex) 0, b * 2 ^ Z.max ex 0) in
    let f := rfloor w in
    let twice := 2 * (fst w - f * snd w) in
    let m0 := if twice <? snd w then f
              else if snd w <? twice then f + 1
              else if Z.even f then f else f + 1 in
    let '(m, ex) := if 2 ^ 53 <=? m0 then (m0 / 2, ex + 1) else (m0, ex) in
    if m =? 0 then zero
    else if 1024 <? Z.log2 m + 1 + ex then infinity
    else SF2Prim (S754_finite false (Z.to_pos m) ex).

Definition is_ws (c : ascii) : bool :=
  let n := nat_of_ascii c in
  ((9 <=? n) && (n <=? 13) || (n =? 32))%nat.

(** Leading white space removed: the ASCII white space characters and the
    UTF-8 encodings of the other [StrWhiteSpaceChar]s. *)
Fixpoint skip_ws (s : string) : string :=
  match s with
  | String c r =>
      if is_ws c then skip_ws r
      else
        match nat_of_ascii c, r with
        | 194%nat, String c1 r1 =>
            if (nat_of_ascii c1 =? 160)%nat then skip_ws r1 else s
        | 225%nat, String c1 (String c2 r2) =>
            if ((nat_of_ascii c1 =? 154) && (nat_of_ascii c2 =? 128))%nat
            then skip_ws r2 else s
        | 226%nat, String c1 (String c2 r2) =>
            let n1 := nat_of_ascii c1 in
            let n2 := nat_of_ascii c2 in
            if ((n1 =? 128) && ((128 <=? n2) && (n2 <=? 138)
                                || (n2 =? 168) || (n2 =? 169) || (n2 =? 175))
                || (n1 =? 129) && (n2 =? 159))%nat
            then skip_ws r2 else s
        | 227%nat, String c1 (String c2 r2) =>
            if ((nat_of_ascii c1 =? 128) && (nat_of_ascii c2 =? 128))%nat
            then skip_ws r2 else s
        | 239%nat, String c1 (String c2 r2) =>
            if ((nat_of_ascii c1 =? 187) && (nat_of_ascii c2 =? 191))%nat
            then skip_ws r2 else s
        | _, _ => s
        end
  | EmptyString => s
  end.

(** The value of a digit in a radix up to 16, if it is one. *)
Definition digit_value (radix : Z) (c : ascii) : option Z :=
  let n := Z.of_nat (nat_of_ascii c) in
  let v := if (48 <=? n) && (n <=? 57) then n - 48
           else if (97 <=? n) && (n <=? 102) then n - 87
           else if (65 <=? n) && (n <=? 70) then n - 55
           else 16 in
  if v <? radix then Some v else None.

(** The longest prefix of digits: its value, its length, the rest. *)
Fixpoint take_digits (radix : Z) (acc : Z) (len : Z) (s : string) : Z * Z * string :=
  match s with
  | String c r =>
      match digit_value radix c with
      | Some v => take_digits radix (acc * radix + v) (len + 1) r
      | None => (acc, len, s)
      end
  | EmptyString => (acc, len, s)
  end.

Definition strip_prefix (p s : string) : option string :=
  if String.prefix p s
  then Some (substring (String.length p) (String.length s - String.length p) s)
  else None.

Definition signed (neg : bool) (x : float) : float := if neg then opp x else x.

(** [StrUnsignedDecimalLiteral] followed by white space only. *)
Definition decimal_literal (s : string) : option float :=
  match strip_prefix "Infinity" s with
  | Some r => if String.eqb (skip_ws r) "" then Some infinity else None
  | None =>
      let '(ip, il, r1) := take_digits 10 0 0 s in
      let '(fp, fl, r2) :=
        match r1 with
        | String "." r => take_digits 10 ip 0 r
        | _ => (ip, 0, r1)
        end in
      let dot := match r1 with String "." _ => true | _ => false end in
      if (il + fl =? 0) then None
      else
        let '(ex, r3) :=
          match r2 with
          | String c r =>
              if ((nat_of_ascii c =? 101) || (nat_of_ascii c =? 69))%nat
              then
                let '(neg, r') :=
                  match r with
                  | String "-" r' => (true, r')
                  | String "+" r' => (false, r')
                  | _ => (false, r)
                  end in
                let '(ev, el, r'') := take_digits 10 0 0 r' in
                if el =? 0 then (0, r2) else ((if neg then - ev else ev), r'')
              else (0, r2)
          | EmptyString => (0, r2)
          end in
        if String.eqb (skip_ws r3) ""
        then Some (of_rat (scaled (if dot then fp else ip) 0 (ex - fl)))
        else None
  end.

Definition radix_literal (radix : Z) (s : string) : option float :=
  let '(v, l, r) := take_digits radix 0 0 s in
  if (0 <? l) && String.eqb (skip_ws r) "" then Some (of_rat (v, 1)) else None.

Definition lower (c : ascii) : ascii :=
  let n := nat_of_ascii c in
  if ((65 <=? n) && (n <=? 90))%nat then ascii_of_nat (n + 32) else c.

(** [Number(s)] *)
Definition StringToNumber (s : string) : float :=
  let t := skip_ws s in
  let result :=
    match t with
    | EmptyString => Some zero
    | String "-" r => option_map opp (decimal_literal r)
    | String "+" r => decimal_literal r
    | String "0" (String c r) =>
        match lower c with
        | "x"%char => radix_literal 16 r
        | "o"%char => radix_literal 8 r
        | "b"%char => radix_literal 2 r
        | _ => decimal_literal t
        end
    | _ => decimal_literal t
    end in
  match result with
  | Some x => x
  | None => nan
  end.

(** [parseInt(s)], with no radix given. *)
Definition parseInt (s : string) : float :=
  let t := skip_ws s in
  let '(neg, t) :=
    match t with
    | String "-" r => (true, r)
    | String "+" r => (false, r)
    | _ => (false, t)
    end in
  let '(radix, t) :=
    match t with
    | String "0" (String c r) =>
        if Ascii.eqb (lower c) "x" then (16, r) else (10, t)
    | _ => (10, t)
    end in
  let '(v, l, _) := take_digits radix 0 0 t in
  if l =? 0 then nan else signed neg (of_rat (v, 1)).

Definition runtime : Runtime :=
  Build_Runtime Number_toString toFixed toExponential StringToNumber parseInt.

End Host.

(** ** Observations on the convergence chart *)

(** A run of the SOR response that [plotConvergenceCurves] can read: its
    [omega] prints, its [iterations] field is an array, and no sample of
    that array is null or undefined. *)
Definition readable_sample (iter : Value) : bool :=
  match iter with
  | VUndefined | VNull => false
  | _ => true
  end.

Definition readable_run (rt : Runtime) (run : Value) : Prop :=
  exists label samples,
    cbind (Get run "omega") (interpolate rt) = Normal label /\
    Get run "iterations" = Normal (VArr samples) /\
    forallb readable_sample samples = true.

(** The number of iteration samples of a run. *)
Definition sample_count (run : Value) : nat :=
  match Get run "iterations" with
  | Normal (VArr samples) => List.length samples
  | _ => 0
  end.

(** The number of points of a dataset of a chart. *)
Definition point_count (dataset : Value) : nat :=
  match Get dataset "data" with
  | Normal (VArr points) => List.length points
  | _ => 0
  end.

(** The datasets of a chart configuration. *)
Definition datasets_of (config : Value) : list Value :=
  match cbind (Get config "data") (fun d => Get d "datasets") with
  | Normal (VArr ds) => ds
  | _ => []
  end.

(** The configuration of the chart [currentChart] refers to. *)
Definition current_config (p : Page) : option Value :=
  match currentChart p with
  | Some c => option_map chart_config (nth_error (charts p) c)
  | None => None
  end.

(** A run with one sample, for trying the chart builder. *)
Definition sample_run (omega : float) : Value :=
  VObj [("omega", VNum omega);
        ("convergence_iter", VNum 12%float);
        ("final_solution", VArr [VNum 1%float; VNum 2%float]);
        ("iterations", VArr [VObj [("iteration", VNum 1%float);
                                   ("exact_error", VNum 0.5%float)]])].

Definition four_runs : list Value :=
  [sample_run 0.75%float; sample_run 1%float; sample_run 1.25%float;
   sample_run 1.5%float].

Definition five_runs : list Value :=
  (four_runs ++ [sample_run 1.75%float])%list.

(** ** Observations on the regression panel *)

(** An entry of [coefficients_sorted] read as the renderer reads it: its
    [feature] prints as [fst e], its [coefficient] is the number [snd e]. *)
Definition reads_as (rt : Runtime) (c : Value) (e : string * float) : Prop :=
  cbind (Get c "feature") (interpolate rt) = Normal (fst e) /\
  Get c "coefficient" = Normal (VNum (snd e)).

(** [(|x| / Math.max(|x1|, ..., |xn|)) * 100] *)
Definition width_percent (all : list float) (x : float) : float :=
  mul (div (abs x) (Math_max (map abs all))) 100%float.

Definition coefficient_entry (feature : string) (coefficient : float) : Value :=
  VObj [("feature", VStr feature); ("coefficient", VNum coefficient)].

(** The regression response of the spec's example: coefficients 0.5, -2.0
    and 1.0, in that order. *)
Definition regression_data : Value :=
  VObj [("r_squared", VNum 0.75%float);
        ("rmse", VNum 1.5%float);
        ("num_samples", VNum 100%float);
        ("num_features", VNum 3%float);
        ("coefficients_sorted",
         VArr [coefficient_entry "age" 0.5%float;
               coefficient_entry "income" (-2)%float;
               coefficient_entry "visits" 1%float])].

(** A regression response whose only coefficient is zero. *)
Definition zero_regression_data : Value :=
  VObj [("r_squared", VNum 0%float);
        ("rmse", VNum 1.5%float);
        ("num_samples", VNum 100%float);
        ("num_features", VNum 1%float);
        ("coefficients_sorted", VArr [coefficient_entry "age" 0%float])].

(** A page with the elements of case 3. *)
Definition regression_page : Page :=
  mkPage [mkElement "loading" [] "none" "" "";
          mkElement "case3-result" [] "none" "" "";
          mkElement "case3-coefficients" [] "" "" "";
          mkElement "case3-metrics" [] "" "" "";
          mkElement "case3-chart" [] "" "" ""]
         None [] [] [].

(** ** Observations on what a renderer displays *)

Definition html_of (id : string) (p : Page) : option string :=
  match element_index id p with
  | Some i => option_map el_innerHTML (nth_error (elements p) i)
  | None => None
  end.

Definition display_of (id : string) (p : Page) : option string :=
  match element_index id p with
  | Some i => option_map el_display (nth_error (elements p) i)
  | None => None
  end.

(** The display output of the page: the elements with all their attributes,
    and the canvas and configuration of each chart that is attached.  The
    notifications already dismissed and the console are not part of it. *)
Definition display_output (p : Page) : list Element * list (option nat * Value) :=
  (elements p,
   map (fun ch => (chart_canvas ch, chart_config ch))
       (filter chart_attached (charts p))).

(** A write to the document, as the renderers perform them: an assignment to
    [style.display] or to [innerHTML] of the element at an index. *)
Inductive Write : Type :=
| WDisplay (i : nat) (v : string)
| WHtml (i : nat) (h : string).

Definition apply_write (els : list Element) (w : Write) : list Element :=
  match w with
  | WDisplay i v => update_nth i (with_display v) els
  | WHtml i h => update_nth i (with_innerHTML h) els
  end.

Definition apply_writes (ws : list Write) (els : list Element) : list Element :=
  fold_left apply_write ws els.

(** The page after some writes, notifications and console lines. *)
Definition written (ws : list Write) (al : list string) (logs : list (list Value))
    (p : Page) : Page :=
  mkPage (apply_writes ws (elements p)) (currentChart p) (charts p)
         (alerts p ++ al)%list (console p ++ logs)%list.

(** A page on which [getElementById] answers as [ids] says. *)
Definition resolves (ids : string -> option nat) (p : Page) : Prop :=
  forall id, element_index id p = ids id.

(** A computation that reads the page only through [getElementById] and
    changes it only by writes, notifications and console lines that do not
    depend on what the page held before. *)
Definition writes_only {A} (c : JS A) : Prop :=
  forall ids, exists r ws al logs,
    forall p, resolves ids p -> c p = (r, written ws al logs p).

(** The same, for a computation that may end by calling a chart builder. *)
Definition writes_then_plots (rt : Runtime) (c : JS unit) : Prop :=
  forall ids, exists ws al logs (tail : Completion unit + ChartCall),
    forall p, resolves ids p ->
      c p = match tail with
            | inl r => (r, written ws al logs p)
            | inr call => chart_call rt call (written ws al logs p)
            end.

(** The response of a backend that failed, and two bridge responses. *)
Definition error_response : Value :=
  VObj [("error", VStr "singular matrix")].

Definition bridge_data : Value :=
  VObj [("figure_path", VStr "static/images/bridge.png");
        ("support_reactions", VArr [VNum 12.5%float; VNum 7.5%float]);
        ("support_positions", VArr [VNum 0%float; VNum 10%float]);
        ("verification",
         VObj [("is_balanced", VBool true);
               ("force_balance_error", VNum 0%float);
               ("moment_balance_error", VNum 0%float);
               ("total_reaction", VNum 20%float);
               ("total_external", VNum 20%float)])].

Definition ray_data : Value :=
  VObj [("figure_path", VStr "static/images/ray_tracing.png");
        ("num_rays", VNum 100%float);
        ("total_intersections", VNum 42%float)].

(** What a write does to the element at index [k]. *)
Definition patch (k : nat) (e : Element) (w : Write) : Element :=
  match w with
  | WDisplay i v => if Nat.eqb k i then with_display v e else e
  | WHtml i h => if Nat.eqb k i then with_innerHTML h e else e
  end.

(** The page a chart builder leaves when it throws, and when it builds a
    chart on the canvas with id [canvas]. *)
Definition after_failed_plot (p : Page) : Page :=
  mkPage (elements p) (currentChart p) (charts_after_destroy p) (alerts p) (console p).

Definition after_plot (canvas : string) (config : Value) (p : Page) : Page :=
  mkPage (elements p) (Some (List.length (charts_after_destroy p)))
         (charts_after_destroy p ++ [mkChart (element_index canvas p) config true])%list
         (alerts p) (console p).

(** A page without the ray-count input. *)
Definition page_without_inputs : Page :=
  mkPage [mkElement "loading" [] "none" "" "";
          mkElement "case5-result" [] "none" "" "";
          mkElement "case5-image" [] "" "" "";
          mkElement "case5-stats" [] "" "" ""]
         None [] [] [].

(** ** Observations on the bridge payload *)

Definition number_or_falsy (v : Value) : bool :=
  is_number v || negb (ToBoolean v).

Definition number_or_undefined (v : Value) : bool :=
  is_number v || is_undefined v.

(** A bridge response in which every field the renderer formats is either
    absent or of its expected type: the figure path a string or falsy, the
    reactions (when an array) numbers, the positions (when an array) numbers
    or falsy, the four numeric fields of the verification numbers or
    undefined. *)
Definition bridge_fields_guarded (data : Value) : Prop :=
  exists fp sr sp v,
    Get data "figure_path" = Normal fp /\
    (ToBoolean fp = false \/ exists s, fp = VStr s) /\
    Get data "support_reactions" = Normal sr /\
    forallb is_number (array_or_empty sr) = true /\
    Get data "support_positions" = Normal sp /\
    forallb number_or_falsy (array_or_empty sp) = true /\
    Get data "verification" = Normal v /\
    forallb (fun name =>
               match Get (if ToBoolean v then v else VObj []) name with
               | Normal x => number_or_undefined x
               | Throw _ => false
               end)
            ["force_balance_error"; "moment_balance_error";
             "total_reaction"; "total_external"] = true.

(** ** Observations on whole handlers *)

(** The page with [style.display] of the element at index [i] set. *)
Definition with_loading (v : string) (i : nat) (p : Page) : Page :=
  mkPage (update_nth i (with_display v) (elements p))
         (currentChart p) (charts p) (alerts p) (console p).

(** The page after some more notifications. *)
Definition notified (msgs : list string) (p : Page) : Page :=
  mkPage (elements p) (currentChart p) (charts p) (alerts p ++ msgs)%list (console p).

(** The input element a handler reads before it issues its request. *)
Definition input_of (a : Action) : option string :=
  match a with
  | DoCase5 => Some "num-rays"
  | DoCase6 => Some "matrix-size"
  | _ => None
  end.

(** The handlers that test [data.error]. *)
Definition tests_error (a : Action) : bool :=
  match a with
  | DoCase1 _ | DoCase2 | DoFindOptimalOmega | DoCase3 => true
  | _ => false
  end.

(** The listener the script registers for [DOMContentLoaded]. *)
Definition on_DOMContentLoaded : JS unit :=
  console_log [VStr "数值方法演示系统已加载"].

(** A page with the loading overlay and nothing else. *)
Definition bare_page : Page :=
  mkPage [mkElement "loading" [] "none" "" ""] None [] [] [].

(** The action of the button that runs case 1 with plain elimination. *)
Definition DoCase1_gauss : Action := DoCase1 (VStr "gauss").

(** One action for each of the eight handlers. *)
Definition every_handler : list Action :=
  [DoCase1_gauss; DoCase2; DoFindOptimalOmega; DoCase3;
   DoCase4Simple; DoCase4 (VStr "continuous"); DoCase5; DoCase6].


(** ** Observations on the two search and feature charts *)

(** [v.name] where the read does not throw. *)
Definition field (v : Value) (name : string) : Value :=
  match Get v name with
  | Normal x => x
  | Throw _ => VUndefined
  end.

(** The point the search chart shows for one entry of [search_results]. *)
Definition plotted_search_point (r : Value) : Value :=
  VObj [("x", field r "omega"); ("y", field r "iterations")].

(** The text of the notification [findOptimalOmega] raises. *)
Definition optimum_message (omega iterations : string) : string :=
  "最优松弛因子: ω = " ++ omega ++ "
收敛步数: " ++ iterations.

(** A response of the optimal-factor search, and one whose search results
    are an object, not an array. *)
Definition search_list : list Value :=
  [VObj [("omega", VNum 1%float); ("iterations", VNum 30%float)];
   VObj [("omega", VNum 1.25%float); ("iterations", VNum 18%float)];
   VObj [("omega", VNum 1.5%float); ("iterations", VNum 26%float)]].

Definition search_response : Value :=
  VObj [("optimal_omega", VNum 1.25%float);
        ("iterations", VNum 18%float);
        ("search_results", VArr search_list)].

Definition search_response_with_object : Value :=
  VObj [("optimal_omega", VNum 1.25%float);
        ("iterations", VNum 18%float);
        ("search_results", VObj [])].


(** ** Observations on what the dispatcher leaves alone *)

(** Two states of an element that differ at most in whether it carries the
    class [active]. *)
Definition same_but_active (e e' : Element) : Prop :=
  el_id e' = el_id e /\
  el_display e' = el_display e /\
  el_innerHTML e' = el_innerHTML e /\
  el_value e' = el_value e /\
  forall c, c <> "active" -> has_class c e' = has_class c e.


(** ** Observations on what a renderer leaves alone *)

(** A computation that leaves an observation of the page as it is, whether
    it completes or throws. *)
Definition preserves {A B} (obs : Page -> B) (c : JS A) : Prop :=
  forall p, obs (snd (c p)) = obs p.

(** The charts and the global [currentChart]. *)
Definition chart_state (p : Page) : option nat * list ChartInstance :=
  (currentChart p, charts p).

(** The ids of the elements a renderer assigns to. *)
Definition case_elements (c : Case) : list string :=
  match c with
  | LinearSolve => ["case1-result"; "case1-steps"; "case1-solution"]
  | SORIterate => ["case2-result"; "case2-summary"]
  | Regression => ["case3-result"; "case3-coefficients"; "case3-metrics"]
  | BridgeStatics =>
      ["case4-result"; "case4-image"; "case4-reactions"; "case4-verification"]
  | RayTrace => ["case5-result"; "case5-image"; "case5-stats"]
  | ConjugateGradient => ["case6-result"; "case6-image"; "case6-stats"]
  end.

(** The cases whose renderer ends by calling a chart builder. *)
Definition draws_chart (c : Case) : bool :=
  match c with
  | SORIterate | Regression => true
  | _ => false
  end.

(** A computation that, on every page with the ids of [p0], keeps the ids
    and changes no element but the ones [getElementById] answers for [ids]. *)
Definition confined (ids : list string) (p0 : Page) {A} (c : JS A) : Prop :=
  forall p,
    map el_id (elements p) = map el_id (elements p0) ->
    map el_id (elements (snd (c p))) = map el_id (elements p0) /\
    forall k,
      (forall id, In id ids -> element_index id p0 <> Some k) ->
      nth_error (elements (snd (c p))) k = nth_error (elements p) k.

(** The dashboard with a chart of case 2 on display. *)
Definition dashboard_with_chart : Page :=
  mkPage (elements dashboard_page) (Some 0)
         [mkChart None (search_config []) true] [] [].


(** ** Observations on the result panels *)

(** The id of the result panel of a case. *)
Definition result_panel (c : Case) : string :=
  match c with
  | LinearSolve => "case1-result"
  | SORIterate => "case2-result"
  | Regression => "case3-result"
  | BridgeStatics => "case4-result"
  | RayTrace => "case5-result"
  | ConjugateGradient => "case6-result"
  end.

(** [style.display] and [innerHTML] of the element at an index. *)
Definition display_at (i : nat) (p : Page) : option string :=
  option_map el_display (nth_error (elements p) i).

Definition html_at (i : nat) (p : Page) : option string :=
  option_map el_innerHTML (nth_error (elements p) i).

(** A page with the elements of case 2, showing a chart and the summary of
    an earlier run. *)
Definition sor_page : Page :=
  mkPage [mkElement "loading" [] "flex" "" "";
          mkElement "case2-result" [] "none" "" "";
          mkElement "case2-summary" [] "" "<div>earlier summary</div>" "";
          mkElement "case2-chart" [] "" "" ""]
         (Some 0) [mkChart (Some 3) (search_config []) true] [] [].

(** The dashboard while the solution area still shows an earlier solution. *)
Definition page_with_solution : Page :=
  mkPage (update_nth 5 (with_innerHTML "<div>earlier solution</div>")
                     (elements dashboard_page))
         None [] [] [].

(** A response of case 1 without a solution, and one of case 2 without
    results. *)
Definition steps_only_response : Value := VObj [("steps", VArr [])].

(** A response of case 1 whose steps are a number, not an array. *)
Definition steps_count_response : Value := VObj [("steps", VNum 5%float)].

Definition empty_response : Value := VObj [].


(** ** Observations on a handler and its renderer *)

(** What a handler hands to its renderer: the response, or for case 2 its
    [results] field. *)
Definition payload_of (a : Action) (data : Value) : Completion Value :=
  match a with
  | DoCase2 => Get data "results"
  | _ => Normal data
  end.

(** The handlers that end by calling the renderer of their case. *)
Definition renders (a : Action) : bool :=
  match a with
  | DoFindOptimalOmega => false
  | _ => true
  end.

(** The page once the [catch] clause of a handler has seen how the renderer
    ended. *)
Definition after_render (r : Completion unit * Page) : Page :=
  match r with
  | (Normal _, p1) => p1
  | (Throw e, p1) => notified ["请求失败: " ++ message e] p1
  end.

(** The most notifications one run of a handler raises. *)
Definition notifications_bound (a : Action) : nat :=
  match a with
  | DoFindOptimalOmega => 2
  | _ => 1
  end.

(** A computation that raises at most [n] notifications. *)
Definition notifies_at_most (n : nat) {A} (c : JS A) : Prop :=
  forall p, exists l,
    alerts (snd (c p)) = (alerts p ++ l)%list /\ List.length l <= n.

(** A computation that raises at most one notification, and none when it
    throws. *)
Definition notifies_once_or_throws {A} (c : JS A) : Prop :=
  forall p,
    match c p with
    | (Normal _, p') =>
        exists l, alerts p' = (alerts p ++ l)%list /\ List.length l <= 1
    | (Throw _, p') => alerts p' = alerts p
    end.

(** * Properties *)

Local Open Scope nat_scope.

(** ** The dispatcher *)

Lemma filter_seq_single (f : nat -> bool) (i n : nat) :
  i < n ->
  (forall k, k < n -> f k = Nat.eqb k i) ->
  filter f (seq 0 n) = [i].
Proof.
  intros Hi Hf.
  assert (G : forall m s, (forall k, s <= k < s + m -> f k = Nat.eqb k i) ->
              filter f (seq s m) =
              if (s <=? i) && (i <? s + m) then [i] else []).
  { induction m as [|m IH]; intros s H.
    - simpl. destruct (s <=? i) eqn:E1, (i <? s + 0) eqn:E2; simpl; try reflexivity.
      apply Nat.leb_le in E1. apply Nat.ltb_lt in E2. lia.
    - simpl. rewrite (H s) by lia. rewrite IH by (intros; apply H; lia).
      destruct (Nat.eqb_spec s i) as [->|Hne].
      + replace (S i <=? i) with false by (symmetry; apply Nat.leb_gt; lia).
        replace (i <=? i) with true by (symmetry; apply Nat.leb_le; lia).
        replace (i <? i + S m) with true by (symmetry; apply Nat.ltb_lt; lia).
        reflexivity.
      + destruct (S s <=? i) eqn:E1, (s <=? i) eqn:E2,
                 (i <? S s + m) eqn:E3, (i <? s + S m) eqn:E4; simpl; try reflexivity;
          repeat match goal with
                 | H : (_ <=? _) = true |- _ => apply Nat.leb_le in H
                 | H : (_ <=? _) = false |- _ => apply Nat.leb_gt in H
                 | H : (_ <? _) = true |- _ => apply Nat.ltb_lt in H
                 | H : (_ <? _) = false |- _ => apply Nat.ltb_ge in H
                 end; lia. }
  rewrite G by (intros; apply Hf; lia).
  replace (0 <=? i) with true by (symmetry; apply Nat.leb_le; lia).
  replace (i <? 0 + n) with true by (symmetry; apply Nat.ltb_lt; lia).
  reflexivity.
Qed.

Lemma filter_none {A} (f : A -> bool) (l : list A) :
  (forall x, In x l -> f x = false) -> filter f l = [].
Proof.
  induction l as [|x l IH]; intros H; simpl; [reflexivity|].
  rewrite (H x) by (left; reflexivity). apply IH. intros; apply H; right; assumption.
Qed.

Lemma nth_error_update_nth {A} (f : A -> A) (l : list A) (i k : nat) :
  nth_error (update_nth i f l) k =
  if Nat.eqb k i then option_map f (nth_error l k) else nth_error l k.
Proof.
  revert i k. induction l as [|x l IH]; intros i k.
  - destruct (Nat.eqb k i), i, k; reflexivity.
  - destruct i, k; simpl; try reflexivity. apply IH.
Qed.

Lemma length_update_nth {A} (f : A -> A) (l : list A) (i : nat) :
  List.length (update_nth i f l) = List.length l.
Proof.
  revert i. induction l as [|x l IH]; intros [|i]; simpl; try reflexivity.
  now rewrite IH.
Qed.

Lemma find_index_map_ext {A} (f g : A -> bool) (h : A -> A) (l : list A) :
  (forall x, g (h x) = f x) ->
  find_index g (map h l) = find_index f l.
Proof.
  intros H. induction l as [|x l IH]; simpl; [reflexivity|].
  rewrite H, IH. reflexivity.
Qed.

Lemma find_index_nth_error {A} (g : A -> bool) (l : list A) (i : nat) :
  find_index g l = Some i -> exists x, nth_error l i = Some x /\ g x = true.
Proof.
  revert i. induction l as [|x l IH]; intros i H; simpl in H; [discriminate|].
  destruct (g x) eqn:E.
  - injection H as <-. exists x. split; [reflexivity | assumption].
  - destruct (find_index g l) as [j|] eqn:F; simpl in H; [|discriminate].
    injection H as <-. apply (IH j eq_refl).
Qed.

Lemma has_class_remove_other (c d : string) (e : Element) :
  c <> d -> has_class c (classList_remove d e) = has_class c e.
Proof.
  intros Hne. unfold has_class, classList_remove. simpl.
  induction (el_classes e) as [|x l IH]; simpl; [reflexivity|].
  destruct (String.eqb_spec d x) as [->|Hdx]; simpl.
  - rewrite IH. destruct (String.eqb_spec c x); [contradiction | reflexivity].
  - rewrite IH. reflexivity.
Qed.

Lemma has_class_remove_same (c : string) (e : Element) :
  has_class c (classList_remove c e) = false.
Proof.
  unfold has_class, classList_remove. simpl.
  induction (el_classes e) as [|x l IH]; simpl; [reflexivity|].
  destruct (String.eqb_spec c x) as [->|Hcx]; simpl; [assumption|].
  rewrite IH. destruct (String.eqb_spec c x); [contradiction | reflexivity].
Qed.

Lemma has_class_add_same (c : string) (e : Element) :
  has_class c (classList_add c e) = true.
Proof.
  unfold classList_add. destruct (has_class c e) eqn:E; [assumption|].
  unfold has_class. simpl. rewrite existsb_app. simpl.
  rewrite String.eqb_refl. apply orb_true_iff. right. reflexivity.
Qed.

Lemma has_class_add_other (c d : string) (e : Element) :
  c <> d -> has_class c (classList_add d e) = has_class c e.
Proof.
  intros Hne. unfold classList_add. destruct (has_class d e); [reflexivity|].
  unfold has_class. simpl. rewrite existsb_app. simpl.
  destruct (String.eqb_spec c d); [contradiction|].
  rewrite !orb_false_r. reflexivity.
Qed.

Lemma has_class_deactivated (c : string) (e : Element) :
  c <> "active" -> has_class c (deactivated e) = has_class c e.
Proof.
  intros Hne. unfold deactivated.
  destruct (has_class "case-content" e);
    [destruct (has_class "tab-btn" (classList_remove "active" e))
    |destruct (has_class "tab-btn" e)];
    rewrite ?has_class_remove_other by assumption; reflexivity.
Qed.

Lemma deactivated_not_active (e : Element) :
  has_class "case-content" e = true \/ has_class "tab-btn" e = true ->
  has_class "active" (deactivated e) = false.
Proof.
  intros H. unfold deactivated.
  destruct (has_class "case-content" e) eqn:Ec.
  - destruct (has_class "tab-btn" (classList_remove "active" e)).
    + apply has_class_remove_same.
    + apply has_class_remove_same.
  - destruct H as [H|H]; [discriminate|]. rewrite H. apply has_class_remove_same.
Qed.

Lemma el_id_deactivated (e : Element) : el_id (deactivated e) = el_id e.
Proof.
  unfold deactivated.
  destruct (has_class "case-content" e);
    [destruct (has_class "tab-btn" (classList_remove "active" e))
    |destruct (has_class "tab-btn" e)]; reflexivity.
Qed.

(** The two [querySelectorAll(...).forEach] loops of [showCase] rewrite each
    element to its [deactivated] form. *)
Lemma showCase_deactivates (els : list Element) :
  map (fun e => if has_class "tab-btn" e then classList_remove "active" e else e)
      (map (fun e => if has_class "case-content" e then classList_remove "active" e else e)
           els)
  = map deactivated els.
Proof.
  rewrite map_map. apply map_ext. intros e. reflexivity.
Qed.

Lemma element_index_deactivated (id : string) (p : Page) :
  element_index id
    (mkPage (map deactivated (elements p)) (currentChart p) (charts p) (alerts p) (console p))
  = element_index id p.
Proof.
  unfold element_index. simpl. destruct (String.eqb id ""); [reflexivity|].
  apply find_index_map_ext. intros e. now rewrite el_id_deactivated.
Qed.

Lemma element_index_in_range (id : string) (p : Page) (i : nat) :
  element_index id p = Some i -> i < List.length (elements p).
Proof.
  unfold element_index. destruct (String.eqb id ""); [discriminate|].
  intros H. apply find_index_nth_error in H. destruct H as [x [H _]].
  apply nth_error_Some. congruence.
Qed.

(** The elements of the page once [showCase] has activated panel [i] and
    tab [j]. *)
Lemma showCase_elements_nth (els : list Element) (i j k : nat) :
  nth_error (update_nth j (classList_add "active")
               (update_nth i (classList_add "active") (map deactivated els))) k
  = option_map (fun e =>
                  let e1 := deactivated e in
                  let e2 := if Nat.eqb k i then classList_add "active" e1 else e1 in
                  if Nat.eqb k j then classList_add "active" e2 else e2)
               (nth_error els k).
Proof.
  rewrite !nth_error_update_nth, nth_error_map.
  destruct (nth_error els k) as [e|]; simpl;
    destruct (Nat.eqb k j), (Nat.eqb k i); reflexivity.
Qed.

Lemma showCase_runs (caseId : string) (i j : nat) (p : Page) :
  element_index caseId p = Some i ->
  showCase caseId (Some j) p =
  (Normal tt,
   mkPage (update_nth j (classList_add "active")
             (update_nth i (classList_add "active") (map deactivated (elements p))))
          (currentChart p) (charts p) (alerts p) (console p)).
Proof.
  intros Hi.
  unfold showCase, bind, querySelectorAll_forEach, set_elements, getElementById.
  simpl. rewrite showCase_deactivates.
  rewrite (element_index_deactivated caseId p), Hi. reflexivity.
Qed.

(** C3. After [showCase(caseId)] returns, exactly one case panel is visible,
    the one with id [caseId], and exactly one tab control is active, the one
    that triggered the call.  This holds whatever classes the panels and tabs
    carried before, when [caseId] is the id of a case panel and the event
    target is a tab control (a panel is not a tab, and conversely). *)
Theorem showCase_one_panel_one_tab (caseId : string) (i j : nat) (p : Page) :
  element_index caseId p = Some i ->
  class_at p i "case-content" = true ->
  class_at p i "tab-btn" = false ->
  class_at p j "tab-btn" = true ->
  class_at p j "case-content" = false ->
  exists p',
    showCase caseId (Some j) p = (Normal tt, p') /\
    visible_panels p' = [i] /\
    active_tabs p' = [j].
Proof.
  intros Hi Hip Hit Hjt Hjp.
  rewrite (showCase_runs caseId i j p Hi).
  eexists. split; [reflexivity|].
  assert (Hlen : forall a b, List.length
            (update_nth a (classList_add "active")
               (update_nth b (classList_add "active") (map deactivated (elements p))))
            = List.length (elements p)).
  { intros. now rewrite !length_update_nth, length_map. }
  assert (Hij : i <> j).
  { intros ->. rewrite Hjt in Hit. discriminate. }
  assert (Hj : j < List.length (elements p)).
  { unfold class_at in Hjt. apply nth_error_Some.
    destruct (nth_error (elements p) j); [discriminate | discriminate]. }
  pose proof (element_index_in_range caseId p i Hi) as Hi'.
  unfold class_at in *.
  split.
  - unfold visible_panels, indices_where. simpl. rewrite Hlen.
    apply filter_seq_single; [assumption|].
    intros k Hk. rewrite showCase_elements_nth.
    destruct (nth_error (elements p) k) as [e|] eqn:Ek;
      [|apply nth_error_None in Ek; lia].
    simpl. unfold is_visible_panel.
    destruct (Nat.eqb_spec k i) as [Hki|Hki], (Nat.eqb_spec k j) as [Hkj|Hkj];
      [exfalso; congruence | subst k | | ].
    + rewrite Ek in Hip.
      rewrite has_class_add_other, has_class_deactivated by discriminate.
      rewrite Hip, has_class_add_same. reflexivity.
    + subst k. rewrite Ek in Hjp.
      rewrite has_class_add_other, has_class_deactivated by discriminate.
      rewrite Hjp. reflexivity.
    + rewrite has_class_deactivated by discriminate.
      destruct (has_class "case-content" e) eqn:Ec; [|reflexivity].
      rewrite deactivated_not_active by (left; assumption). reflexivity.
  - unfold active_tabs, indices_where. simpl. rewrite Hlen.
    apply filter_seq_single; [assumption|].
    intros k Hk. rewrite showCase_elements_nth.
    destruct (nth_error (elements p) k) as [e|] eqn:Ek;
      [|apply nth_error_None in Ek; lia].
    simpl. unfold is_active_tab.
    destruct (Nat.eqb_spec k i) as [Hki|Hki], (Nat.eqb_spec k j) as [Hkj|Hkj];
      [exfalso; congruence | subst k | | ].
    + rewrite Ek in Hit.
      rewrite has_class_add_other, has_class_deactivated by discriminate.
      rewrite Hit. reflexivity.
    + subst k. rewrite Ek in Hjt.
      rewrite has_class_add_same, has_class_add_other, has_class_deactivated
        by discriminate.
      rewrite Hjt. reflexivity.
    + rewrite has_class_deactivated by discriminate.
      destruct (has_class "tab-btn" e) eqn:Ec; [|reflexivity].
      rewrite deactivated_not_active by (right; assumption). reflexivity.
Qed.

Lemma showCase_one_panel_one_tab_witness :
  exists p',
    showCase "case2" (Some 3) crowded_tabs_page = (Normal tt, p') /\
    visible_panels p' = [1] /\
    active_tabs p' = [3].
Proof.
  apply (showCase_one_panel_one_tab "case2" 1 3 crowded_tabs_page); reflexivity.
Defined.

Lemma indices_where_none {A} (f : A -> bool) (l : list A) :
  (forall x, In x l -> f x = false) -> indices_where f l = [].
Proof.
  intros H. unfold indices_where. apply filter_none. intros k _.
  destruct (nth_error l k) as [x|] eqn:E; [|reflexivity].
  apply H. eapply nth_error_In. eassumption.
Qed.

(** C7, as the script behaves.  When [caseId] is not the id of any element,
    [showCase] first hides every panel and deactivates every tab, and then
    fails: [document.getElementById(caseId)] is null and reading its
    [classList] throws a TypeError.  No panel is shown and no tab is
    activated, whatever the event target. *)
Theorem showCase_unknown_case_throws (caseId : string) (target : option nat) (p : Page) :
  element_index caseId p = None ->
  let p' := mkPage (map deactivated (elements p))
                   (currentChart p) (charts p) (alerts p) (console p) in
  showCase caseId target p =
    (Throw (TypeError "Cannot read properties of null (reading 'classList')"), p') /\
  visible_panels p' = [] /\
  active_tabs p' = [].
Proof.
  intros Hnone p'. split; [|split].
  - unfold showCase, bind, querySelectorAll_forEach, set_elements, getElementById.
    simpl. rewrite showCase_deactivates.
    rewrite (element_index_deactivated caseId p), Hnone. reflexivity.
  - unfold visible_panels. apply indices_where_none. simpl.
    intros x Hx. apply in_map_iff in Hx. destruct Hx as [e [<- _]].
    unfold is_visible_panel. rewrite has_class_deactivated by discriminate.
    destruct (has_class "case-content" e) eqn:E; [|reflexivity].
    rewrite deactivated_not_active by (left; assumption). reflexivity.
  - unfold active_tabs. apply indices_where_none. simpl.
    intros x Hx. apply in_map_iff in Hx. destruct Hx as [e [<- _]].
    unfold is_active_tab. rewrite has_class_deactivated by discriminate.
    destruct (has_class "tab-btn" e) eqn:E; [|reflexivity].
    rewrite deactivated_not_active by (right; assumption). reflexivity.
Qed.

Lemma showCase_unknown_case_throws_witness :
  let p' := mkPage (map deactivated (elements tabs_page)) None [] [] [] in
  showCase "case9" (Some 3) tabs_page =
    (Throw (TypeError "Cannot read properties of null (reading 'classList')"), p') /\
  visible_panels p' = [] /\
  active_tabs p' = [].
Proof.
  apply (showCase_unknown_case_throws "case9" (Some 3) tabs_page). reflexivity.
Defined.

(** C7 as stated fails: on a page whose first panel is visible, calling
    [showCase] with an id that no element has does not return normally, and
    the panel that was visible is hidden. *)
Lemma showCase_unknown_case_counterexample :
  element_index "case9" tabs_page = None /\
  visible_panels tabs_page = [0] /\
  active_tabs tabs_page = [2] /\
  showCase "case9" (Some 3) tabs_page =
    (Throw (TypeError "Cannot read properties of null (reading 'classList')"),
     mkPage [mkElement "case1" ["case-content"] "" "" "";
             mkElement "case2" ["case-content"] "" "" "";
             mkElement "" ["tab-btn"] "" "" "";
             mkElement "" ["tab-btn"] "" "" ""]
            None [] [] []).
Proof.
  repeat split; reflexivity.
Qed.

(** ** The chart manager *)

Lemma destroy_currentChart_spec (p : Page) :
  destroy_currentChart p =
  (Normal tt,
   mkPage (elements p) (currentChart p) (charts_after_destroy p) (alerts p) (console p)).
Proof.
  unfold destroy_currentChart, charts_after_destroy.
  destruct p as [els [c|] chs al co]; reflexivity.
Qed.

(** Every chart builder first destroys the current chart, and then either
    throws while it reads its argument, building nothing, or builds one new
    chart on its canvas and stores it in [currentChart].  Which of the two
    depends on the argument only, not on the page. *)
Lemma chart_call_uniform rt (call : ChartCall) :
  (exists e, forall p, chart_call rt call p = (Throw e, after_failed_plot p))
  \/
  (exists canvas config,
      forall p, chart_call rt call p = (Normal tt, after_plot canvas config p)).
Proof.
  destruct call as [results | searchResults | coefficients]; simpl.
  - destruct (convergence_datasets rt results) as [ds|e] eqn:E.
    + right. exists "case2-chart", (convergence_config ds). intros p.
      unfold plotConvergenceCurves, bind, getElementById, lift, new_currentChart.
      rewrite destroy_currentChart_spec, E. reflexivity.
    + left. exists e. intros p.
      unfold plotConvergenceCurves, bind, getElementById, lift.
      rewrite destroy_currentChart_spec, E. reflexivity.
  - destruct (cbind (as_array searchResults "searchResults" "map")
                    (fun rs => mapM search_point rs))
      as [ds|e] eqn:E.
    + right. exists "case2-chart", (search_config ds). intros p.
      unfold plotOptimalOmegaSearch, bind, getElementById, lift, new_currentChart.
      rewrite destroy_currentChart_spec, E. reflexivity.
    + left. exists e. intros p.
      unfold plotOptimalOmegaSearch, bind, getElementById, lift.
      rewrite destroy_currentChart_spec, E. reflexivity.
  - destruct (cbind (as_array coefficients "coefficients" "map")
                    (fun cs => mapM (fun c => Get c "feature") cs)) as [ls|e] eqn:E1.
    + destruct (cbind (as_array coefficients "coefficients" "map")
                      (fun cs => mapM (abs_coefficient rt) cs)) as [ds|e] eqn:E2.
      * right. exists "case3-chart", (feature_config ls (map VNum ds)). intros p.
        unfold plotFeatureImportance, bind, getElementById, lift, new_currentChart.
        rewrite destroy_currentChart_spec, E1, E2. reflexivity.
      * left. exists e. intros p.
        unfold plotFeatureImportance, bind, getElementById, lift.
        rewrite destroy_currentChart_spec, E1, E2. reflexivity.
    + left. exists e. intros p.
      unfold plotFeatureImportance, bind, getElementById, lift.
      rewrite destroy_currentChart_spec, E1. reflexivity.
Qed.

Lemma in_indices_where {A} (f : A -> bool) (l : list A) (k : nat) :
  In k (indices_where f l) <-> exists x, nth_error l k = Some x /\ f x = true.
Proof.
  unfold indices_where. rewrite filter_In, in_seq. split.
  - intros [_ H]. destruct (nth_error l k) as [x|]; [eauto | discriminate].
  - intros [x [Hx Hf]]. split.
    + split; [lia|]. simpl. apply nth_error_Some. congruence.
    + rewrite Hx. assumption.
Qed.

Lemma attached_after_destroy (p : Page) :
  (attached_charts p = [] \/
   exists c, attached_charts p = [c] /\ currentChart p = Some c) ->
  indices_where chart_attached (charts_after_destroy p) = [].
Proof.
  intros H. unfold indices_where. apply filter_none. intros k _.
  destruct (nth_error (charts_after_destroy p) k) as [x|] eqn:E; [|reflexivity].
  destruct (chart_attached x) eqn:Ex; [exfalso|reflexivity].
  unfold charts_after_destroy in E.
  assert (Hk : forall y, nth_error (charts p) k = Some y -> chart_attached y = true ->
                         currentChart p = Some k).
  { intros y Hy Hay.
    assert (Hin : In k (attached_charts p)).
    { apply in_indices_where. eauto. }
    destruct H as [H | [c [H Hc]]]; rewrite H in Hin.
    - destruct Hin.
    - destruct Hin as [<- | []]. assumption. }
  destruct (currentChart p) as [c|] eqn:Ec.
  - rewrite nth_error_update_nth in E.
    destruct (Nat.eqb_spec k c) as [->|Hne].
    + destruct (nth_error (charts p) c); simpl in E; [|discriminate].
      injection E as <-. simpl in Ex. discriminate.
    + specialize (Hk x E Ex). congruence.
  - specialize (Hk x E Ex). discriminate.
Qed.

Lemma attached_after_new (l : list ChartInstance) (ch : ChartInstance) :
  indices_where chart_attached l = [] ->
  chart_attached ch = true ->
  indices_where chart_attached (l ++ [ch]) = [List.length l].
Proof.
  intros Hl Hch. unfold indices_where. rewrite length_app. simpl.
  apply filter_seq_single; [lia|].
  intros k Hk. destruct (Nat.eqb_spec k (List.length l)) as [->|Hne].
  - rewrite nth_error_app2, Nat.sub_diag by lia. simpl. assumption.
  - rewrite nth_error_app1 by lia.
    destruct (nth_error l k) as [x|] eqn:E; [|reflexivity].
    destruct (chart_attached x) eqn:Ex; [|reflexivity].
    assert (Hin : In k (indices_where chart_attached l)).
    { apply in_indices_where. eauto. }
    rewrite Hl in Hin. destruct Hin.
Qed.

Lemma length_charts_after_destroy (p : Page) :
  List.length (charts_after_destroy p) = List.length (charts p).
Proof.
  unfold charts_after_destroy. destruct (currentChart p); [|reflexivity].
  apply length_update_nth.
Qed.

Lemma most_recent_after_destroy (p : Page) :
  currentChart p = most_recent_chart p ->
  currentChart p =
  most_recent_chart (mkPage (elements p) (currentChart p) (charts_after_destroy p)
                            (alerts p) (console p)).
Proof.
  intros H. rewrite H at 1. unfold most_recent_chart. simpl.
  rewrite length_charts_after_destroy.
  pose proof (length_charts_after_destroy p) as L.
  destruct (charts p), (charts_after_destroy p); simpl in *; try discriminate; reflexivity.
Qed.

(** A chart builder keeps the invariant: after it, the only attached chart
    is the one just built (none, when the call threw). *)
Lemma chart_call_single_chart (rt : Runtime) (c : ChartCall) (p : Page) :
  single_chart p -> single_chart (snd (chart_call rt c p)).
Proof.
  intros [Hatt Hcur].
  pose proof (attached_after_destroy p Hatt) as Hnone.
  destruct (chart_call_uniform rt c) as [[e He] | [canvas [config Hn]]];
    [rewrite He | rewrite Hn]; simpl.
  - split.
    + left. exact Hnone.
    + exact (most_recent_after_destroy p Hcur).
  - split.
    + right. exists (List.length (charts_after_destroy p)). split; [|reflexivity].
      unfold attached_charts. simpl. apply attached_after_new; [assumption | reflexivity].
    + unfold most_recent_chart. simpl.
      destruct (charts_after_destroy p ++ [mkChart (element_index canvas p) config true])%list
        eqn:E.
      * destruct (charts_after_destroy p); discriminate.
      * rewrite <- E, length_app. simpl. f_equal. lia.
Qed.

(** C2. Starting from the freshly loaded script, after every call of any
    sequence of chart-building calls at most one chart is attached, that
    chart is the one [currentChart] refers to, and [currentChart] refers to
    the chart built last; and each call, on any page, destroys the current
    chart before it either throws or builds its own chart. *)
Theorem at_most_one_chart (rt : Runtime) (els : list Element) (calls : list ChartCall) :
  Forall (fun p => List.length (attached_charts p) <= 1 /\ single_chart p)
         (script_loaded els :: pages_after rt calls (script_loaded els))
  /\
  (forall call,
      (exists e, forall p, chart_call rt call p = (Throw e, after_failed_plot p))
      \/
      (exists canvas config,
          forall p, chart_call rt call p = (Normal tt, after_plot canvas config p))).
Proof.
  split; [|exact (chart_call_uniform rt)].
  assert (Hlen : forall p, single_chart p -> List.length (attached_charts p) <= 1).
  { intros p [[H | [c [H _]]] _]; rewrite H; simpl; lia. }
  assert (Hinit : single_chart (script_loaded els)).
  { split; [left|]; reflexivity. }
  constructor; [split; [apply Hlen|]; assumption|].
  generalize dependent (script_loaded els). clear els.
  induction calls as [|c calls IH]; intros p Hp; simpl; [constructor|].
  pose proof (chart_call_single_chart rt c p Hp) as Hp'.
  constructor; [split; [apply Hlen|]; assumption|].
  apply IH. assumption.
Qed.

(** ** The loading indicator around a request *)

Create HintDb ids.

Lemma keeps_ids_ret {A} (a : A) : keeps_ids (ret a).
Proof. intros p. reflexivity. Qed.

Lemma keeps_ids_throw {A} (e : Exn) : keeps_ids (@throw A e).
Proof. intros p. reflexivity. Qed.

Lemma keeps_ids_lift {A} (c : Completion A) : keeps_ids (lift c).
Proof. intros p. reflexivity. Qed.

Lemma keeps_ids_bind {A B} (c : JS A) (k : A -> JS B) :
  keeps_ids c -> (forall a, keeps_ids (k a)) -> keeps_ids (bind c k).
Proof.
  intros Hc Hk p. unfold bind. specialize (Hc p).
  destruct (c p) as [[a|e] p1]; simpl in *; [|assumption].
  rewrite Hk. assumption.
Qed.

Lemma keeps_ids_getElementById (id : string) : keeps_ids (getElementById id).
Proof. intros p. reflexivity. Qed.

Lemma map_el_id_update_nth (f : Element -> Element) (i : nat) (els : list Element) :
  (forall e, el_id (f e) = el_id e) ->
  map el_id (update_nth i f els) = map el_id els.
Proof.
  intros H. revert i. induction els as [|e els IH]; intros [|i]; simpl; try reflexivity.
  - now rewrite H.
  - now rewrite IH.
Qed.

Lemma keeps_ids_set_display (el : option nat) (v : string) :
  keeps_ids (set_display el v).
Proof.
  intros p. destruct el as [i|]; simpl; [|reflexivity].
  apply map_el_id_update_nth. reflexivity.
Qed.

Lemma keeps_ids_set_innerHTML (el : option nat) (h : string) :
  keeps_ids (set_innerHTML el h).
Proof.
  intros p. destruct el as [i|]; simpl; [|reflexivity].
  apply map_el_id_update_nth. reflexivity.
Qed.

Lemma keeps_ids_alert (msg : string) : keeps_ids (alert msg).
Proof. intros p. reflexivity. Qed.

Lemma keeps_ids_console_log (args : list Value) : keeps_ids (console_log args).
Proof. intros p. reflexivity. Qed.

Lemma keeps_ids_destroy : keeps_ids destroy_currentChart.
Proof. intros p. unfold destroy_currentChart. destruct (currentChart p); reflexivity. Qed.

Lemma keeps_ids_new (ctx : option nat) (config : Value) :
  keeps_ids (new_currentChart ctx config).
Proof. intros p. reflexivity. Qed.

Lemma keeps_ids_if {A} (b : bool) (c1 c2 : JS A) :
  keeps_ids c1 -> keeps_ids c2 -> keeps_ids (if b then c1 else c2).
Proof. destruct b; auto. Qed.

#[local] Hint Resolve keeps_ids_ret keeps_ids_throw keeps_ids_lift keeps_ids_bind
  keeps_ids_getElementById keeps_ids_set_display keeps_ids_set_innerHTML
  keeps_ids_alert keeps_ids_console_log keeps_ids_destroy keeps_ids_new
  keeps_ids_if : ids.

Ltac keeps_ids_tac :=
  repeat first
    [ solve [auto with ids]
    | apply keeps_ids_bind; [|intros ?]
    | apply keeps_ids_if ].

Lemma keeps_ids_plotConvergenceCurves rt (results : Value) :
  keeps_ids (plotConvergenceCurves rt results).
Proof. unfold plotConvergenceCurves. keeps_ids_tac. Qed.

Lemma keeps_ids_plotOptimalOmegaSearch (searchResults : Value) :
  keeps_ids (plotOptimalOmegaSearch searchResults).
Proof. unfold plotOptimalOmegaSearch. keeps_ids_tac. Qed.

Lemma keeps_ids_plotFeatureImportance rt (coefficients : Value) :
  keeps_ids (plotFeatureImportance rt coefficients).
Proof. unfold plotFeatureImportance. keeps_ids_tac. Qed.

#[local] Hint Resolve keeps_ids_plotConvergenceCurves keeps_ids_plotOptimalOmegaSearch
  keeps_ids_plotFeatureImportance : ids.

Lemma keeps_ids_displayCase1Result rt (data : Value) :
  keeps_ids (displayCase1Result rt data).
Proof. unfold displayCase1Result. keeps_ids_tac. Qed.

Lemma keeps_ids_displayCase2Result rt (results : Value) :
  keeps_ids (displayCase2Result rt results).
Proof. unfold displayCase2Result. keeps_ids_tac. destruct results; keeps_ids_tac. Qed.

Lemma keeps_ids_displayCase3Result rt (data : Value) :
  keeps_ids (displayCase3Result rt data).
Proof. unfold displayCase3Result. keeps_ids_tac. Qed.

Lemma keeps_ids_displayCase4Result rt (now : N) (data : Value) :
  keeps_ids (displayCase4Result rt now data).
Proof. unfold displayCase4Result. keeps_ids_tac. Qed.

Lemma keeps_ids_displayCase5Result rt (data : Value) :
  keeps_ids (displayCase5Result rt data).
Proof. unfold displayCase5Result. keeps_ids_tac. Qed.

Lemma keeps_ids_displayCase6Result rt (data : Value) :
  keeps_ids (displayCase6Result rt data).
Proof. unfold displayCase6Result. keeps_ids_tac. Qed.

#[local] Hint Resolve keeps_ids_displayCase1Result keeps_ids_displayCase2Result
  keeps_ids_displayCase3Result keeps_ids_displayCase4Result
  keeps_ids_displayCase5Result keeps_ids_displayCase6Result : ids.

Lemma element_index_same_ids (id : string) (p q : Page) :
  map el_id (elements q) = map el_id (elements p) ->
  element_index id q = element_index id p.
Proof.
  unfold element_index. destruct (String.eqb id ""); [reflexivity|].
  generalize (elements p) (elements q). clear p q.
  intros l1. induction l1 as [|x l1 IH]; intros [|y l2] H; simpl in *;
    try discriminate; [reflexivity|].
  injection H as Hxy Hl. rewrite Hxy. now rewrite (IH l2 Hl).
Qed.

Lemma showLoading_runs (show : bool) (p : Page) (i : nat) :
  element_index "loading" p = Some i ->
  exists p',
    showLoading show p = (Normal tt, p') /\
    loading_display p' = Some (if show then "flex" else "none") /\
    map el_id (elements p') = map el_id (elements p).
Proof.
  intros Hi. unfold showLoading, bind, getElementById. rewrite Hi. simpl.
  eexists. split; [reflexivity|].
  pose proof (element_index_in_range _ _ _ Hi) as Hlt.
  assert (Hids : map el_id (update_nth i (with_display (if show then "flex" else "none"))
                                       (elements p)) = map el_id (elements p)).
  { apply map_el_id_update_nth. reflexivity. }
  split; [|exact Hids].
  unfold loading_display.
  rewrite (element_index_same_ids "loading" p) by exact Hids.
  rewrite Hi. simpl. rewrite nth_error_update_nth, Nat.eqb_refl.
  destruct (nth_error (elements p) i) eqn:E; [reflexivity|].
  apply nth_error_None in E. lia.
Qed.

Lemma showLoading_throws (show : bool) (p : Page) :
  element_index "loading" p = None ->
  exists e, showLoading show p = (Throw e, p).
Proof.
  intros Hi. unfold showLoading, bind, getElementById. rewrite Hi. simpl.
  eexists. reflexivity.
Qed.

(** A handler body wrapped in the script's [try]/[catch]/[finally] always
    completes normally with the flag cleared, whatever the body does, as long
    as the loading overlay is part of the page. *)
Lemma guarded_body_clears_flag (body : JS unit) (p : Page) (i : nat) :
  keeps_ids body ->
  element_index "loading" p = Some i ->
  exists p',
    try_catch_finally body alert_failure (showLoading false) p = (Normal tt, p') /\
    loading_display p' = Some "none".
Proof.
  intros Hbody Hi. unfold try_catch_finally.
  specialize (Hbody p).
  destruct (body p) as [[[]|e] p1]; simpl in Hbody.
  - assert (H1 : element_index "loading" p1 = Some i).
    { rewrite (element_index_same_ids "loading" p p1 Hbody). assumption. }
    destruct (showLoading_runs false p1 i H1) as [p2 [-> [Hd _]]].
    exists p2. split; [reflexivity | assumption].
  - unfold alert_failure, alert. cbv beta iota zeta.
    set (p1' := mkPage _ _ _ _ _).
    assert (H1 : element_index "loading" p1' = Some i).
    { rewrite (element_index_same_ids "loading" p p1' Hbody). assumption. }
    destruct (showLoading_runs false p1' i H1) as [p2 [-> [Hd _]]].
    exists p2. split; [reflexivity | assumption].
Qed.

Lemma keeps_ids_unless_error rt (data : Value) (render : JS unit) :
  keeps_ids render -> keeps_ids (unless_error rt data render).
Proof. intros H. unfold unless_error. keeps_ids_tac. Qed.

Lemma keeps_ids_await_json (o : NetOutcome) : keeps_ids (await_json o).
Proof. destruct o; simpl; auto with ids. Qed.

#[local] Hint Resolve keeps_ids_unless_error keeps_ids_await_json : ids.

(** The part of each handler that runs before the request is issued sets the
    flag; if it completes, the overlay exists and shows. *)
Lemma before_await_sets_flag rt (now : N) (a : Action) (p p1 : Page) (req : Request) :
  before_await (handler rt now a) p = (Normal req, p1) ->
  loading_display p1 = Some "flex" /\ exists i, element_index "loading" p1 = Some i.
Proof.
  intros H.
  assert (G : forall (k : JS Request),
             (forall q, snd (k q) = q) ->
             bind (showLoading true) (fun _ => k) p = (Normal req, p1) ->
             loading_display p1 = Some "flex" /\
             exists i, element_index "loading" p1 = Some i).
  { intros k Hk Hrun. unfold bind in Hrun.
    destruct (element_index "loading" p) as [i|] eqn:Ei.
    - destruct (showLoading_runs true p i Ei) as [p' [Hs [Hd Hids]]].
      rewrite Hs in Hrun. specialize (Hk p').
      destruct (k p') as [r q]. simpl in Hk. subst q.
      injection Hrun as _ <-. split; [assumption|].
      exists i. rewrite (element_index_same_ids "loading" p p' Hids). assumption.
    - destruct (showLoading_throws true p Ei) as [e Hs].
      rewrite Hs in Hrun. discriminate. }
  destruct a; simpl in H; (eapply G; [|exact H]); intros q;
    try reflexivity;
    unfold bind, getElementById, get_value, null_read, throw, ret;
    destruct (element_index _ q); reflexivity.
Qed.

(** The one way a handler can leave the flag set: [runCase5] and [runCase6]
    read their input after setting the flag and outside the [try]; when the
    input element is missing they throw before any request is issued, and
    nothing clears the flag. *)
Lemma runCase5_without_input rt :
  exists e p',
    before_await (runCase5 rt) page_without_inputs = (Throw e, p') /\
    loading_display p' = Some "flex".
Proof.
  eexists. eexists. split; reflexivity.
Qed.

(** ** The convergence chart *)

Lemma convergence_points_length (samples : list Value) :
  forallb readable_sample samples = true ->
  exists points,
    mapM convergence_point samples = Normal points /\
    List.length points = List.length samples.
Proof.
  induction samples as [|s samples IH]; intros H; simpl in *.
  - exists []. split; reflexivity.
  - apply andb_true_iff in H. destruct H as [Hs Hrest].
    destruct (IH Hrest) as [points [Hp Hl]].
    assert (Hpt : exists pt, convergence_point s = Normal pt).
    { unfold convergence_point.
      destruct s; try discriminate; simpl; try (eexists; reflexivity).
      destruct (lookup "iteration" fields), (lookup "exact_error" fields);
        eexists; reflexivity. }
    destruct Hpt as [pt Hpt]. rewrite Hpt. simpl. rewrite Hp. simpl.
    exists (pt :: points). split; [reflexivity | simpl; now rewrite Hl].
Qed.

Lemma ToString_palette rt (index : nat) :
  exists s, ToString rt (Index colors index) = Normal s.
Proof.
  unfold Index, colors.
  do 5 (destruct index as [|index]; [eexists; reflexivity|]).
  destruct index; eexists; reflexivity.
Qed.

(** One dataset: its points are the samples of the run, its colour the
    palette entry at the index of the run. *)
Lemma convergence_dataset_spec rt (index : nat) (run : Value) :
  readable_run rt run ->
  exists d,
    convergence_dataset rt index run = Normal d /\
    point_count d = sample_count run /\
    Get d "borderColor" = Normal (Index colors index).
Proof.
  intros [label [samples [Hl [Hi Hs]]]].
  destruct (convergence_points_length samples Hs) as [points [Hp Hlen]].
  destruct (ToString_palette rt index) as [bg Hbg].
  unfold convergence_dataset.
  unfold cbind in Hl. destruct (Get run "omega") as [omega|e]; [|discriminate].
  simpl. rewrite Hl. simpl. rewrite Hi. simpl. rewrite Hp. simpl. rewrite Hbg. simpl.
  eexists. split; [reflexivity|].
  unfold point_count, sample_count. rewrite Hi. simpl.
  split; [assumption | reflexivity].
Qed.

Lemma convergence_datasets_from rt (runs : list Value) (start : nat) :
  Forall (readable_run rt) runs ->
  exists ds,
    mapiM_from start (convergence_dataset rt) runs = Normal ds /\
    List.length ds = List.length runs /\
    forall i run,
      nth_error runs i = Some run ->
      exists d,
        nth_error ds i = Some d /\
        point_count d = sample_count run /\
        Get d "borderColor" = Normal (Index colors (start + i)).
Proof.
  intros H. revert start. induction H as [|run runs Hrun Hruns IH]; intros start.
  - exists []. repeat split. intros [|i] run H; discriminate.
  - destruct (convergence_dataset_spec rt start run Hrun) as [d [Hd [Hpc Hcol]]].
    destruct (IH (S start)) as [ds [Hds [Hlen Hnth]]].
    exists (d :: ds). simpl. rewrite Hd. simpl. rewrite Hds. simpl.
    split; [reflexivity|]. split; [now rewrite Hlen|].
    intros [|i] r Hr; simpl in Hr.
    + injection Hr as <-. exists d. rewrite Nat.add_0_r. auto.
    + destruct (Hnth i r Hr) as [d' [H1 [H2 H3]]].
      exists d'. rewrite Nat.add_succ_r. auto.
Qed.

Lemma palette_distinct : NoDup colors /\ List.length colors = 4.
Proof.
  split; [|reflexivity].
  unfold colors.
  repeat (constructor; [simpl; intuition discriminate|]).
  constructor.
Qed.

(** C10, as the script behaves.  For a response with N readable runs,
    [plotConvergenceCurves] builds a chart with exactly N series; the i-th
    series has as many points as the i-th run has iteration samples, and its
    colour is the entry of the palette at index i.  The palette has four
    pairwise distinct colours, so the first four runs get distinct colours;
    the index is not reduced modulo the palette size. *)
Theorem convergence_chart_series rt (runs : list Value) (p : Page) :
  Forall (readable_run rt) runs ->
  exists p' config,
    plotConvergenceCurves rt (VArr runs) p = (Normal tt, p') /\
    current_config p' = Some config /\
    List.length (datasets_of config) = List.length runs /\
    (forall i run,
        nth_error runs i = Some run ->
        exists d,
          nth_error (datasets_of config) i = Some d /\
          point_count d = sample_count run /\
          Get d "borderColor" = Normal (Index colors i)) /\
    NoDup colors /\ List.length colors = 4.
Proof.
  intros H.
  destruct (convergence_datasets_from rt runs 0 H) as [ds [Hds [Hlen Hnth]]].
  unfold plotConvergenceCurves, bind, getElementById, lift, new_currentChart.
  rewrite destroy_currentChart_spec.
  unfold convergence_datasets, as_array, cbind, mapiM. rewrite Hds.
  cbv beta iota zeta.
  eexists. exists (convergence_config ds).
  split; [reflexivity|].
  split.
  { unfold current_config. simpl.
    rewrite nth_error_app2 by lia. rewrite Nat.sub_diag. reflexivity. }
  split; [exact Hlen|].
  split; [exact Hnth|].
  exact palette_distinct.
Qed.

Lemma readable_sample_run (omega : float) :
  readable_run Host.runtime (sample_run omega).
Proof.
  exists (Host.Number_toString omega),
         [VObj [("iteration", VNum 1%float); ("exact_error", VNum 0.5%float)]].
  repeat split; reflexivity.
Qed.

Lemma convergence_chart_series_witness :
  exists p' config,
    plotConvergenceCurves Host.runtime (VArr four_runs) dashboard_page = (Normal tt, p') /\
    current_config p' = Some config /\
    List.length (datasets_of config) = List.length four_runs /\
    (forall i run,
        nth_error four_runs i = Some run ->
        exists d,
          nth_error (datasets_of config) i = Some d /\
          point_count d = sample_count run /\
          Get d "borderColor" = Normal (Index colors i)) /\
    NoDup colors /\ List.length colors = 4.
Proof.
  apply (convergence_chart_series Host.runtime four_runs dashboard_page).
  repeat constructor; apply readable_sample_run.
Defined.

(** C10 as stated fails: the palette is not cycled.  With five runs the
    fifth series gets no colour at all ([colors[4]] is undefined, and its
    background is the string made from it), where a cycled palette would
    give it the first colour again. *)
Lemma palette_not_cycled_counterexample :
  cbind (convergence_datasets Host.runtime (VArr five_runs))
        (mapM (fun d => Get d "borderColor"))
  = Normal [VStr "#3b82f6"; VStr "#10b981"; VStr "#f59e0b"; VStr "#ef4444"; VUndefined]
  /\
  cbind (convergence_datasets Host.runtime (VArr five_runs))
        (mapM (fun d => Get d "backgroundColor"))
  = Normal [VStr "#3b82f633"; VStr "#10b98133"; VStr "#f59e0b33"; VStr "#ef444433";
            VStr "undefined33"].
Proof.
  split; vm_compute; reflexivity.
Qed.

(** ** [Math.max] is the maximum

    The comparisons of doubles, read through their specification over
    [spec_float], order the numbers that are not NaN. *)

Ltac compare_cases :=
  repeat match goal with
         | H : context [Z.compare ?a ?b] |- _ =>
             destruct (Z.compare_spec a b); subst
         | |- context [Z.compare ?a ?b] =>
             destruct (Z.compare_spec a b); subst
         | H : context [Pos.compare_cont Eq ?a ?b] |- _ =>
             change (Pos.compare_cont Eq a b) with (Pos.compare a b) in *;
             destruct (Pos.compare_spec a b); subst
         | |- context [Pos.compare_cont Eq ?a ?b] =>
             change (Pos.compare_cont Eq a b) with (Pos.compare a b) in *;
             destruct (Pos.compare_spec a b); subst
         end.

Lemma SFleb_refl (a : spec_float) : a <> S754_nan -> SFleb a a = true.
Proof.
  intros H. destruct a as [s|s| |s m e]; try congruence; unfold SFleb; simpl.
  - reflexivity.
  - destruct s; reflexivity.
  - destruct s; rewrite Z.compare_refl;
      change (Pos.compare_cont Eq m m) with (Pos.compare m m);
      rewrite Pos.compare_refl; reflexivity.
Qed.

Lemma SFleb_total (a b : spec_float) :
  a <> S754_nan -> b <> S754_nan -> SFltb a b = false -> SFleb b a = true.
Proof.
  intros Ha Hb.
  destruct a as [sa|sa| |sa ma ea], b as [sb|sb| |sb mb eb]; try congruence;
    unfold SFltb, SFleb; simpl;
    try destruct sa; try destruct sb; simpl; try (intros; reflexivity);
    try discriminate;
    compare_cases; simpl; intros; try reflexivity; try discriminate; lia.
Qed.

Lemma SFltb_leb (a b : spec_float) : SFltb a b = true -> SFleb a b = true.
Proof.
  unfold SFltb, SFleb. destruct (SFcompare a b) as [[]|]; intros; congruence.
Qed.

Lemma SFleb_trans (a b c : spec_float) :
  SFleb a b = true -> SFleb b c = true -> SFleb a c = true.
Proof.
  destruct a as [sa|sa| |sa ma ea], b as [sb|sb| |sb mb eb], c as [sc|sc| |sc mc ec];
    unfold SFleb; simpl;
    try destruct sa; try destruct sb; try destruct sc; simpl;
    try (intros; reflexivity); try discriminate;
    compare_cases; simpl; intros; try reflexivity; try discriminate; lia.
Qed.

Lemma SFleb_of_equal (a b c : spec_float) :
  SFeqb a c = true -> SFeqb b c = true -> SFleb a b = true.
Proof.
  destruct a as [sa|sa| |sa ma ea], b as [sb|sb| |sb mb eb], c as [sc|sc| |sc mc ec];
    unfold SFeqb, SFleb; simpl;
    try destruct sa; try destruct sb; try destruct sc; simpl;
    try (intros; reflexivity); try discriminate;
    compare_cases; simpl; intros; try reflexivity; try discriminate; lia.
Qed.

Lemma SFleb_neg_infinity (a : spec_float) :
  SFleb a (S754_infinity true) = true -> a = S754_infinity true.
Proof.
  destruct a as [sa|sa| |sa ma ea]; unfold SFleb; simpl;
    try destruct sa; simpl; intros; try reflexivity; discriminate.
Qed.

Lemma float_not_nan_spec (x : float) : is_nan x = false -> Prim2SF x <> S754_nan.
Proof.
  unfold is_nan. rewrite eqb_spec. intros H E. rewrite E in H. discriminate.
Qed.

Lemma float_leb_refl (x : float) : is_nan x = false -> leb x x = true.
Proof. intros H. rewrite leb_spec. apply SFleb_refl, float_not_nan_spec, H. Qed.

Lemma float_leb_total (h x : float) :
  is_nan h = false -> is_nan x = false -> ltb h x = false -> leb x h = true.
Proof.
  intros Hh Hx. rewrite ltb_spec, leb_spec.
  apply SFleb_total; apply float_not_nan_spec; assumption.
Qed.

Lemma float_ltb_leb (h x : float) : ltb h x = true -> leb h x = true.
Proof. rewrite ltb_spec, leb_spec. apply SFltb_leb. Qed.

Lemma float_leb_trans (a b c : float) : leb a b = true -> leb b c = true -> leb a c = true.
Proof. rewrite !leb_spec. apply SFleb_trans. Qed.

Lemma float_leb_zeros (h x : float) : is_zero x = true -> is_zero h = true -> leb h x = true.
Proof.
  unfold is_zero. rewrite !eqb_spec, leb_spec. intros Hx Hh.
  exact (SFleb_of_equal _ _ _ Hh Hx).
Qed.

Lemma Math_max_from_spec (xs : list float) (h : float) :
  is_nan h = false ->
  (forall x, In x xs -> is_nan x = false) ->
  let r := Math_max_from h xs in
  is_nan r = false /\ leb h r = true /\
  (forall x, In x xs -> leb x r = true) /\ In r (h :: xs).
Proof.
  revert h. induction xs as [|x xs IH]; intros h Hh Hxs; simpl.
  - repeat split; [assumption | apply float_leb_refl; assumption | intros ? [] | now left].
  - assert (Hx : is_nan x = false) by (apply Hxs; now left).
    assert (Hrest : forall y, In y xs -> is_nan y = false)
      by (intros; apply Hxs; now right).
    rewrite Hx.
    destruct (ltb h x) eqn:Elt.
    + destruct (IH x Hx Hrest) as [Hn [Hle [Hall Hin]]].
      repeat split; try assumption.
      * apply (float_leb_trans _ x); [apply float_ltb_leb; assumption | assumption].
      * intros y [<- | Hy]; [assumption | apply Hall; assumption].
      * right. assumption.
    + destruct (is_zero x && is_zero h && get_sign h && negb (get_sign x)) eqn:Ez.
      * destruct (IH x Hx Hrest) as [Hn [Hle [Hall Hin]]].
        apply andb_true_iff in Ez. destruct Ez as [Ez _].
        apply andb_true_iff in Ez. destruct Ez as [Ez _].
        apply andb_true_iff in Ez. destruct Ez as [Ezx Ezh].
        repeat split; try assumption.
        -- apply (float_leb_trans _ x); [apply float_leb_zeros; assumption | assumption].
        -- intros y [<- | Hy]; [assumption | apply Hall; assumption].
        -- right. assumption.
      * destruct (IH h Hh Hrest) as [Hn [Hle [Hall Hin]]].
        repeat split; try assumption.
        -- intros y [<- | Hy]; [|apply Hall; assumption].
           apply (float_leb_trans _ h); [apply float_leb_total; assumption | assumption].
        -- destruct Hin as [<- | Hin]; [now left | right; right; assumption].
Qed.

(** [Math.max] of a non-empty list without NaN is one of its elements and
    is above all of them. *)
Lemma Math_max_is_maximum (xs : list float) :
  xs <> [] ->
  (forall x, In x xs -> is_nan x = false) ->
  In (Math_max xs) xs /\ forall x, In x xs -> leb x (Math_max xs) = true.
Proof.
  intros Hne Hxs.
  destruct (Math_max_from_spec xs neg_infinity eq_refl Hxs) as [_ [_ [Hall Hin]]].
  split; [|exact Hall].
  destruct Hin as [Heq | Hin]; [|exact Hin].
  destruct xs as [|x xs]; [congruence|].
  assert (Hx : leb x (Math_max (x :: xs)) = true) by (apply Hall; now left).
  unfold Math_max in *. rewrite <- Heq in Hx. rewrite <- Heq.
  left. apply Prim2SF_inj. rewrite leb_spec in Hx.
  apply SFleb_neg_infinity in Hx. rewrite Hx. reflexivity.
Qed.

Lemma is_nan_abs (x : float) : is_nan (abs x) = is_nan x.
Proof.
  unfold is_nan. rewrite !eqb_spec, abs_spec.
  destruct (Prim2SF x) as [s|s| |s m e]; unfold SFeqb; simpl; try reflexivity.
  - destruct s; reflexivity.
  - destruct s; rewrite Z.compare_refl;
      change (Pos.compare_cont Eq m m) with (Pos.compare m m);
      rewrite Pos.compare_refl; reflexivity.
Qed.

(** ** The regression coefficients *)

Lemma abs_coefficients_read rt (cs : list Value) (entries : list (string * float)) :
  Forall2 (reads_as rt) cs entries ->
  mapM (abs_coefficient rt) cs = Normal (map abs (map snd entries)).
Proof.
  induction 1 as [|c e cs entries [_ Hc] _ IH]; [reflexivity|].
  cbn [mapM map]. unfold abs_coefficient at 1. rewrite Hc.
  cbn [cbind Math_abs ToNumber]. rewrite IH. reflexivity.
Qed.

Lemma case3_item_read rt (data : Value) (cs : list Value)
    (entries : list (string * float)) (c : Value) (e : string * float) :
  Get data "coefficients_sorted" = Normal (VArr cs) ->
  Forall2 (reads_as rt) cs entries ->
  reads_as rt c e ->
  case3_item rt data c =
  Normal (case3_item_html (fst e)
            (Number_toString rt (width_percent (map snd entries) (snd e)))
            (toFixed rt (snd e) 6)).
Proof.
  intros Hd Hall [Hf Hc].
  unfold case3_item, barWidth.
  unfold abs_coefficient at 1. rewrite Hc. simpl.
  rewrite Hd. simpl. rewrite (abs_coefficients_read rt cs entries Hall). simpl.
  unfold cbind in Hf. destruct (Get c "feature") as [f|]; [|discriminate].
  simpl. rewrite Hf. reflexivity.
Qed.

(** The markup of the coefficient list: one item per entry of
    [coefficients_sorted], in the order of the array, each with its bar
    width; and, for coefficients that are not NaN, the divisor of the widths
    is the largest magnitude of the list. *)
Lemma coefficient_list_markup rt (data : Value) (cs : list Value)
    (entries : list (string * float)) :
  Get data "coefficients_sorted" = Normal (VArr cs) ->
  Forall2 (reads_as rt) cs entries ->
  case3_coeffHTML rt data =
  Normal (case3_list_open
          ++ String.concat ""
               (map (fun e =>
                       case3_item_html (fst e)
                         (Number_toString rt (width_percent (map snd entries) (snd e)))
                         (toFixed rt (snd e) 6))
                    entries)
          ++ "</div>")
  /\
  (entries <> [] ->
   (forall e, In e entries -> is_nan (snd e) = false) ->
   In (Math_max (map abs (map snd entries))) (map abs (map snd entries)) /\
   forall e, In e entries ->
             leb (abs (snd e)) (Math_max (map abs (map snd entries))) = true).
Proof.
  intros Hd Hall. split.
  - unfold case3_coeffHTML. rewrite Hd. simpl.
    assert (Hitems : forall cs' entries',
               Forall2 (reads_as rt) cs' entries' ->
               mapM (case3_item rt data) cs' =
               Normal (map (fun e =>
                              case3_item_html (fst e)
                                (Number_toString rt
                                   (width_percent (map snd entries) (snd e)))
                                (toFixed rt (snd e) 6))
                           entries')).
    { induction 1 as [|c e cs' entries' Hce _ IH]; simpl; [reflexivity|].
      rewrite (case3_item_read rt data cs entries c e Hd Hall Hce). simpl.
      rewrite IH. reflexivity. }
    rewrite (Hitems cs entries Hall). reflexivity.
  - intros Hne Hnan.
    assert (Hmags : forall x, In x (map abs (map snd entries)) -> is_nan x = false).
    { intros x Hx. apply in_map_iff in Hx. destruct Hx as [y [<- Hy]].
      apply in_map_iff in Hy. destruct Hy as [e [<- He]].
      rewrite is_nan_abs. apply Hnan. assumption. }
    assert (Hne' : map abs (map snd entries) <> []).
    { destruct entries; [congruence | discriminate]. }
    destruct (Math_max_is_maximum _ Hne' Hmags) as [Hin Hmax].
    split; [exact Hin|].
    intros e He. apply Hmax. apply in_map, in_map. exact He.
Qed.

(** ** Rendering the same payload again *)

Lemma written_nil (p : Page) : written [] [] [] p = p.
Proof. destruct p. unfold written. simpl. now rewrite !app_nil_r. Qed.

Lemma written_written (ws1 ws2 : list Write) (al1 al2 : list string)
    (logs1 logs2 : list (list Value)) (p : Page) :
  written ws2 al2 logs2 (written ws1 al1 logs1 p)
  = written (ws1 ++ ws2) (al1 ++ al2) (logs1 ++ logs2) p.
Proof.
  unfold written, apply_writes. simpl.
  now rewrite fold_left_app, <- !app_assoc.
Qed.

Lemma map_el_id_apply_writes (ws : list Write) (els : list Element) :
  map el_id (apply_writes ws els) = map el_id els.
Proof.
  unfold apply_writes. revert els.
  induction ws as [|w ws IH]; intros els; simpl; [reflexivity|].
  rewrite IH. destruct w; simpl; apply map_el_id_update_nth; reflexivity.
Qed.

Lemma resolves_written (ids : string -> option nat) (ws : list Write)
    (al : list string) (logs : list (list Value)) (p : Page) :
  resolves ids p -> resolves ids (written ws al logs p).
Proof.
  intros H id. rewrite <- (H id).
  apply element_index_same_ids. simpl. apply map_el_id_apply_writes.
Qed.

Lemma writes_only_ret {A} (a : A) : writes_only (ret a).
Proof.
  intros ids. exists (Normal a), [], [], []. intros p _.
  now rewrite written_nil.
Qed.

Lemma writes_only_throw {A} (e : Exn) : writes_only (@throw A e).
Proof.
  intros ids. exists (Throw e), [], [], []. intros p _.
  now rewrite written_nil.
Qed.

Lemma writes_only_lift {A} (c : Completion A) : writes_only (lift c).
Proof.
  intros ids. exists c, [], [], []. intros p _.
  now rewrite written_nil.
Qed.

Lemma writes_only_getElementById (id : string) : writes_only (getElementById id).
Proof.
  intros ids. exists (Normal (ids id)), [], [], []. intros p Hp.
  unfold getElementById. now rewrite written_nil, (Hp id).
Qed.

Lemma writes_only_set_display (el : option nat) (v : string) :
  writes_only (set_display el v).
Proof.
  intros ids. destruct el as [i|].
  - exists (Normal tt), [WDisplay i v], [], []. intros p _.
    unfold set_display, set_elements, written. simpl. now rewrite !app_nil_r.
  - apply writes_only_throw.
Qed.

Lemma writes_only_set_innerHTML (el : option nat) (h : string) :
  writes_only (set_innerHTML el h).
Proof.
  intros ids. destruct el as [i|].
  - exists (Normal tt), [WHtml i h], [], []. intros p _.
    unfold set_innerHTML, set_elements, written. simpl. now rewrite !app_nil_r.
  - apply writes_only_throw.
Qed.

Lemma writes_only_alert (msg : string) : writes_only (alert msg).
Proof.
  intros ids. exists (Normal tt), [], [msg], []. intros p _.
  unfold alert, written. simpl. now rewrite app_nil_r.
Qed.

Lemma writes_only_console_log (args : list Value) : writes_only (console_log args).
Proof.
  intros ids. exists (Normal tt), [], [], [args]. intros p _.
  unfold console_log, written. simpl. now rewrite app_nil_r.
Qed.

Lemma writes_only_bind {A B} (c : JS A) (k : A -> JS B) :
  writes_only c -> (forall a, writes_only (k a)) -> writes_only (bind c k).
Proof.
  intros Hc Hk ids.
  destruct (Hc ids) as [r1 [ws1 [al1 [logs1 H1]]]].
  destruct r1 as [a|e].
  - destruct (Hk a ids) as [r2 [ws2 [al2 [logs2 H2]]]].
    exists r2, (ws1 ++ ws2)%list, (al1 ++ al2)%list, (logs1 ++ logs2)%list.
    intros p Hp. unfold bind. rewrite (H1 p Hp).
    rewrite (H2 _ (resolves_written ids ws1 al1 logs1 p Hp)).
    now rewrite written_written.
  - exists (Throw e), ws1, al1, logs1.
    intros p Hp. unfold bind. now rewrite (H1 p Hp).
Qed.

Lemma writes_only_if {A} (b : bool) (c1 c2 : JS A) :
  writes_only c1 -> writes_only c2 -> writes_only (if b then c1 else c2).
Proof. destruct b; auto. Qed.

Create HintDb writes.

#[local] Hint Resolve writes_only_ret writes_only_throw writes_only_lift
  writes_only_getElementById writes_only_set_display writes_only_set_innerHTML
  writes_only_alert writes_only_console_log writes_only_bind writes_only_if : writes.

Ltac writes_only_tac :=
  repeat first
    [ solve [auto with writes]
    | apply writes_only_bind; [|intros ?]
    | apply writes_only_if ].

Lemma plots_of_writes rt (c : JS unit) :
  writes_only c -> writes_then_plots rt c.
Proof.
  intros Hc ids. destruct (Hc ids) as [r [ws [al [logs H]]]].
  exists ws, al, logs, (inl r). exact H.
Qed.

Lemma plots_chart_call rt (call : ChartCall) :
  writes_then_plots rt (chart_call rt call).
Proof.
  intros ids. exists [], [], [], (inr call). intros p _.
  now rewrite written_nil.
Qed.

Lemma plots_bind {A} rt (c : JS A) (k : A -> JS unit) :
  writes_only c -> (forall a, writes_then_plots rt (k a)) ->
  writes_then_plots rt (bind c k).
Proof.
  intros Hc Hk ids.
  destruct (Hc ids) as [r1 [ws1 [al1 [logs1 H1]]]].
  destruct r1 as [a|e].
  - destruct (Hk a ids) as [ws2 [al2 [logs2 [tail H2]]]].
    exists (ws1 ++ ws2)%list, (al1 ++ al2)%list, (logs1 ++ logs2)%list, tail.
    intros p Hp. unfold bind. rewrite (H1 p Hp).
    rewrite (H2 _ (resolves_written ids ws1 al1 logs1 p Hp)).
    now rewrite written_written.
  - exists ws1, al1, logs1, (inl (Throw e)).
    intros p Hp. unfold bind. now rewrite (H1 p Hp).
Qed.

Ltac plots_tac :=
  repeat first
    [ match goal with
      | |- writes_then_plots ?rt (plotConvergenceCurves ?rt ?r) =>
          exact (plots_chart_call rt (ConvergenceCurves r))
      | |- writes_then_plots ?rt (plotFeatureImportance ?rt ?r) =>
          exact (plots_chart_call rt (FeatureImportance r))
      end
    | solve [apply plots_of_writes; writes_only_tac]
    | apply plots_bind; [solve [writes_only_tac]|intros ?] ].

Lemma plots_render rt (now : N) (c : Case) (payload : Value) :
  writes_then_plots rt (render rt now c payload).
Proof.
  destruct c; simpl.
  - unfold displayCase1Result. plots_tac.
  - unfold displayCase2Result. plots_tac. destruct payload; plots_tac.
  - unfold displayCase3Result. plots_tac.
  - unfold displayCase4Result. plots_tac.
  - unfold displayCase5Result. plots_tac.
  - unfold displayCase6Result. plots_tac.
Qed.

Lemma nth_error_apply_writes (ws : list Write) (els : list Element) (k : nat) :
  nth_error (apply_writes ws els) k
  = option_map (fun e => fold_left (patch k) ws e) (nth_error els k).
Proof.
  unfold apply_writes. revert els.
  induction ws as [|w ws IH]; intros els; simpl.
  - destruct (nth_error els k); reflexivity.
  - rewrite IH. destruct w; simpl; rewrite nth_error_update_nth;
      destruct (Nat.eqb k i), (nth_error els k); reflexivity.
Qed.

(** However many writes reach an element, the outcome is the element with
    its display and its markup replaced by the last values written, if any. *)
Lemma patches_shape (ws : list Write) (k : nat) :
  exists od oh, forall e,
    fold_left (patch k) ws e =
    mkElement (el_id e) (el_classes e)
              (match od with Some v => v | None => el_display e end)
              (match oh with Some h => h | None => el_innerHTML e end)
              (el_value e).
Proof.
  induction ws as [|w ws IH].
  - exists None, None. intros []. reflexivity.
  - destruct IH as [od [oh IH]].
    destruct w as [i v | i h]; simpl; destruct (Nat.eqb k i).
    + exists (Some (match od with Some v' => v' | None => v end)), oh.
      intros e. rewrite IH. destruct od; reflexivity.
    + exists od, oh. exact IH.
    + exists od, (Some (match oh with Some h' => h' | None => h end)).
      intros e. rewrite IH. destruct oh; reflexivity.
    + exists od, oh. exact IH.
Qed.

Lemma apply_writes_idempotent (ws : list Write) (els : list Element) :
  apply_writes ws (apply_writes ws els) = apply_writes ws els.
Proof.
  apply nth_error_ext. intros k.
  rewrite !nth_error_apply_writes.
  destruct (nth_error els k) as [e|]; simpl; [|reflexivity].
  destruct (patches_shape ws k) as [od [oh H]].
  rewrite !H. destruct od, oh; reflexivity.
Qed.

Lemma update_nth_twice {A} (f : A -> A) (i : nat) (l : list A) :
  (forall x, f (f x) = f x) ->
  update_nth i f (update_nth i f l) = update_nth i f l.
Proof.
  intros Hf. revert i. induction l as [|x l IH]; intros [|i]; simpl; try reflexivity.
  - now rewrite Hf.
  - now rewrite IH.
Qed.

Lemma update_nth_last {A} (f : A -> A) (l : list A) (x : A) :
  update_nth (List.length l) f (l ++ [x]) = (l ++ [f x])%list.
Proof.
  induction l as [|y l IH]; simpl; [reflexivity|]. now rewrite IH.
Qed.

Lemma display_after_failed_plot_twice (ws : list Write) (al : list string)
    (logs : list (list Value)) (p : Page) :
  display_output
    (after_failed_plot (written ws al logs (after_failed_plot (written ws al logs p))))
  = display_output (after_failed_plot (written ws al logs p)).
Proof.
  unfold display_output, after_failed_plot, written, charts_after_destroy. simpl.
  rewrite apply_writes_idempotent. f_equal.
  destruct (currentChart p) as [c|]; [|reflexivity].
  rewrite update_nth_twice by reflexivity. reflexivity.
Qed.

Lemma display_after_plot_twice (canvas : string) (config : Value) (ws : list Write)
    (al : list string) (logs : list (list Value)) (p : Page) :
  display_output
    (after_plot canvas config
       (written ws al logs (after_plot canvas config (written ws al logs p))))
  = display_output (after_plot canvas config (written ws al logs p)).
Proof.
  assert (Hidx : element_index canvas
                   (written ws al logs (after_plot canvas config (written ws al logs p)))
                 = element_index canvas (written ws al logs p)).
  { apply element_index_same_ids. simpl. now rewrite !map_el_id_apply_writes. }
  unfold display_output, after_plot at 1 3. rewrite Hidx.
  cbn [elements charts written after_plot charts_after_destroy currentChart].
  rewrite apply_writes_idempotent, update_nth_last.
  rewrite !filter_app, !map_app. cbn [filter map detach chart_attached app].
  rewrite app_nil_r. reflexivity.
Qed.

Lemma resolves_after_failed_plot (ids : string -> option nat) (p : Page) :
  resolves ids p -> resolves ids (after_failed_plot p).
Proof. intros H id. rewrite <- (H id). reflexivity. Qed.

Lemma resolves_after_plot (ids : string -> option nat) (canvas : string)
    (config : Value) (p : Page) :
  resolves ids p -> resolves ids (after_plot canvas config p).
Proof. intros H id. rewrite <- (H id). reflexivity. Qed.

(** Running twice a computation that only writes, and may end by plotting,
    completes the same way both times and leaves the same display output. *)
Lemma replay_same_display rt (c : JS unit) (p : Page) :
  writes_then_plots rt c ->
  fst (c (snd (c p))) = fst (c p) /\
  display_output (snd (c (snd (c p)))) = display_output (snd (c p)).
Proof.
  intros Hc.
  destruct (Hc (fun id => element_index id p)) as [ws [al [logs [tail H]]]].
  assert (Hp : resolves (fun id => element_index id p) p) by (intros id; reflexivity).
  pose proof (resolves_written _ ws al logs p Hp) as Hw.
  rewrite (H p Hp).
  destruct tail as [r | call].
  - simpl. rewrite (H _ Hw). simpl. split; [reflexivity|].
    unfold display_output, written. simpl.
    now rewrite apply_writes_idempotent.
  - destruct (chart_call_uniform rt call) as [[e He] | [canvas [config Hn]]].
    + rewrite He. simpl.
      pose proof (resolves_after_failed_plot _ _ Hw) as H1.
      rewrite (H _ H1), He. simpl. split; [reflexivity|].
      apply display_after_failed_plot_twice.
    + rewrite Hn. simpl.
      pose proof (resolves_after_plot _ canvas config _ Hw) as H1.
      rewrite (H _ H1), Hn. simpl. split; [reflexivity|].
      apply display_after_plot_twice.
Qed.

(** C6, as the script behaves.  For every case and every payload, rendering
    the payload a second time while [Date.now()] reads the same value gives
    the same outcome and leaves the display output (every element, and the
    attached chart with its configuration) exactly as the first rendering
    left it: nothing accumulates across renders.  Only the bridge renderer
    reads the clock; for the five other cases the time of rendering does not
    matter at all. *)
Theorem render_twice_same_output rt (now : N) (c : Case) (payload : Value) (p : Page) :
  let once := render rt now c payload p in
  let twice := render rt now c payload (snd once) in
  fst twice = fst once /\
  display_output (snd twice) = display_output (snd once) /\
  (forall later : N,
      c <> BridgeStatics -> render rt later c payload = render rt now c payload).
Proof.
  intros once twice. subst once twice.
  destruct (replay_same_display rt (render rt now c payload) p
              (plots_render rt now c payload)) as [Hfst Hsnd].
  split; [exact Hfst|]. split; [exact Hsnd|].
  intros later Hc. destruct c; try reflexivity. contradiction.
Qed.

(** C6 as stated fails for the bridge renderer: its image markup embeds
    [Date.now()], so rendering the same payload one second later changes the
    display output. *)
Lemma render_twice_counterexample :
  let first := snd (render Host.runtime 1000 BridgeStatics bridge_data dashboard_page) in
  let second := snd (render Host.runtime 2000 BridgeStatics bridge_data first) in
  html_of "case4-image" first =
    Some (case4_image_html "/static/images/bridge.png?t=1000" "static/images/bridge.png")
  /\
  html_of "case4-image" second =
    Some (case4_image_html "/static/images/bridge.png?t=2000" "static/images/bridge.png")
  /\
  display_output second <> display_output first.
Proof.
  split; [vm_compute; reflexivity|]. split; [vm_compute; reflexivity|].
  intros H. apply (f_equal (fun d => nth_error (fst d) 7)) in H.
  vm_compute in H. discriminate H.
Qed.

(** ** Responses that carry an error *)

(** The handlers of cases 1 to 3 test [data.error]: a truthy error is shown
    in a notification and nothing is rendered; apart from the notification
    the page only has its loading flag cleared. *)
Lemma error_response_is_reported rt (now : N) (a : Action) (data err : Value)
    (msg : string) (p : Page) (i : nat) :
  match a with
  | DoCase1 _ | DoCase2 | DoFindOptimalOmega | DoCase3 => True
  | _ => False
  end ->
  Get data "error" = Normal err ->
  ToBoolean err = true ->
  ToString rt err = Normal msg ->
  element_index "loading" p = Some i ->
  after_await (handler rt now a) (Parsed data) p =
  (Normal tt,
   mkPage (update_nth i (with_display "none") (elements p))
          (currentChart p) (charts p) (alerts p ++ ["错误: " ++ msg]) (console p)).
Proof.
  intros Ha Herr Htrue Hmsg Hi.
  destruct a; try contradiction; simpl;
    cbv [try_catch_finally bind await_json ret unless_error lift alert
         showLoading getElementById];
    rewrite Herr; cbv beta iota zeta; rewrite Htrue, Hmsg;
    cbn [elements currentChart charts alerts console];
    change (element_index "loading"
              (mkPage (elements p) (currentChart p) (charts p)
                      (alerts p ++ ["错误: " ++ msg]) (console p)))
      with (element_index "loading" p);
    rewrite Hi; reflexivity.
Qed.

(** C1 fails for cases 4, 5 and 6: their handlers never look at
    [data.error].  On the response [{ error: "singular matrix" }] the bridge
    and ray-tracing handlers raise no notification and render their panels
    from the missing fields; the conjugate-gradient handler shows its panel
    and its image and then reports the TypeError of the renderer, not the
    error of the backend. *)
Theorem error_response_is_rendered rt (now : N) :
  let bridge := snd (run (runCase4Simple rt now) (Parsed error_response) dashboard_page) in
  let rays := snd (run (runCase5 rt) (Parsed error_response) dashboard_page) in
  let gradient := snd (run (runCase6 rt) (Parsed error_response) dashboard_page) in
  (alerts bridge = [] /\
   display_of "case4-result" bridge = Some "block" /\
   html_of "case4-image" bridge = Some case4_no_image)
  /\
  (alerts rays = [] /\
   display_of "case5-result" rays = Some "block" /\
   html_of "case5-image" rays = Some (plain_image_html "/undefined" "光线追踪"))
  /\
  (alerts gradient =
     ["请求失败: Cannot read properties of undefined (reading 'toExponential')"] /\
   display_of "case6-result" gradient = Some "block" /\
   html_of "case6-image" gradient = Some (plain_image_html "/undefined" "共轭梯度法")).
Proof.
  cbv zeta. repeat split; vm_compute; reflexivity.
Qed.

(** ** Payloads with missing fields *)

(** C5 fails: most renderers read their fields without any guard.  On a
    response with no field at all the renderers of cases 1, 3 and 6 throw,
    on any page; and the bridge renderer, which does guard against absent
    fields, throws on a residual that is null. *)
Theorem shape_defects_abort_rendering rt (now : N) (p : Page) :
  (exists e, fst (displayCase1Result rt (VObj []) p) = Throw e) /\
  (exists e, fst (displayCase3Result rt (VObj []) p) = Throw e) /\
  (exists e, fst (displayCase6Result rt (VObj []) p) = Throw e) /\
  (exists e,
      fst (displayCase4Result rt now
             (VObj [("verification", VObj [("force_balance_error", VNull)])]) p)
      = Throw e).
Proof.
  repeat split.
  - unfold displayCase1Result, bind, getElementById, lift.
    destruct (element_index "case1-result" p); simpl; eexists; reflexivity.
  - unfold displayCase3Result, bind, getElementById, lift.
    destruct (element_index "case3-result" p); simpl; eexists; reflexivity.
  - unfold displayCase6Result, bind, getElementById, lift.
    destruct (element_index "case6-result" p); simpl;
      [destruct (element_index "case6-image" p); simpl|]; eexists; reflexivity.
  - unfold displayCase4Result, bind, getElementById, lift.
    destruct (element_index "case4-result" p); simpl;
      [destruct (element_index "case4-image" p); simpl;
       [destruct (element_index "case4-reactions" p); simpl|]|];
      eexists; reflexivity.
Qed.

(** What the bridge renderer does guard against: without a figure path the
    image area says so, without reactions the table has the single row that
    says no data, a missing position reads 0.00, and missing residuals read
    N/A. *)
Lemma bridge_placeholders rt (now : N) :
  case4_imageHTML rt now VUndefined = Normal case4_no_image /\
  (forall data sr sp,
      Get data "support_reactions" = Normal sr ->
      Get data "support_positions" = Normal sp ->
      array_or_empty sr = [] ->
      case4_reactionsHTML rt data =
      Normal ("<h3>支座反力:</h3><table class=" ++ dq ++ "data-table" ++ dq
              ++ "><thead><tr><th>支座</th><th>位置 (m)</th><th>反力 (kN)</th></tr></thead><tbody>"
              ++ case4_no_data_row ++ "</tbody></table>")) /\
  (forall i R,
      case4_row rt [] i (VNum R)
      = Normal (case4_row_html (nat_toString (i + 1)) "0.00" (toFixed rt R 4))) /\
  (forall callee, case4_residual rt callee VUndefined = Normal "N/A") /\
  (forall label callee, case4_total rt label callee VUndefined = Normal "").
Proof.
  split; [reflexivity|]. split.
  - intros data sr sp Hsr Hsp Hempty. unfold case4_reactionsHTML.
    rewrite Hsr, Hsp. simpl. rewrite Hempty. reflexivity.
  - split; [|split; [reflexivity | intros; reflexivity]].
    intros i R. unfold case4_row, Index. destruct i; reflexivity.
Qed.

(** Reading a property fails on null and undefined only, whatever its name. *)
Lemma Get_any_name (v : Value) (name other : string) (x : Value) :
  Get v name = Normal x -> exists y, Get v other = Normal y.
Proof.
  destruct v; simpl; try discriminate; intros _; try (eexists; reflexivity).
  destruct (lookup other fields); eexists; reflexivity.
Qed.

Lemma case4_rows_complete rt (positions reactions : list Value) (start : nat) :
  forallb is_number reactions = true ->
  forallb number_or_falsy positions = true ->
  exists rows, mapiM_from start (case4_row rt positions) reactions = Normal rows.
Proof.
  intros Hr Hp. revert start.
  induction reactions as [|R reactions IH]; intros start; simpl.
  - eexists. reflexivity.
  - simpl in Hr. apply andb_true_iff in Hr. destruct Hr as [HR Hrest].
    destruct (IH Hrest (S start)) as [rows Hrows].
    assert (Hrow : exists row, case4_row rt positions start R = Normal row).
    { unfold case4_row. destruct R; try discriminate.
      assert (Hpos : number_or_falsy (Index positions start) = true).
      { unfold Index. destruct (nth_in_or_default start positions VUndefined) as [Hin | ->].
        - rewrite forallb_forall in Hp. apply Hp. assumption.
        - reflexivity. }
      unfold number_or_falsy in Hpos.
      destruct (ToBoolean (Index positions start)) eqn:Eb; simpl.
      - rewrite orb_false_r in Hpos.
        destruct (Index positions start); try discriminate. simpl.
        eexists. reflexivity.
      - eexists. reflexivity. }
    destruct Hrow as [row Hrow]. rewrite Hrow. simpl. rewrite Hrows. simpl.
    eexists. reflexivity.
Qed.

Lemma case4_residual_complete rt (callee : string) (x : Value) :
  number_or_undefined x = true -> exists s, case4_residual rt callee x = Normal s.
Proof.
  destruct x; try discriminate; intros _; eexists; reflexivity.
Qed.

Lemma case4_total_complete rt (label callee : string) (x : Value) :
  number_or_undefined x = true -> exists s, case4_total rt label callee x = Normal s.
Proof.
  destruct x; try discriminate; intros _; eexists; reflexivity.
Qed.

(** The bridge renderer completes on every response whose fields are absent
    or of the expected type, on every page that has its four elements. *)
Lemma bridge_renderer_completes rt (now : N) (data : Value) (p : Page) :
  bridge_fields_guarded data ->
  element_index "case4-result" p <> None ->
  element_index "case4-image" p <> None ->
  element_index "case4-reactions" p <> None ->
  element_index "case4-verification" p <> None ->
  exists p', displayCase4Result rt now data p = (Normal tt, p').
Proof.
  intros [fp [sr [sp [v [Hfp [Hfp' [Hsr [Hsr' [Hsp [Hsp' [Hv Hv']]]]]]]]]]] H1 H2 H3 H4.
  assert (Himg : exists h, case4_imageHTML rt now fp = Normal h).
  { unfold case4_imageHTML. destruct Hfp' as [-> | [s ->]].
    - eexists. reflexivity.
    - simpl. destruct (negb (String.eqb s "")); eexists; reflexivity. }
  assert (Hrows : exists h, case4_reactionsHTML rt data = Normal h).
  { unfold case4_reactionsHTML. rewrite Hsr, Hsp. simpl.
    destruct (array_or_empty sr) as [|R rs] eqn:E.
    - eexists. reflexivity.
    - destruct (case4_rows_complete rt (array_or_empty sp) (R :: rs) 0 Hsr' Hsp')
        as [rows Hrows].
      unfold mapiM. rewrite Hrows. eexists. reflexivity. }
  assert (Hver : exists h, case4_verificationHTML rt data = Normal h).
  { unfold case4_verificationHTML. rewrite Hv. simpl.
    set (verification := if ToBoolean v then v else VObj []) in *.
    simpl in Hv'.
    assert (Hb : exists b, Get verification "is_balanced" = Normal b).
    { destruct (Get verification "force_balance_error") eqn:E; [|discriminate].
      exact (Get_any_name verification _ "is_balanced" _ E). }
    destruct Hb as [b ->]. simpl.
    destruct (Get verification "force_balance_error") as [x1|]; [|discriminate].
    apply andb_true_iff in Hv'. destruct Hv' as [Hx1 Hv'].
    destruct (Get verification "moment_balance_error") as [x2|]; [|discriminate].
    apply andb_true_iff in Hv'. destruct Hv' as [Hx2 Hv'].
    destruct (Get verification "total_reaction") as [x3|]; [|discriminate].
    apply andb_true_iff in Hv'. destruct Hv' as [Hx3 Hv'].
    destruct (Get verification "total_external") as [x4|]; [|discriminate].
    apply andb_true_iff in Hv'. destruct Hv' as [Hx4 _].
    destruct (case4_residual_complete rt "verification.force_balance_error" x1 Hx1)
      as [s1 E1].
    destruct (case4_residual_complete rt "verification.moment_balance_error" x2 Hx2)
      as [s2 E2].
    destruct (case4_total_complete rt "支座反力总和: " "verification.total_reaction" x3 Hx3)
      as [s3 E3].
    destruct (case4_total_complete rt "外力总和: " "verification.total_external" x4 Hx4)
      as [s4 E4].
    simpl. rewrite E1. simpl. rewrite E2. simpl. rewrite E3. simpl. rewrite E4. simpl.
    eexists. reflexivity. }
  destruct Himg as [h1 Himg], Hrows as [h2 Hrows], Hver as [h3 Hver].
  unfold displayCase4Result, bind, getElementById, lift.
  destruct (element_index "case4-result" p); [|congruence].
  destruct (element_index "case4-image" p); [|congruence].
  destruct (element_index "case4-reactions" p); [|congruence].
  destruct (element_index "case4-verification" p); [|congruence].
  simpl. rewrite Hfp, Himg. simpl. rewrite Hrows. simpl. rewrite Hver. simpl.
  eexists. reflexivity.
Qed.

(** ** Image references *)

(** C8 fails for cases 5 and 6: whatever the path, the [src] of their image
    is the path behind one more slash (also when it already starts with
    one), with no query token, and the markup has no [onerror] fallback. *)
Theorem plain_image_without_token rt (path : string) (rest : list (string * Value)) :
  case5_imageHTML rt (VObj (("figure_path", VStr path) :: rest))
  = Normal (plain_image_html ("/" ++ path) "光线追踪")
  /\
  case6_imageHTML rt (VObj (("figure_path", VStr path) :: rest))
  = Normal (plain_image_html ("/" ++ path) "共轭梯度法")
  /\
  html_of "case5-image" (snd (displayCase5Result rt ray_data dashboard_page))
  = Some (plain_image_html "/static/images/ray_tracing.png" "光线追踪").
Proof.
  split; [reflexivity|]. split; [reflexivity|].
  vm_compute. reflexivity.
Qed.

(** What the bridge renderer does for its image: the [src] starts with a
    slash, ends with the clock reading as query token, and the markup
    carries the inline fallback image. *)
Lemma bridge_image_reference rt (now : N) (path : string) :
  path <> "" ->
  exists imgPath,
    case4_imageHTML rt now (VStr path)
    = Normal (case4_image_html (imgPath ++ "?t=" ++ N_toString now) path) /\
    String.prefix "/" imgPath = true /\
    (imgPath = path \/ imgPath = "/" ++ path).
Proof.
  intros Hne. unfold case4_imageHTML. simpl.
  destruct (String.eqb_spec path "") as [|_]; [contradiction|]. simpl.
  destruct (String.prefix "/" path) eqn:E.
  - exists path. repeat split; auto.
  - exists ("/" ++ path). split; [reflexivity|]. split.
    + destruct path; reflexivity.
    + right. reflexivity.
Qed.

(** * Further properties of the script *)

(** ** Handlers: failures of the request *)

Lemma showLoading_page (show : bool) (p : Page) (i : nat) :
  element_index "loading" p = Some i ->
  showLoading show p = (Normal tt, with_loading (if show then "flex" else "none") i p).
Proof.
  intros Hi. unfold showLoading, bind, getElementById. rewrite Hi. reflexivity.
Qed.

Lemma element_index_notified (id : string) (msgs : list string) (p : Page) :
  element_index id (notified msgs p) = element_index id p.
Proof. reflexivity. Qed.

Lemma element_index_with_loading (id v : string) (i : nat) (p : Page) :
  element_index id (with_loading v i p) = element_index id p.
Proof.
  apply element_index_same_ids. simpl. apply map_el_id_update_nth. reflexivity.
Qed.

Lemma with_loading_twice (v w : string) (i : nat) (p : Page) :
  with_loading w i (with_loading v i p) = with_loading w i p.
Proof.
  unfold with_loading. simpl. f_equal.
  apply nth_error_ext. intros k. rewrite !nth_error_update_nth.
  destruct (Nat.eqb k i), (nth_error (elements p) k); reflexivity.
Qed.

(** X1. When the request of any handler is rejected, or its body is not
    JSON, the continuation raises exactly one notification, made of the
    failure prefix and the message of the rejection, clears the loading flag
    and changes nothing else: no panel, no chart, no console line. *)
Theorem transport_failure_only_notifies rt (now : N) (a : Action) (o : NetOutcome)
    (e : Exn) (p : Page) (i : nat) :
  o = FetchRejected e \/ o = JsonRejected e ->
  element_index "loading" p = Some i ->
  after_await (handler rt now a) o p =
  (Normal tt, with_loading "none" i (notified ["请求失败: " ++ message e] p)).
Proof.
  intros Ho Hi.
  assert (G : forall k : Value -> JS unit,
             try_catch_finally (bind (await_json o) k) alert_failure (showLoading false) p
             = (Normal tt, with_loading "none" i (notified ["请求失败: " ++ message e] p))).
  { intros k. unfold try_catch_finally, bind.
    assert (Hthrow : await_json o p = (Throw e, p))
      by (destruct Ho as [-> | ->]; reflexivity).
    rewrite Hthrow. unfold alert_failure, alert. cbv beta iota zeta.
    change (mkPage (elements p) (currentChart p) (charts p)
                   (alerts p ++ ["请求失败: " ++ message e]) (console p))
      with (notified ["请求失败: " ++ message e] p).
    rewrite (showLoading_page false _ i) by (rewrite element_index_notified; exact Hi).
    reflexivity. }
  destruct a; simpl; apply G.
Qed.

Lemma transport_failure_only_notifies_witness :
  after_await (handler Host.runtime 0 DoCase3)
              (FetchRejected (FetchError "Failed to fetch")) bare_page =
  (Normal tt,
   with_loading "none" 0 (notified ["请求失败: " ++ "Failed to fetch"] bare_page)).
Proof.
  apply (transport_failure_only_notifies Host.runtime 0 DoCase3
           (FetchRejected (FetchError "Failed to fetch"))
           (FetchError "Failed to fetch") bare_page 0).
  - left. reflexivity.
  - reflexivity.
Defined.

(** X2. For the handlers that test [data.error] (cases 1 to 3 and the
    optimal-factor search), a whole run on a response whose error field is
    truthy ends with exactly one notification made of the error prefix and
    the error, the loading flag cleared, and nothing rendered. *)
Theorem declared_error_only_notifies rt (now : N) (a : Action) (data err : Value)
    (msg : string) (p : Page) (i : nat) :
  tests_error a = true ->
  Get data "error" = Normal err ->
  ToBoolean err = true ->
  ToString rt err = Normal msg ->
  element_index "loading" p = Some i ->
  run (handler rt now a) (Parsed data) p =
  (Normal tt, with_loading "none" i (notified ["错误: " ++ msg] p)).
Proof.
  intros Ha Herr Htrue Hmsg Hi.
  assert (Hbefore : exists req,
             before_await (handler rt now a) p = (Normal req, with_loading "flex" i p)).
  { destruct a; try discriminate; simpl; unfold bind;
      rewrite (showLoading_page true p i Hi); eexists; reflexivity. }
  destruct Hbefore as [req Hbefore].
  unfold run, bind. rewrite Hbefore.
  rewrite (error_response_is_reported rt now a data err msg (with_loading "flex" i p) i).
  - f_equal. unfold with_loading, notified. simpl. f_equal.
    apply nth_error_ext. intros k. rewrite !nth_error_update_nth.
    destruct (Nat.eqb k i), (nth_error (elements p) k); reflexivity.
  - destruct a; try discriminate; exact I.
  - exact Herr.
  - exact Htrue.
  - exact Hmsg.
  - rewrite element_index_with_loading. exact Hi.
Qed.

Lemma declared_error_only_notifies_witness :
  run (handler Host.runtime 0 DoCase2) (Parsed error_response) bare_page =
  (Normal tt, with_loading "none" 0 (notified ["错误: " ++ "singular matrix"] bare_page)).
Proof.
  apply (declared_error_only_notifies Host.runtime 0 DoCase2 error_response
           (VStr "singular matrix") "singular matrix" bare_page 0); reflexivity.
Defined.

(** ** Handlers: before the request *)

(** X3. Before it issues its request a handler changes nothing on the page
    but the loading flag, which it sets, and the request it then issues is a
    POST, for each of the eight handlers. *)
Theorem request_preparation rt (now : N) (a : Action) (p p1 : Page) (req : Request) :
  before_await (handler rt now a) p = (Normal req, p1) ->
  exists i,
    element_index "loading" p = Some i /\
    p1 = with_loading "flex" i p /\
    req_method req = "POST".
Proof.
  intros H.
  destruct (element_index "loading" p) as [i|] eqn:Hi.
  - exists i. split; [reflexivity|].
    destruct a; simpl in H; unfold bind in H;
      rewrite (showLoading_page true p i Hi) in H;
      unfold getElementById, get_value, null_read, throw, ret in H;
      try (destruct (element_index _ (with_loading "flex" i p)); try discriminate);
      injection H as <- <-; split; reflexivity.
  - exfalso. destruct (showLoading_throws true p Hi) as [e He].
    destruct a; simpl in H; unfold bind in H; rewrite He in H; discriminate.
Qed.

Lemma request_preparation_witness :
  exists i,
    element_index "loading" dashboard_page = Some i /\
    with_loading "flex" 0 dashboard_page = with_loading "flex" i dashboard_page /\
    req_method (mkRequest "/api/case6/conjugate_gradient" "POST" true
                  (Some (VObj [("size", VNum 50%float)]))) = "POST".
Proof.
  apply (request_preparation Host.runtime 0 DoCase6 dashboard_page).
  vm_compute. reflexivity.
Defined.

(** X4. [runCase5] and [runCase6] read their input element after they set
    the loading flag and outside their [try]: on a page without that element
    they throw before any request is issued, and the flag stays set. *)
Theorem missing_input_leaves_flag_set rt (now : N) (a : Action) (id : string)
    (p : Page) (i : nat) :
  input_of a = Some id ->
  element_index "loading" p = Some i ->
  element_index id p = None ->
  before_await (handler rt now a) p =
    (Throw (TypeError "Cannot read properties of null (reading 'value')"),
     with_loading "flex" i p) /\
  loading_display (with_loading "flex" i p) = Some "flex".
Proof.
  intros Ha Hi Hid. split.
  - destruct a; try discriminate; injection Ha as <-; simpl; unfold bind;
      rewrite (showLoading_page true p i Hi);
      unfold getElementById; rewrite element_index_with_loading, Hid; reflexivity.
  - destruct (showLoading_runs true p i Hi) as [p' [Hrun [Hd _]]].
    rewrite (showLoading_page true p i Hi) in Hrun. injection Hrun as <-. exact Hd.
Qed.

Lemma missing_input_leaves_flag_set_witness :
  before_await (handler Host.runtime 0 DoCase5) page_without_inputs =
    (Throw (TypeError "Cannot read properties of null (reading 'value')"),
     with_loading "flex" 0 page_without_inputs) /\
  loading_display (with_loading "flex" 0 page_without_inputs) = Some "flex".
Proof.
  apply (missing_input_leaves_flag_set Host.runtime 0 DoCase5 "num-rays"
           page_without_inputs 0); reflexivity.
Defined.

(** ** Handlers: overlapping requests *)

Lemma after_await_clears_flag rt (now : N) (a : Action) (o : NetOutcome)
    (p : Page) (i : nat) :
  element_index "loading" p = Some i ->
  exists p',
    after_await (handler rt now a) o p = (Normal tt, p') /\
    loading_display p' = Some "none".
Proof.
  intros Hi.
  destruct a; simpl; apply (guarded_body_clears_flag _ p i); try assumption;
    keeps_ids_tac.
Qed.

(** X5. The loading flag is a single switch, not a count of requests: when
    a second handler has issued its request while the first one waits, the
    continuation of the first, whatever its outcome, clears the flag although
    the second request is still outstanding. *)
Theorem first_response_clears_flag rt (now : N) (a b : Action) (o : NetOutcome)
    (p p1 p2 : Page) (ra rb : Request) :
  before_await (handler rt now a) p = (Normal ra, p1) ->
  before_await (handler rt now b) p1 = (Normal rb, p2) ->
  loading_display p2 = Some "flex" /\
  exists p3,
    after_await (handler rt now a) o p2 = (Normal tt, p3) /\
    loading_display p3 = Some "none".
Proof.
  intros _ Hb.
  destruct (before_await_sets_flag rt now b p1 p2 rb Hb) as [Hflex [i Hi]].
  split; [exact Hflex|].
  exact (after_await_clears_flag rt now a o p2 i Hi).
Qed.

Lemma first_response_clears_flag_witness :
  loading_display (with_loading "flex" 0 (with_loading "flex" 0 dashboard_page))
    = Some "flex" /\
  exists p3,
    after_await (handler Host.runtime 0 DoCase1_gauss) (Parsed error_response)
                (with_loading "flex" 0 (with_loading "flex" 0 dashboard_page))
      = (Normal tt, p3) /\
    loading_display p3 = Some "none".
Proof.
  apply (first_response_clears_flag Host.runtime 0 DoCase1_gauss DoCase3
           (Parsed error_response) dashboard_page
           (with_loading "flex" 0 dashboard_page)
           (with_loading "flex" 0 (with_loading "flex" 0 dashboard_page))
           (mkRequest "/api/case1/gauss" "POST" true
                      (Some (VObj [("method", VStr "gauss")])))
           (mkRequest "/api/case3/analyze" "POST" false None));
    reflexivity.
Defined.

(** ** The optimal-factor search *)

Lemma guarded_body_normal (body : JS unit) (p p' : Page) (i : nat) :
  body p = (Normal tt, p') ->
  element_index "loading" p' = Some i ->
  try_catch_finally body alert_failure (showLoading false) p =
  (Normal tt, with_loading "none" i p').
Proof.
  intros Hb Hi. unfold try_catch_finally. rewrite Hb.
  rewrite (showLoading_page false p' i Hi). reflexivity.
Qed.

Lemma guarded_body_throw (body : JS unit) (p p' : Page) (e : Exn) (i : nat) :
  body p = (Throw e, p') ->
  element_index "loading" p' = Some i ->
  try_catch_finally body alert_failure (showLoading false) p =
  (Normal tt, with_loading "none" i (notified ["请求失败: " ++ message e] p')).
Proof.
  intros Hb Hi. unfold try_catch_finally. rewrite Hb.
  unfold alert_failure, alert.
  change (mkPage (elements p') (currentChart p') (charts p')
                 (alerts p' ++ [("请求失败: " ++ message e)%string])%list (console p'))
    with (notified ["请求失败: " ++ message e] p').
  rewrite (showLoading_page false _ i); [reflexivity|].
  rewrite element_index_notified. exact Hi.
Qed.

Lemma search_points_read (rs : list Value) :
  forallb readable_sample rs = true ->
  mapM search_point rs = Normal (map plotted_search_point rs).
Proof.
  induction rs as [|r rs IH]; intros H; [reflexivity|].
  simpl in H. apply andb_true_iff in H. destruct H as [Hr Hrest].
  cbn [mapM map]. rewrite (IH Hrest).
  assert (Hpt : search_point r = Normal (plotted_search_point r)).
  { unfold search_point, plotted_search_point, field.
    destruct r; try discriminate; simpl; try reflexivity.
    destruct (lookup "omega" fields), (lookup "iterations" fields); reflexivity. }
  rewrite Hpt. reflexivity.
Qed.

Lemma plotOptimalOmegaSearch_builds (rs points : list Value) (p : Page) :
  mapM search_point rs = Normal points ->
  plotOptimalOmegaSearch (VArr rs) p =
  (Normal tt, after_plot "case2-chart" (search_config points) p).
Proof.
  intros H. unfold plotOptimalOmegaSearch, bind, getElementById, lift, new_currentChart.
  rewrite destroy_currentChart_spec. cbn [as_array cbind]. rewrite H. reflexivity.
Qed.

Lemma plotOptimalOmegaSearch_fails (sr : Value) (e : Exn) (p : Page) :
  as_array sr "searchResults" "map" = Throw e ->
  plotOptimalOmegaSearch sr p = (Throw e, after_failed_plot p).
Proof.
  intros H. unfold plotOptimalOmegaSearch, bind, getElementById, lift.
  rewrite destroy_currentChart_spec, H. reflexivity.
Qed.

(** X6. On a response without error whose optimum formats and whose search
    results are an array without null entries, the continuation of
    [findOptimalOmega] raises one notification, the optimum with four
    decimals and the iteration count, and replaces the current chart by a
    chart on the canvas [case2-chart] with a single series that has one point
    (omega, iterations) per search result, in the order of the response; the
    loading flag is cleared. *)
Theorem optimal_search_is_plotted rt (data err : Value) (omega its : string)
    (rs : list Value) (p : Page) (i : nat) :
  Get data "error" = Normal err ->
  ToBoolean err = false ->
  cbind (Get data "optimal_omega") (fun x => call_toFixed rt x "data.optimal_omega" 4)
    = Normal omega ->
  cbind (Get data "iterations") (fun n => interpolate rt n) = Normal its ->
  Get data "search_results" = Normal (VArr rs) ->
  forallb readable_sample rs = true ->
  element_index "loading" p = Some i ->
  after_await (findOptimalOmega rt) (Parsed data) p =
    (Normal tt,
     with_loading "none" i
       (after_plot "case2-chart" (search_config (map plotted_search_point rs))
                   (notified [optimum_message omega its] p))) /\
  map point_count (datasets_of (search_config (map plotted_search_point rs))) =
    [List.length rs].
Proof.
  intros Herr Hfalse Homega Hits Hsr Hrs Hi. split.
  - unfold findOptimalOmega, after_await.
    apply guarded_body_normal.
    + cbv [bind await_json ret unless_error lift].
      rewrite Herr, Hfalse, Homega, Hits.
      unfold alert.
      change (mkPage (elements p) (currentChart p) (charts p)
                     (alerts p ++ [("最优松弛因子: ω = " ++ omega ++ "
收敛步数: " ++ its)%string])%list (console p))
        with (notified [optimum_message omega its] p).
      rewrite Hsr.
      apply plotOptimalOmegaSearch_builds, search_points_read, Hrs.
    + exact Hi.
  - unfold datasets_of, search_config, point_count. simpl.
    rewrite length_map. reflexivity.
Qed.

Lemma optimal_search_is_plotted_witness :
  after_await (findOptimalOmega Host.runtime) (Parsed search_response) bare_page =
    (Normal tt,
     with_loading "none" 0
       (after_plot "case2-chart"
          (search_config (map plotted_search_point search_list))
          (notified [optimum_message "1.2500" "18"] bare_page))) /\
  map point_count (datasets_of (search_config (map plotted_search_point search_list))) =
    [List.length search_list].
Proof.
  apply (optimal_search_is_plotted Host.runtime search_response VUndefined
           "1.2500" "18" search_list bare_page 0); vm_compute; reflexivity.
Defined.

(** X7. When the response of the search has no error but its search results
    are not an array, [findOptimalOmega] has already announced the optimum
    and destroyed the current chart when the failure is caught: the user gets
    the optimum notification, then the failure notification with the message
    of the TypeError of [searchResults.map] (for a receiver that is neither
    null nor undefined, [searchResults.map is not a function]), no new chart
    is built, and on a page that had at most the current chart attached no
    chart is attached afterwards. *)
Theorem optimal_search_without_list rt (data err sr : Value) (omega its : string)
    (e : Exn) (p : Page) (i : nat) :
  Get data "error" = Normal err ->
  ToBoolean err = false ->
  cbind (Get data "optimal_omega") (fun x => call_toFixed rt x "data.optimal_omega" 4)
    = Normal omega ->
  cbind (Get data "iterations") (fun n => interpolate rt n) = Normal its ->
  Get data "search_results" = Normal sr ->
  as_array sr "searchResults" "map" = Throw e ->
  element_index "loading" p = Some i ->
  let p' := with_loading "none" i
              (notified ["请求失败: " ++ message e]
                 (after_failed_plot (notified [optimum_message omega its] p))) in
  after_await (findOptimalOmega rt) (Parsed data) p = (Normal tt, p') /\
  List.length (charts p') = List.length (charts p) /\
  (single_chart p -> attached_charts p' = []).
Proof.
  intros Herr Hfalse Homega Hits Hsr He Hi p'. subst p'. split; [|split].
  - unfold findOptimalOmega, after_await.
    apply guarded_body_throw.
    + cbv [bind await_json ret unless_error lift].
      rewrite Herr, Hfalse, Homega, Hits.
      unfold alert.
      change (mkPage (elements p) (currentChart p) (charts p)
                     (alerts p ++ [("最优松弛因子: ω = " ++ omega ++ "
收敛步数: " ++ its)%string])%list (console p))
        with (notified [optimum_message omega its] p).
      rewrite Hsr.
      apply plotOptimalOmegaSearch_fails, He.
    + exact Hi.
  - simpl. apply (length_charts_after_destroy (notified [optimum_message omega its] p)).
  - intros [Hatt _]. unfold attached_charts. simpl.
    apply (attached_after_destroy (notified [optimum_message omega its] p)).
    exact Hatt.
Qed.

Lemma optimal_search_without_list_witness :
  attached_charts sor_page = [0] /\
  after_await (findOptimalOmega Host.runtime) (Parsed search_response_with_object)
              sor_page =
    (Normal tt,
     with_loading "none" 0
       (notified ["请求失败: searchResults.map is not a function"]
          (after_failed_plot
             (notified [optimum_message "1.2500" "18"] sor_page)))) /\
  List.length
    (charts (with_loading "none" 0
               (notified ["请求失败: searchResults.map is not a function"]
                  (after_failed_plot
                     (notified [optimum_message "1.2500" "18"] sor_page)))))
    = List.length (charts sor_page) /\
  attached_charts
    (with_loading "none" 0
       (notified ["请求失败: searchResults.map is not a function"]
          (after_failed_plot
             (notified [optimum_message "1.2500" "18"] sor_page)))) = [].
Proof.
  split; [reflexivity|].
  destruct (optimal_search_without_list Host.runtime search_response_with_object
              VUndefined (VObj []) "1.2500" "18"
              (TypeError "searchResults.map is not a function") sor_page 0
              eq_refl eq_refl eq_refl eq_refl eq_refl eq_refl eq_refl)
    as [Hrun [Hlen Hnone]].
  split; [exact Hrun|]. split; [exact Hlen|].
  apply Hnone. split; [|reflexivity].
  right. exists 0. split; reflexivity.
Defined.

(** ** The dispatcher: what it leaves alone *)

Lemma same_but_active_deactivated (e : Element) : same_but_active e (deactivated e).
Proof.
  unfold same_but_active. repeat split;
    try (unfold deactivated;
         destruct (has_class "case-content" e);
         [destruct (has_class "tab-btn" (classList_remove "active" e))
         |destruct (has_class "tab-btn" e)]; reflexivity).
  intros c Hc. apply has_class_deactivated. exact Hc.
Qed.

Lemma same_but_active_add (e e' : Element) :
  same_but_active e e' -> same_but_active e (classList_add "active" e').
Proof.
  intros [Hid [Hd [Hh [Hv Hc]]]].
  unfold same_but_active. repeat split;
    try (unfold classList_add; destruct (has_class "active" e'); simpl; assumption).
  intros c Hne. rewrite has_class_add_other by exact Hne. apply Hc. exact Hne.
Qed.

Lemma Forall2_update_nth {A} (R : A -> A -> Prop) (f : A -> A) (i : nat) (l l' : list A) :
  (forall x y, R x y -> R x (f y)) ->
  Forall2 R l l' -> Forall2 R l (update_nth i f l').
Proof.
  intros Hf H. revert i. induction H as [|x y l l' Hxy Hl IH]; intros i.
  - destruct i; constructor.
  - destruct i; simpl; constructor; auto.
Qed.

Lemma Forall2_deactivated (els : list Element) :
  Forall2 same_but_active els (map deactivated els).
Proof.
  induction els; constructor; [apply same_but_active_deactivated | assumption].
Qed.

Lemma showCase_without_event (caseId : string) (i : nat) (p : Page) :
  element_index caseId p = Some i ->
  showCase caseId None p =
  (Throw (TypeError "Cannot read properties of undefined (reading 'target')"),
   mkPage (update_nth i (classList_add "active") (map deactivated (elements p)))
          (currentChart p) (charts p) (alerts p) (console p)).
Proof.
  intros Hi.
  unfold showCase, bind, querySelectorAll_forEach, set_elements, getElementById.
  simpl. rewrite showCase_deactivates.
  rewrite (element_index_deactivated caseId p), Hi. reflexivity.
Qed.

Lemma showCase_without_panel (caseId : string) (target : option nat) (p : Page) :
  element_index caseId p = None ->
  showCase caseId target p =
  (Throw (TypeError "Cannot read properties of null (reading 'classList')"),
   mkPage (map deactivated (elements p)) (currentChart p) (charts p) (alerts p)
          (console p)).
Proof.
  intros Hnone.
  unfold showCase, bind, querySelectorAll_forEach, set_elements, getElementById.
  simpl. rewrite showCase_deactivates.
  rewrite (element_index_deactivated caseId p), Hnone. reflexivity.
Qed.

(** X8. Whatever its argument, the event target and the outcome (it may
    throw half-way), [showCase] changes nothing on the page but the class
    [active]: the charts, the notifications and the console are as before,
    no element is added or removed, and every element keeps its id, its
    display style, its markup, its value and each of its other classes. *)
Theorem showCase_changes_only_active (caseId : string) (target : option nat) (p : Page) :
  currentChart (snd (showCase caseId target p)) = currentChart p /\
  charts (snd (showCase caseId target p)) = charts p /\
  alerts (snd (showCase caseId target p)) = alerts p /\
  console (snd (showCase caseId target p)) = console p /\
  Forall2 same_but_active (elements p) (elements (snd (showCase caseId target p))).
Proof.
  destruct (element_index caseId p) as [i|] eqn:Hi.
  - destruct target as [j|].
    + rewrite (showCase_runs caseId i j p Hi). simpl. repeat split.
      apply Forall2_update_nth; [exact same_but_active_add|].
      apply Forall2_update_nth; [exact same_but_active_add|].
      apply Forall2_deactivated.
    + rewrite (showCase_without_event caseId i p Hi). simpl. repeat split.
      apply Forall2_update_nth; [exact same_but_active_add|].
      apply Forall2_deactivated.
  - rewrite (showCase_without_panel caseId target p Hi). simpl. repeat split.
    apply Forall2_deactivated.
Qed.

(** X9. Called when there is no current event (not from a click), with the
    id of a case panel, [showCase] shows that panel and only that one, leaves
    every tab inactive, and throws on reading [event.target]. *)
Theorem showCase_outside_event (caseId : string) (i : nat) (p : Page) :
  element_index caseId p = Some i ->
  class_at p i "case-content" = true ->
  class_at p i "tab-btn" = false ->
  exists p',
    showCase caseId None p =
      (Throw (TypeError "Cannot read properties of undefined (reading 'target')"), p') /\
    visible_panels p' = [i] /\
    active_tabs p' = [].
Proof.
  intros Hi Hip Hit.
  rewrite (showCase_without_event caseId i p Hi).
  eexists. split; [reflexivity|].
  pose proof (element_index_in_range caseId p i Hi) as Hi'.
  unfold class_at in *.
  split.
  - unfold visible_panels, indices_where. simpl.
    rewrite length_update_nth, length_map.
    apply filter_seq_single; [assumption|].
    intros k Hk. rewrite nth_error_update_nth, nth_error_map.
    destruct (nth_error (elements p) k) as [e|] eqn:Ek;
      [|apply nth_error_None in Ek; lia].
    simpl. unfold is_visible_panel.
    destruct (Nat.eqb_spec k i) as [Hki|Hki].
    + subst k. rewrite Ek in Hip.
      rewrite has_class_add_other, has_class_deactivated by discriminate.
      rewrite Hip, has_class_add_same. reflexivity.
    + rewrite has_class_deactivated by discriminate.
      destruct (has_class "case-content" e) eqn:Ec; [|reflexivity].
      rewrite deactivated_not_active by (left; assumption). reflexivity.
  - unfold active_tabs, indices_where. simpl.
    apply filter_none. intros k _.
    rewrite nth_error_update_nth, nth_error_map.
    destruct (nth_error (elements p) k) as [e|] eqn:Ek;
      [|destruct (Nat.eqb k i); reflexivity].
    simpl. unfold is_active_tab.
    destruct (Nat.eqb_spec k i) as [Hki|Hki].
    + subst k. rewrite Ek in Hit.
      rewrite has_class_add_other, has_class_deactivated by discriminate.
      rewrite Hit. reflexivity.
    + rewrite has_class_deactivated by discriminate.
      destruct (has_class "tab-btn" e) eqn:Ec; [|reflexivity].
      rewrite deactivated_not_active by (right; assumption). reflexivity.
Qed.

Lemma showCase_outside_event_witness :
  exists p',
    showCase "case2" None crowded_tabs_page =
      (Throw (TypeError "Cannot read properties of undefined (reading 'target')"), p') /\
    visible_panels p' = [1] /\
    active_tabs p' = [].
Proof.
  apply (showCase_outside_event "case2" 1 crowded_tabs_page); reflexivity.
Defined.

(** ** Renderers: what they leave alone *)

Section Preserved.

Variable B : Type.
Variable obs : Page -> B.

Hypothesis obs_elements :
  forall els p, obs (mkPage els (currentChart p) (charts p) (alerts p) (console p)) = obs p.
Hypothesis obs_alerts :
  forall al p, obs (mkPage (elements p) (currentChart p) (charts p) al (console p)) = obs p.
Hypothesis obs_console :
  forall co p, obs (mkPage (elements p) (currentChart p) (charts p) (alerts p) co) = obs p.

Lemma preserves_ret {A} (a : A) : preserves obs (ret a).
Proof. intros p. reflexivity. Qed.

Lemma preserves_throw {A} (e : Exn) : preserves obs (@throw A e).
Proof. intros p. reflexivity. Qed.

Lemma preserves_lift {A} (c : Completion A) : preserves obs (lift c).
Proof. intros p. reflexivity. Qed.

Lemma preserves_getElementById (id : string) : preserves obs (getElementById id).
Proof. intros p. reflexivity. Qed.

Lemma preserves_bind {A C} (c : JS A) (k : A -> JS C) :
  preserves obs c -> (forall a, preserves obs (k a)) -> preserves obs (bind c k).
Proof.
  intros Hc Hk p. unfold bind. specialize (Hc p).
  destruct (c p) as [[a|e] p1]; simpl in Hc.
  - rewrite (Hk a p1). exact Hc.
  - exact Hc.
Qed.

Lemma preserves_set_display (el : option nat) (v : string) :
  preserves obs (set_display el v).
Proof. intros p. destruct el; simpl; [apply obs_elements | reflexivity]. Qed.

Lemma preserves_set_innerHTML (el : option nat) (h : string) :
  preserves obs (set_innerHTML el h).
Proof. intros p. destruct el; simpl; [apply obs_elements | reflexivity]. Qed.

Lemma preserves_get_value (el : option nat) : preserves obs (get_value el).
Proof. intros p. destruct el; reflexivity. Qed.

Lemma preserves_alert (msg : string) : preserves obs (alert msg).
Proof. intros p. apply obs_alerts. Qed.

Lemma preserves_console_log (args : list Value) : preserves obs (console_log args).
Proof. intros p. apply obs_console. Qed.

Lemma preserves_try_catch_finally (body : JS unit) (handler : Exn -> JS unit)
    (final : JS unit) :
  preserves obs body -> (forall e, preserves obs (handler e)) -> preserves obs final ->
  preserves obs (try_catch_finally body handler final).
Proof.
  intros Hb Hh Hf p. unfold try_catch_finally. specialize (Hb p).
  destruct (body p) as [[[]|e] p1]; simpl in Hb.
  - specialize (Hf p1). destruct (final p1) as [[[]|e2] p2]; simpl in *; congruence.
  - specialize (Hh e p1). destruct (handler e p1) as [r p1']. simpl in Hh.
    specialize (Hf p1'). destruct (final p1') as [[[]|e2] p2]; simpl in *; congruence.
Qed.

End Preserved.

Create HintDb frame.

Ltac preserves_tac :=
  repeat first
    [ solve [auto with frame]
    | apply preserves_ret
    | apply preserves_throw
    | apply preserves_lift
    | apply preserves_getElementById
    | apply preserves_set_display; intros; reflexivity
    | apply preserves_set_innerHTML; intros; reflexivity
    | apply preserves_get_value
    | apply preserves_alert; intros; reflexivity
    | apply preserves_console_log; intros; reflexivity
    | match goal with
      | |- preserves _ (if ?b then _ else _) => destruct b
      | |- preserves _ (match ?v with VArr _ => _ | _ => _ end) => destruct v
      end
    | apply preserves_bind; [|intros ?] ].

Lemma chart_call_keeps_elements rt (call : ChartCall) (p : Page) :
  elements (snd (chart_call rt call p)) = elements p /\
  alerts (snd (chart_call rt call p)) = alerts p.
Proof.
  destruct (chart_call_uniform rt call) as [[e He] | [canvas [config Hn]]];
    [rewrite He | rewrite Hn]; split; reflexivity.
Qed.

Lemma plotConvergenceCurves_preserves_alerts rt (results : Value) :
  preserves alerts (plotConvergenceCurves rt results).
Proof. intros p. apply (chart_call_keeps_elements rt (ConvergenceCurves results) p). Qed.

Lemma plotFeatureImportance_preserves_alerts rt (coefficients : Value) :
  preserves alerts (plotFeatureImportance rt coefficients).
Proof. intros p. apply (chart_call_keeps_elements rt (FeatureImportance coefficients) p). Qed.

#[local] Hint Resolve plotConvergenceCurves_preserves_alerts
  plotFeatureImportance_preserves_alerts : frame.

Lemma render_preserves_alerts rt (now : N) (c : Case) (payload : Value) :
  preserves alerts (render rt now c payload).
Proof.
  destruct c; simpl;
    [ unfold displayCase1Result | unfold displayCase2Result | unfold displayCase3Result
    | unfold displayCase4Result | unfold displayCase5Result | unfold displayCase6Result ];
    preserves_tac.
Qed.

(** X10. A renderer raises no notification, whatever the payload and
    whether it completes or throws: the notifications of the dashboard all
    come from the request handlers. *)
Theorem render_raises_no_notification rt (now : N) (c : Case) (payload : Value)
    (p : Page) :
  alerts (snd (render rt now c payload p)) = alerts p.
Proof. exact (render_preserves_alerts rt now c payload p). Qed.

Lemma showLoading_preserves_charts (show : bool) :
  preserves chart_state (showLoading show).
Proof. unfold showLoading. preserves_tac. Qed.

Lemma await_json_preserves_charts (o : NetOutcome) :
  preserves chart_state (await_json o).
Proof. destruct o; simpl; preserves_tac. Qed.

Lemma alert_failure_preserves_charts (e : Exn) :
  preserves chart_state (alert_failure e).
Proof. unfold alert_failure. preserves_tac. Qed.

Lemma unless_error_preserves_charts rt (data : Value) (render : JS unit) :
  preserves chart_state render -> preserves chart_state (unless_error rt data render).
Proof. intros H. unfold unless_error. preserves_tac. Qed.

Lemma render_preserves_charts rt (now : N) (c : Case) (payload : Value) :
  draws_chart c = false -> preserves chart_state (render rt now c payload).
Proof.
  destruct c; try discriminate; intros _; simpl;
    [ unfold displayCase1Result | unfold displayCase4Result
    | unfold displayCase5Result | unfold displayCase6Result ];
    preserves_tac.
Qed.

#[local] Hint Resolve showLoading_preserves_charts await_json_preserves_charts
  alert_failure_preserves_charts : frame.

(** X11. The handlers of cases 1, 4, 5 and 6 never touch the chart: after a
    whole run, whatever the outcome of the request, the chart objects and
    [currentChart] are as before, so a chart of case 2 or 3 stays as it was
    while these cases run. *)
Theorem chartless_handlers_keep_chart rt (now : N) (a : Action) (o : NetOutcome)
    (p : Page) :
  draws_chart (case_of a) = false ->
  currentChart (snd (run (handler rt now a) o p)) = currentChart p /\
  charts (snd (run (handler rt now a) o p)) = charts p.
Proof.
  intros Ha.
  assert (H : preserves chart_state (run (handler rt now a) o)).
  { destruct a; try discriminate; unfold run; simpl;
      (apply preserves_bind;
       [ preserves_tac
       | intros _; apply preserves_try_catch_finally;
         [ apply preserves_bind; [auto with frame | intros data]
         | auto with frame
         | auto with frame ] ]).
    - apply unless_error_preserves_charts.
      exact (render_preserves_charts rt now LinearSolve data eq_refl).
    - exact (render_preserves_charts rt now BridgeStatics data eq_refl).
    - exact (render_preserves_charts rt now BridgeStatics data eq_refl).
    - exact (render_preserves_charts rt now RayTrace data eq_refl).
    - exact (render_preserves_charts rt now ConjugateGradient data eq_refl). }
  specialize (H p). unfold chart_state in H. injection H as H1 H2. split; assumption.
Qed.

Lemma chartless_handlers_keep_chart_witness :
  currentChart (snd (run (handler Host.runtime 0 DoCase5) (Parsed ray_data)
                         dashboard_with_chart)) = currentChart dashboard_with_chart /\
  charts (snd (run (handler Host.runtime 0 DoCase5) (Parsed ray_data)
                   dashboard_with_chart)) = charts dashboard_with_chart.
Proof.
  apply (chartless_handlers_keep_chart Host.runtime 0 DoCase5 (Parsed ray_data)
           dashboard_with_chart).
  reflexivity.
Defined.

(** ** Renderers: the elements they write *)

Lemma confined_pure (ids : list string) (p0 : Page) {A} (c : JS A) :
  (forall p, elements (snd (c p)) = elements p) -> confined ids p0 c.
Proof.
  intros H p Hp. rewrite H. split; [exact Hp | reflexivity].
Qed.

Lemma confined_bind (ids : list string) (p0 : Page) {A C} (c : JS A) (k : A -> JS C) :
  confined ids p0 c -> (forall a, confined ids p0 (k a)) -> confined ids p0 (bind c k).
Proof.
  intros Hc Hk p Hp. unfold bind. destruct (Hc p Hp) as [H1 H2].
  destruct (c p) as [[a|e] p1]; simpl in H1, H2.
  - destruct (Hk a p1 H1) as [H3 H4]. split; [exact H3|].
    intros k0 Hk0. rewrite (H4 k0 Hk0). apply H2. exact Hk0.
  - split; assumption.
Qed.

Lemma confined_bind_get (ids : list string) (p0 : Page) {C} (id : string)
    (k : option nat -> JS C) :
  confined ids p0 (k (element_index id p0)) ->
  confined ids p0 (bind (getElementById id) k).
Proof.
  intros Hk p Hp. unfold bind, getElementById.
  rewrite (element_index_same_ids id p0 p Hp). apply Hk. exact Hp.
Qed.

Lemma confined_update (ids : list string) (p0 : Page) (id : string)
    (f : Element -> Element) :
  (forall e, el_id (f e) = el_id e) ->
  In id ids ->
  forall i, element_index id p0 = Some i ->
  confined ids p0 (set_elements (update_nth i f)).
Proof.
  intros Hf Hin i Hi p Hp. unfold set_elements. simpl. split.
  - rewrite map_el_id_update_nth by exact Hf. exact Hp.
  - intros k Hk. rewrite nth_error_update_nth.
    destruct (Nat.eqb_spec k i) as [->|_]; [|reflexivity].
    exfalso. exact (Hk id Hin Hi).
Qed.

Lemma confined_set_display (ids : list string) (p0 : Page) (id v : string) :
  In id ids -> confined ids p0 (set_display (element_index id p0) v).
Proof.
  intros Hin. destruct (element_index id p0) as [i|] eqn:Hi; simpl.
  - apply (confined_update ids p0 id); auto.
  - apply confined_pure. reflexivity.
Qed.

Lemma confined_set_innerHTML (ids : list string) (p0 : Page) (id h : string) :
  In id ids -> confined ids p0 (set_innerHTML (element_index id p0) h).
Proof.
  intros Hin. destruct (element_index id p0) as [i|] eqn:Hi; simpl.
  - apply (confined_update ids p0 id); auto.
  - apply confined_pure. reflexivity.
Qed.

Lemma confined_chart_call rt (ids : list string) (p0 : Page) (call : ChartCall) :
  confined ids p0 (chart_call rt call).
Proof.
  apply confined_pure. intros p. apply (chart_call_keeps_elements rt call p).
Qed.

Ltac confined_tac rt :=
  repeat first
    [ match goal with
      | |- confined _ _ (plotConvergenceCurves _ ?r) =>
          exact (confined_chart_call rt _ _ (ConvergenceCurves r))
      | |- confined _ _ (plotFeatureImportance _ ?c) =>
          exact (confined_chart_call rt _ _ (FeatureImportance c))
      | |- confined _ _ (if ?b then _ else _) => destruct b
      | |- confined _ _ (match ?v with VArr _ => _ | _ => _ end) => destruct v
      | |- confined _ _ (lift _) => apply confined_pure; reflexivity
      | |- confined _ _ (ret _) => apply confined_pure; reflexivity
      | |- confined _ _ (console_log _) => apply confined_pure; reflexivity
      end
    | apply confined_bind_get
    | apply confined_set_display; simpl; tauto
    | apply confined_set_innerHTML; simpl; tauto
    | apply confined_bind; [|intros ?] ].

Lemma render_is_confined rt (now : N) (c : Case) (payload : Value) (p0 : Page) :
  confined (case_elements c) p0 (render rt now c payload).
Proof.
  destruct c; simpl;
    [ unfold displayCase1Result | unfold displayCase2Result | unfold displayCase3Result
    | unfold displayCase4Result | unfold displayCase5Result | unfold displayCase6Result ];
    confined_tac rt.
Qed.

(** X12. A renderer changes no element but the ones it looks up under its
    own case's ids: every other element of the page (the panels of the other
    cases, the inputs, the loading overlay) is exactly as before, whatever
    the payload and whether the renderer completes or throws. *)
Theorem render_changes_own_elements_only rt (now : N) (c : Case) (payload : Value)
    (p : Page) (k : nat) :
  (forall id, In id (case_elements c) -> element_index id p <> Some k) ->
  nth_error (elements (snd (render rt now c payload p))) k = nth_error (elements p) k.
Proof.
  intros Hk.
  destruct (render_is_confined rt now c payload p p eq_refl) as [_ H].
  apply H. exact Hk.
Qed.

Lemma render_changes_own_elements_only_witness :
  nth_error (elements (snd (render Host.runtime 0 RayTrace ray_data dashboard_page))) 3
  = nth_error (elements dashboard_page) 3.
Proof.
  apply (render_changes_own_elements_only Host.runtime 0 RayTrace ray_data
           dashboard_page 3).
  intros id [<-|[<-|[<-|[]]]]; vm_compute; discriminate.
Defined.

(** ** Renderers: the result panel *)

Lemma bind_getElementById {C} (id : string) (k : option nat -> JS C) (p : Page) :
  bind (getElementById id) k p = k (element_index id p) p.
Proof. reflexivity. Qed.

Lemma element_at_id (id : string) (p : Page) (i : nat) :
  element_index id p = Some i ->
  exists e, nth_error (elements p) i = Some e /\ el_id e = id.
Proof.
  unfold element_index. destruct (String.eqb id ""); [discriminate|].
  intros H. apply find_index_nth_error in H. destruct H as [e [He Hid]].
  exists e. split; [exact He|]. apply String.eqb_eq in Hid. congruence.
Qed.

Lemma distinct_ids_distinct_indices (id1 id2 : string) (p : Page) (i j : nat) :
  element_index id1 p = Some i -> element_index id2 p = Some j -> id1 <> id2 -> i <> j.
Proof.
  intros H1 H2 Hne ->.
  destruct (element_at_id id1 p j H1) as [e1 [He1 Hid1]].
  destruct (element_at_id id2 p j H2) as [e2 [He2 Hid2]].
  congruence.
Qed.

Lemma set_innerHTML_preserves_display (i : nat) (el : option nat) (h : string) :
  preserves (display_at i) (set_innerHTML el h).
Proof.
  intros p. destruct el as [j|]; [|reflexivity].
  unfold display_at. simpl. rewrite nth_error_update_nth.
  destruct (Nat.eqb i j); [|reflexivity].
  destruct (nth_error (elements p) i); reflexivity.
Qed.

Lemma chart_call_preserves_display rt (i : nat) (call : ChartCall) :
  preserves (display_at i) (chart_call rt call).
Proof.
  intros p. unfold display_at.
  destruct (chart_call_keeps_elements rt call p) as [-> _]. reflexivity.
Qed.

Lemma plotConvergenceCurves_preserves_display rt (i : nat) (results : Value) :
  preserves (display_at i) (plotConvergenceCurves rt results).
Proof. exact (chart_call_preserves_display rt i (ConvergenceCurves results)). Qed.

Lemma plotFeatureImportance_preserves_display rt (i : nat) (coefficients : Value) :
  preserves (display_at i) (plotFeatureImportance rt coefficients).
Proof. exact (chart_call_preserves_display rt i (FeatureImportance coefficients)). Qed.

#[local] Hint Resolve set_innerHTML_preserves_display
  plotConvergenceCurves_preserves_display plotFeatureImportance_preserves_display : frame.

Lemma display_of_at (id : string) (p q : Page) (i : nat) :
  element_index id p = Some i ->
  map el_id (elements q) = map el_id (elements p) ->
  display_of id q = display_at i q.
Proof.
  intros Hi Hq. unfold display_of, display_at.
  rewrite (element_index_same_ids id p q Hq), Hi. reflexivity.
Qed.

Lemma shown_first (id : string) (i : nat) (rest : JS unit) (p : Page) :
  element_index id p = Some i ->
  keeps_ids rest ->
  preserves (display_at i) rest ->
  display_of id (snd (bind (set_display (Some i) "block") (fun _ => rest) p))
  = Some "block".
Proof.
  intros Hi Hids Hrest. unfold bind. simpl.
  set (p1 := mkPage _ _ _ _ _).
  assert (H1 : map el_id (elements p1) = map el_id (elements p)).
  { apply map_el_id_update_nth. reflexivity. }
  rewrite (display_of_at id p (snd (rest p1)) i Hi) by (rewrite (Hids p1); exact H1).
  rewrite (Hrest p1). unfold display_at, p1. simpl.
  rewrite nth_error_update_nth, Nat.eqb_refl.
  destruct (element_at_id id p i Hi) as [e [-> _]]. reflexivity.
Qed.

(** X13. The first effect of every renderer is to show its result panel:
    when that panel exists, it is displayed (display block) after the
    renderer, whatever the payload, also when the renderer then throws on a
    field it cannot read or on a missing element. *)
Theorem render_shows_panel_first rt (now : N) (c : Case) (payload : Value)
    (p : Page) (i : nat) :
  element_index (result_panel c) p = Some i ->
  display_of (result_panel c) (snd (render rt now c payload p)) = Some "block".
Proof.
  intros Hi.
  destruct c; simpl in *;
    [ unfold displayCase1Result | unfold displayCase2Result | unfold displayCase3Result
    | unfold displayCase4Result | unfold displayCase5Result | unfold displayCase6Result ];
    rewrite !bind_getElementById, Hi;
    (apply shown_first; [exact Hi | keeps_ids_tac | preserves_tac]).
  destruct payload; keeps_ids_tac.
Qed.

Lemma render_shows_panel_first_witness :
  display_of (result_panel ConjugateGradient)
    (snd (render Host.runtime 0 ConjugateGradient empty_response dashboard_page))
  = Some "block".
Proof.
  apply (render_shows_panel_first Host.runtime 0 ConjugateGradient empty_response
           dashboard_page 13).
  reflexivity.
Defined.

(** ** Renderers: what stays from an earlier run *)

Lemma html_of_at (id : string) (p q : Page) (i : nat) :
  element_index id p = Some i ->
  map el_id (elements q) = map el_id (elements p) ->
  html_of id q = html_at i q.
Proof.
  intros Hi Hq. unfold html_of, html_at.
  rewrite (element_index_same_ids id p q Hq), Hi. reflexivity.
Qed.

Lemma html_of_html_at (id : string) (p : Page) (i : nat) :
  element_index id p = Some i -> html_of id p = html_at i p.
Proof. intros Hi. exact (html_of_at id p p i Hi eq_refl). Qed.

(** X14. When the response of case 1 carries no solution (the field is
    absent, null or otherwise falsy) and its steps render, the renderer
    completes, shows the panel and the new steps, and leaves the solution
    area as it was: the solution of an earlier run stays on display. *)
Theorem solution_area_keeps_earlier_solution rt (data s : Value) (h : string)
    (p : Page) (i1 i2 i3 : nat) :
  element_index "case1-result" p = Some i1 ->
  element_index "case1-steps" p = Some i2 ->
  element_index "case1-solution" p = Some i3 ->
  case1_stepsHTML rt data = Normal h ->
  Get data "solution" = Normal s ->
  ToBoolean s = false ->
  exists p',
    displayCase1Result rt data p = (Normal tt, p') /\
    display_of "case1-result" p' = Some "block" /\
    html_of "case1-steps" p' = Some h /\
    html_of "case1-solution" p' = html_of "case1-solution" p.
Proof.
  intros H1 H2 H3 Hsteps Hsol Hfalse.
  assert (N12 : i1 <> i2)
    by (apply (distinct_ids_distinct_indices _ _ p i1 i2 H1 H2); discriminate).
  assert (N13 : i1 <> i3)
    by (apply (distinct_ids_distinct_indices _ _ p i1 i3 H1 H3); discriminate).
  assert (N23 : i2 <> i3)
    by (apply (distinct_ids_distinct_indices _ _ p i2 i3 H2 H3); discriminate).
  destruct (element_at_id _ p i1 H1) as [e1 [E1 _]].
  destruct (element_at_id _ p i2 H2) as [e2 [E2 _]].
  set (p1 := mkPage (update_nth i2 (with_innerHTML h)
                       (update_nth i1 (with_display "block") (elements p)))
                    (currentChart p) (charts p) (alerts p) (console p)).
  assert (Hids : map el_id (elements p1) = map el_id (elements p)).
  { unfold p1. cbn [elements]. rewrite !map_el_id_update_nth by reflexivity.
    reflexivity. }
  exists p1. split.
  { unfold displayCase1Result. rewrite !bind_getElementById, H1, H2, H3.
    cbv [bind set_display set_innerHTML set_elements lift ret].
    rewrite Hsteps, Hsol, Hfalse. reflexivity. }
  rewrite (display_of_at "case1-result" p p1 i1 H1 Hids).
  rewrite (html_of_at "case1-steps" p p1 i2 H2 Hids).
  rewrite (html_of_at "case1-solution" p p1 i3 H3 Hids).
  rewrite (html_of_html_at "case1-solution" p i3 H3).
  unfold display_at, html_at, p1. cbn [elements].
  rewrite !nth_error_update_nth, E1, E2, !Nat.eqb_refl.
  destruct (Nat.eqb_spec i1 i2) as [|_]; [contradiction|].
  destruct (Nat.eqb_spec i3 i2) as [|_]; [congruence|].
  destruct (Nat.eqb_spec i3 i1) as [|_]; [congruence|].
  destruct (Nat.eqb i2 i1); repeat split.
Qed.

Lemma solution_area_keeps_earlier_solution_witness :
  exists p',
    displayCase1Result Host.runtime steps_only_response page_with_solution
      = (Normal tt, p') /\
    display_of "case1-result" p' = Some "block" /\
    html_of "case1-steps" p' = Some "<h3>求解步骤:</h3>" /\
    html_of "case1-solution" p' = html_of "case1-solution" page_with_solution.
Proof.
  apply (solution_area_keeps_earlier_solution Host.runtime steps_only_response
           VUndefined "<h3>求解步骤:</h3>" page_with_solution 3 4 5); reflexivity.
Defined.

(** X15. When the response of case 2 has no error and its [results] field
    is not an array (absent, for instance), [runCase2] notifies nobody: it
    shows the panel, writes the format-error paragraph into the summary,
    builds no chart (the chart of an earlier run stays), clears the loading
    flag and completes. *)
Theorem sor_response_without_results rt (data err results : Value) (p : Page)
    (i i1 i2 : nat) :
  Get data "error" = Normal err ->
  ToBoolean err = false ->
  Get data "results" = Normal results ->
  (forall items, results <> VArr items) ->
  element_index "loading" p = Some i ->
  element_index "case2-result" p = Some i1 ->
  element_index "case2-summary" p = Some i2 ->
  exists p',
    after_await (runCase2 rt) (Parsed data) p = (Normal tt, p') /\
    alerts p' = alerts p /\
    chart_state p' = chart_state p /\
    display_of "case2-result" p' = Some "block" /\
    html_of "case2-summary" p' =
      Some ("<p style=" ++ dq ++ "color:red;" ++ dq ++ ">数据格式错误</p>") /\
    loading_display p' = Some "none".
Proof.
  intros Herr Hfalse Hres Hnot Hi H1 H2.
  assert (N1 : i <> i1)
    by (apply (distinct_ids_distinct_indices _ _ p i i1 Hi H1); discriminate).
  assert (N2 : i <> i2)
    by (apply (distinct_ids_distinct_indices _ _ p i i2 Hi H2); discriminate).
  assert (N12 : i1 <> i2)
    by (apply (distinct_ids_distinct_indices _ _ p i1 i2 H1 H2); discriminate).
  destruct (element_at_id _ p i Hi) as [e0 [E0 _]].
  destruct (element_at_id _ p i1 H1) as [e1 [E1 _]].
  destruct (element_at_id _ p i2 H2) as [e2 [E2 _]].
  set (msg := "<p style=" ++ dq ++ "color:red;" ++ dq ++ ">数据格式错误</p>").
  set (p1 := mkPage (update_nth i2 (with_innerHTML msg)
                       (update_nth i1 (with_display "block") (elements p)))
                    (currentChart p) (charts p) (alerts p) (console p)).
  assert (Hids : map el_id (elements p1) = map el_id (elements p)).
  { unfold p1. cbn [elements]. rewrite !map_el_id_update_nth by reflexivity.
    reflexivity. }
  assert (Hbody : bind (await_json (Parsed data))
                    (fun data => unless_error rt data
                       (bind (lift (Get data "results"))
                             (fun results => displayCase2Result rt results))) p
                  = (Normal tt, p1)).
  { cbv [bind await_json ret unless_error lift]. rewrite Herr, Hfalse, Hres.
    unfold displayCase2Result. rewrite !bind_getElementById, H1, H2.
    cbv [bind set_display set_elements].
    destruct results; try reflexivity. exfalso. exact (Hnot _ eq_refl). }
  exists (with_loading "none" i p1). split; [|split; [|split; [|split; [|split]]]].
  - unfold runCase2, after_await. apply guarded_body_normal; [exact Hbody|].
    rewrite (element_index_same_ids "loading" p p1 Hids). exact Hi.
  - reflexivity.
  - reflexivity.
  - assert (Hids' : map el_id (elements (with_loading "none" i p1))
                    = map el_id (elements p)).
    { unfold with_loading. cbn [elements].
      rewrite map_el_id_update_nth by reflexivity. exact Hids. }
    rewrite (display_of_at "case2-result" p _ i1 H1 Hids').
    unfold display_at, with_loading, p1. cbn [elements].
    rewrite !nth_error_update_nth, E1, Nat.eqb_refl.
    destruct (Nat.eqb_spec i1 i) as [|_]; [congruence|].
    destruct (Nat.eqb_spec i1 i2) as [|_]; [contradiction|].
    reflexivity.
  - assert (Hids' : map el_id (elements (with_loading "none" i p1))
                    = map el_id (elements p)).
    { unfold with_loading. cbn [elements].
      rewrite map_el_id_update_nth by reflexivity. exact Hids. }
    rewrite (html_of_at "case2-summary" p _ i2 H2 Hids').
    unfold html_at, with_loading, p1. cbn [elements].
    rewrite !nth_error_update_nth, E2, Nat.eqb_refl.
    destruct (Nat.eqb_spec i2 i) as [|_]; [congruence|].
    destruct (Nat.eqb i2 i1); reflexivity.
  - unfold loading_display.
    assert (Hids' : map el_id (elements (with_loading "none" i p1))
                    = map el_id (elements p)).
    { unfold with_loading. cbn [elements].
      rewrite map_el_id_update_nth by reflexivity. exact Hids. }
    rewrite (element_index_same_ids "loading" p _ Hids'), Hi.
    unfold with_loading, p1. cbn [elements].
    rewrite !nth_error_update_nth, E0, Nat.eqb_refl.
    destruct (Nat.eqb_spec i i2) as [|_]; [contradiction|].
    destruct (Nat.eqb_spec i i1) as [|_]; [contradiction|].
    reflexivity.
Qed.

Lemma sor_response_without_results_witness :
  exists p',
    after_await (runCase2 Host.runtime) (Parsed empty_response) sor_page
      = (Normal tt, p') /\
    alerts p' = alerts sor_page /\
    chart_state p' = chart_state sor_page /\
    display_of "case2-result" p' = Some "block" /\
    html_of "case2-summary" p' =
      Some ("<p style=" ++ dq ++ "color:red;" ++ dq ++ ">数据格式错误</p>") /\
    loading_display p' = Some "none".
Proof.
  apply (sor_response_without_results Host.runtime empty_response VUndefined VUndefined
           sor_page 0 1 2); try reflexivity.
  intros items H. discriminate H.
Defined.

(** ** The feature chart *)

Lemma feature_labels_read rt (cs : list Value) (entries : list (string * float)) :
  Forall2 (reads_as rt) cs entries ->
  mapM (fun c => Get c "feature") cs = Normal (map (fun c => field c "feature") cs).
Proof.
  induction 1 as [|c e cs entries [Hf _] _ IH]; [reflexivity|].
  cbn [mapM map]. rewrite IH. unfold field.
  unfold cbind in Hf. destruct (Get c "feature"); [reflexivity | discriminate].
Qed.

(** X16. For coefficients with a printable feature and a numeric
    coefficient, [plotFeatureImportance] replaces the current chart by a bar
    chart on the canvas [case3-chart] with one bar per coefficient, in the
    order of the array: the labels are the features and the bar values the
    absolute values of the coefficients. *)
Theorem feature_chart_bars rt (cs : list Value) (entries : list (string * float))
    (p : Page) :
  Forall2 (reads_as rt) cs entries ->
  plotFeatureImportance rt (VArr cs) p =
    (Normal tt,
     after_plot "case3-chart"
       (feature_config (map (fun c => field c "feature") cs)
                       (map (fun e => VNum (abs (snd e))) entries)) p) /\
  map point_count
      (datasets_of (feature_config (map (fun c => field c "feature") cs)
                                   (map (fun e => VNum (abs (snd e))) entries)))
    = [List.length cs].
Proof.
  intros H. split.
  - unfold plotFeatureImportance, bind, getElementById, lift, new_currentChart.
    rewrite destroy_currentChart_spec. cbn [as_array cbind].
    rewrite (feature_labels_read rt cs entries H).
    rewrite (abs_coefficients_read rt cs entries H).
    rewrite !map_map. reflexivity.
  - unfold datasets_of, feature_config, point_count. simpl.
    rewrite length_map, (Forall2_length H). reflexivity.
Qed.

Lemma feature_chart_bars_witness :
  plotFeatureImportance Host.runtime
    (VArr [coefficient_entry "age" 0.5%float; coefficient_entry "income" (-2)%float])
    bare_page =
    (Normal tt,
     after_plot "case3-chart"
       (feature_config
          (map (fun c => field c "feature")
               [coefficient_entry "age" 0.5%float; coefficient_entry "income" (-2)%float])
          (map (fun e => VNum (abs (snd e)))
               [("age", 0.5%float); ("income", (-2)%float)])) bare_page) /\
  map point_count
      (datasets_of
         (feature_config
            (map (fun c => field c "feature")
                 [coefficient_entry "age" 0.5%float;
                  coefficient_entry "income" (-2)%float])
            (map (fun e => VNum (abs (snd e)))
                 [("age", 0.5%float); ("income", (-2)%float)])))
    = [List.length [coefficient_entry "age" 0.5%float;
                    coefficient_entry "income" (-2)%float]].
Proof.
  apply (feature_chart_bars Host.runtime
           [coefficient_entry "age" 0.5%float; coefficient_entry "income" (-2)%float]
           [("age", 0.5%float); ("income", (-2)%float)] bare_page).
  repeat constructor.
Defined.

(** ** The bridge handlers *)

(** X17. The two bridge handlers never raise a notification for a response
    whose fields are absent or of their expected types (the empty object and
    an error object included) when the four bridge elements exist: the
    renderer completes, and the continuation ends on the rendered page with
    the loading flag cleared and the notifications as before. *)
Theorem bridge_handlers_never_notify rt (now : N) (a : Action) (data : Value)
    (p : Page) (i : nat) :
  case_of a = BridgeStatics ->
  bridge_fields_guarded data ->
  element_index "loading" p = Some i ->
  element_index "case4-result" p <> None ->
  element_index "case4-image" p <> None ->
  element_index "case4-reactions" p <> None ->
  element_index "case4-verification" p <> None ->
  exists p1,
    displayCase4Result rt now data p = (Normal tt, p1) /\
    after_await (handler rt now a) (Parsed data) p = (Normal tt, with_loading "none" i p1) /\
    alerts (with_loading "none" i p1) = alerts p.
Proof.
  intros Ha Hdata Hi H1 H2 H3 H4.
  destruct (bridge_renderer_completes rt now data p Hdata H1 H2 H3 H4) as [p1 Hp1].
  exists p1. split; [exact Hp1|].
  assert (Hids : map el_id (elements p1) = map el_id (elements p)).
  { pose proof (keeps_ids_displayCase4Result rt now data p) as H.
    rewrite Hp1 in H. exact H. }
  split.
  - destruct a; try discriminate; simpl;
      (apply guarded_body_normal;
       [ cbv [bind await_json ret]; exact Hp1
       | rewrite (element_index_same_ids "loading" p p1 Hids); exact Hi ]).
  - pose proof (render_preserves_alerts rt now BridgeStatics data p) as H.
    simpl in H. rewrite Hp1 in H. exact H.
Qed.

Lemma bridge_handlers_never_notify_witness :
  exists p1,
    displayCase4Result Host.runtime 0 error_response dashboard_page = (Normal tt, p1) /\
    after_await (handler Host.runtime 0 DoCase4Simple) (Parsed error_response)
                dashboard_page = (Normal tt, with_loading "none" 0 p1) /\
    alerts (with_loading "none" 0 p1) = alerts dashboard_page.
Proof.
  apply (bridge_handlers_never_notify Host.runtime 0 DoCase4Simple error_response
           dashboard_page 0); try reflexivity; try discriminate.
  exists VUndefined, VUndefined, VUndefined, VUndefined.
  repeat split; auto.
Defined.

(** ** The dispatcher: calling it again *)

Lemma filter_twice {A} (f : A -> bool) (l : list A) :
  filter f (filter f l) = filter f l.
Proof.
  induction l as [|x l IH]; [reflexivity|].
  cbn [filter]. destruct (f x) eqn:E; [|exact IH].
  cbn [filter]. rewrite E. f_equal. exact IH.
Qed.

Lemma classList_remove_twice (c : string) (e : Element) :
  classList_remove c (classList_remove c e) = classList_remove c e.
Proof.
  unfold classList_remove, with_classes.
  cbn [el_id el_classes el_display el_innerHTML el_value].
  f_equal. apply filter_twice.
Qed.

Lemma deactivated_spec (e : Element) :
  deactivated e =
  if has_class "case-content" e || has_class "tab-btn" e
  then classList_remove "active" e else e.
Proof.
  unfold deactivated. destruct (has_class "case-content" e); simpl.
  - rewrite has_class_remove_other by discriminate.
    destruct (has_class "tab-btn" e); [apply classList_remove_twice | reflexivity].
  - reflexivity.
Qed.

Lemma deactivated_twice (e : Element) : deactivated (deactivated e) = deactivated e.
Proof.
  rewrite (deactivated_spec (deactivated e)), !has_class_deactivated by discriminate.
  rewrite (deactivated_spec e).
  destruct (has_class "case-content" e || has_class "tab-btn" e);
    [apply classList_remove_twice | reflexivity].
Qed.

Lemma classList_add_twice (c : string) (e : Element) :
  classList_add c (classList_add c e) = classList_add c e.
Proof.
  unfold classList_add at 1. now rewrite has_class_add_same.
Qed.

Lemma remove_after_add (e : Element) :
  classList_remove "active" (classList_add "active" (classList_remove "active" e))
  = classList_remove "active" e.
Proof.
  unfold classList_add. rewrite has_class_remove_same.
  unfold classList_remove, with_classes.
  cbn [el_id el_classes el_display el_innerHTML el_value].
  f_equal. rewrite filter_app. cbn [filter]. rewrite String.eqb_refl.
  cbn [negb]. rewrite app_nil_r. apply filter_twice.
Qed.

Lemma activate_again (e : Element) :
  classList_add "active" (deactivated (classList_add "active" (deactivated e)))
  = classList_add "active" (deactivated e).
Proof.
  rewrite (deactivated_spec (classList_add "active" (deactivated e))).
  rewrite !has_class_add_other, !has_class_deactivated by discriminate.
  rewrite (deactivated_spec e).
  destruct (has_class "case-content" e || has_class "tab-btn" e).
  - now rewrite remove_after_add.
  - apply classList_add_twice.
Qed.

Lemma rewritten_twice {A} (g : A -> A) (h : nat -> A -> A)
    (shape : list A -> list A) (l : list A) :
  (forall k x, h k (h k x) = h k x) ->
  (forall l0 k, nth_error (shape (map g l0)) k = option_map (h k) (nth_error l0 k)) ->
  shape (map g (shape (map g l))) = shape (map g l).
Proof.
  intros Hh Hshape. apply nth_error_ext. intros k.
  rewrite !Hshape. destruct (nth_error l k) as [x|]; simpl; [|reflexivity].
  f_equal. apply Hh.
Qed.

(** X18. Calling [showCase] again with the same argument and the same event
    target changes nothing more: the second call ends as the first one did
    (returning, or throwing the same error) and leaves the page exactly as
    the first call left it. *)
Theorem showCase_again_changes_nothing (caseId : string) (target : option nat)
    (p : Page) :
  showCase caseId target (snd (showCase caseId target p)) = showCase caseId target p.
Proof.
  destruct (element_index caseId p) as [i|] eqn:Hi.
  - destruct target as [j|].
    + rewrite (showCase_runs caseId i j p Hi). cbn [snd].
      rewrite (showCase_runs caseId i j).
      * cbn [elements currentChart charts alerts console]. do 2 f_equal.
        apply (rewritten_twice deactivated
                 (fun k e =>
                    let e1 := deactivated e in
                    let e2 := if Nat.eqb k i then classList_add "active" e1 else e1 in
                    if Nat.eqb k j then classList_add "active" e2 else e2)
                 (fun l => update_nth j (classList_add "active")
                             (update_nth i (classList_add "active") l))).
        -- intros k x. cbv zeta. destruct (Nat.eqb k i), (Nat.eqb k j);
             rewrite ?classList_add_twice;
             first [apply activate_again | apply deactivated_twice].
        -- intros l0 k. apply showCase_elements_nth.
      * rewrite <- Hi. apply element_index_same_ids. cbn [elements].
        rewrite !map_el_id_update_nth, map_map.
        -- apply map_ext. intros e. apply el_id_deactivated.
        -- intros e. unfold classList_add. destruct (has_class "active" e); reflexivity.
        -- intros e. unfold classList_add. destruct (has_class "active" e); reflexivity.
    + rewrite (showCase_without_event caseId i p Hi). cbn [snd].
      rewrite (showCase_without_event caseId i).
      * cbn [elements currentChart charts alerts console]. do 2 f_equal.
        apply (rewritten_twice deactivated
                 (fun k e => if Nat.eqb k i then classList_add "active" (deactivated e)
                             else deactivated e)
                 (fun l => update_nth i (classList_add "active") l)).
        -- intros k x. destruct (Nat.eqb k i);
             first [apply activate_again | apply deactivated_twice].
        -- intros l0 k. rewrite nth_error_update_nth, nth_error_map.
           destruct (nth_error l0 k), (Nat.eqb k i); reflexivity.
      * rewrite <- Hi. apply element_index_same_ids. cbn [elements].
        rewrite !map_el_id_update_nth, map_map.
        -- apply map_ext. intros e. apply el_id_deactivated.
        -- intros e. unfold classList_add. destruct (has_class "active" e); reflexivity.
  - rewrite (showCase_without_panel caseId target p Hi). cbn [snd].
    rewrite (showCase_without_panel caseId target).
    + cbn [elements currentChart charts alerts console]. do 2 f_equal.
      rewrite map_map. apply map_ext. intros e. apply deactivated_twice.
    + rewrite element_index_deactivated. exact Hi.
Qed.

(** ** Handlers: from the response to the renderer *)

Lemma keeps_ids_render rt (now : N) (c : Case) (payload : Value) :
  keeps_ids (render rt now c payload).
Proof. destruct c; simpl; auto with ids. Qed.

(** X19. For each of the seven handlers that render, on a parsed response
    that passes the error test (where the handler has one), the continuation
    is the renderer of its case between the [try] and the [finally]: it
    completes on the page the renderer left (partial rendering included),
    with one failure notification carrying the renderer's error message when
    the renderer threw and none otherwise, and with the loading flag
    cleared. *)
Theorem handler_runs_renderer rt (now : N) (a : Action) (data payload : Value)
    (p : Page) (i : nat) :
  renders a = true ->
  (tests_error a = true ->
   exists err, Get data "error" = Normal err /\ ToBoolean err = false) ->
  payload_of a data = Normal payload ->
  element_index "loading" p = Some i ->
  after_await (handler rt now a) (Parsed data) p =
  (Normal tt,
   with_loading "none" i (after_render (render rt now (case_of a) payload p))).
Proof.
  intros Ha Herr Hpayload Hi.
  pose proof (keeps_ids_render rt now (case_of a) payload p) as Hids.
  assert (G : forall body : JS unit,
             body p = render rt now (case_of a) payload p ->
             try_catch_finally body alert_failure (showLoading false) p =
             (Normal tt,
              with_loading "none" i (after_render (render rt now (case_of a) payload p)))).
  { intros body Hb.
    destruct (render rt now (case_of a) payload p) as [[[]|e] p1] eqn:Hr;
      simpl in Hids; simpl.
    - apply guarded_body_normal; [exact Hb|].
      rewrite (element_index_same_ids "loading" p p1 Hids). exact Hi.
    - apply guarded_body_throw; [exact Hb|].
      rewrite (element_index_same_ids "loading" p p1 Hids). exact Hi. }
  destruct a; try discriminate; simpl in Hpayload; simpl;
    try (destruct (Herr eq_refl) as [err [He Hfalse]]);
    apply G; cbv [bind await_json ret unless_error lift];
    rewrite ?He, ?Hfalse, ?Hpayload;
    try (injection Hpayload as <-); reflexivity.
Qed.

Lemma handler_runs_renderer_witness :
  after_await (handler Host.runtime 0 DoCase1_gauss) (Parsed steps_count_response)
              dashboard_page =
    (Normal tt,
     with_loading "none" 0
       (after_render (render Host.runtime 0 (case_of DoCase1_gauss)
                             steps_count_response dashboard_page))) /\
  alerts (after_render (render Host.runtime 0 (case_of DoCase1_gauss)
                               steps_count_response dashboard_page))
    = ["请求失败: data.steps.forEach is not a function"] /\
  display_of "case1-result"
    (after_render (render Host.runtime 0 (case_of DoCase1_gauss)
                          steps_count_response dashboard_page)) = Some "block".
Proof.
  split; [|split; reflexivity].
  apply (handler_runs_renderer Host.runtime 0 DoCase1_gauss steps_count_response
           steps_count_response dashboard_page 0); try reflexivity.
  intros _. exists VUndefined. split; reflexivity.
Defined.

(** ** Handlers: how many notifications *)

Lemma notifies_preserved {A} (c : JS A) :
  preserves alerts c -> notifies_once_or_throws c.
Proof.
  intros H p. specialize (H p). destruct (c p) as [[a|e] p1]; simpl in H.
  - exists []. rewrite app_nil_r. split; [exact H | simpl; lia].
  - exact H.
Qed.

Lemma notifies_alert (msg : string) : notifies_once_or_throws (alert msg).
Proof. intros p. simpl. exists [msg]. split; [reflexivity | simpl; lia]. Qed.

Lemma notifies_bind_quiet {A C} (c : JS A) (k : A -> JS C) :
  preserves alerts c ->
  (forall a, notifies_once_or_throws (k a)) ->
  notifies_once_or_throws (bind c k).
Proof.
  intros Hc Hk p. unfold bind. specialize (Hc p).
  destruct (c p) as [[a|e] p1]; simpl in Hc.
  - specialize (Hk a p1). destruct (k a p1) as [[b|e] p2]; rewrite <- Hc; exact Hk.
  - exact Hc.
Qed.

Lemma notifies_unless_error rt (data : Value) (render : JS unit) :
  preserves alerts render -> notifies_once_or_throws (unless_error rt data render).
Proof.
  intros H. unfold unless_error.
  apply notifies_bind_quiet; [preserves_tac | intros err].
  destruct (ToBoolean err).
  - apply notifies_bind_quiet; [preserves_tac | intros msg]. apply notifies_alert.
  - apply notifies_preserved. exact H.
Qed.

Lemma showLoading_preserves_alerts (show : bool) : preserves alerts (showLoading show).
Proof. unfold showLoading. preserves_tac. Qed.

Lemma await_json_preserves_alerts (o : NetOutcome) : preserves alerts (await_json o).
Proof. destruct o; simpl; preserves_tac. Qed.

#[local] Hint Resolve showLoading_preserves_alerts await_json_preserves_alerts : frame.

Lemma guarded_notifies_once (body : JS unit) :
  notifies_once_or_throws body ->
  notifies_at_most 1 (try_catch_finally body alert_failure (showLoading false)).
Proof.
  intros Hb p. unfold try_catch_finally. specialize (Hb p).
  destruct (body p) as [[[]|e] p1].
  - destruct Hb as [l [Hl Hn]]. exists l.
    pose proof (showLoading_preserves_alerts false p1) as Hf.
    destruct (showLoading false p1) as [[[]|e2] p2]; simpl in *;
      (split; [congruence | exact Hn]).
  - exists ["请求失败: " ++ message e]%string.
    unfold alert_failure, alert. cbv beta iota zeta.
    set (p1' := mkPage _ _ _ _ _).
    pose proof (showLoading_preserves_alerts false p1') as Hf.
    destruct (showLoading false p1') as [[[]|e2] p2]; simpl in *;
      (split; [rewrite Hf, Hb; reflexivity | lia]).
Qed.

Lemma notifies_at_most_bind_quiet (n : nat) {A C} (c : JS A) (k : A -> JS C) :
  preserves alerts c ->
  (forall a, notifies_at_most n (k a)) ->
  notifies_at_most n (bind c k).
Proof.
  intros Hc Hk p. unfold bind. specialize (Hc p).
  destruct (c p) as [[a|e] p1]; simpl in Hc.
  - destruct (Hk a p1) as [l [Hl Hn]]. exists l. rewrite <- Hc. split; assumption.
  - exists []. rewrite app_nil_r. split; [exact Hc | simpl; lia].
Qed.

Lemma notifies_at_most_then_quiet (n : nat) {A} (c : JS unit) (k : JS A) :
  notifies_at_most n c -> preserves alerts k ->
  notifies_at_most n (bind c (fun _ => k)).
Proof.
  intros Hc Hk p. unfold bind. destruct (Hc p) as [l [Hl Hn]].
  destruct (c p) as [[[]|e] p1]; simpl in Hl; exists l.
  - rewrite (Hk p1). split; assumption.
  - split; assumption.
Qed.

Lemma guarded_notifies_twice (body : JS unit) :
  notifies_at_most 1 body ->
  notifies_at_most 2 (try_catch_finally body alert_failure (showLoading false)).
Proof.
  intros Hb p. unfold try_catch_finally. destruct (Hb p) as [l [Hl Hn]].
  destruct (body p) as [[[]|e] p1]; simpl in Hl.
  - exists l.
    pose proof (showLoading_preserves_alerts false p1) as Hf.
    destruct (showLoading false p1) as [[[]|e2] p2]; simpl in *;
      (split; [congruence | lia]).
  - exists (l ++ ["请求失败: " ++ message e]%string)%list.
    unfold alert_failure, alert. cbv beta iota zeta.
    set (p1' := mkPage _ _ _ _ _).
    pose proof (showLoading_preserves_alerts false p1') as Hf.
    destruct (showLoading false p1') as [[[]|e2] p2]; simpl in *;
      (split; [rewrite Hf, Hl, app_assoc; reflexivity
              | rewrite length_app; simpl; lia]).
Qed.

Lemma before_await_preserves_alerts rt (now : N) (a : Action) :
  preserves alerts (before_await (handler rt now a)).
Proof. destruct a; simpl; preserves_tac. Qed.

(** X20. One run of a case handler, whatever the outcome of its request,
    raises at most one notification (the declared error or the failure, never
    both); one run of [findOptimalOmega] raises at most two (the optimum,
    then a failure of the chart).  Earlier notifications are kept. *)
Theorem notifications_per_run rt (now : N) (a : Action) (o : NetOutcome) (p : Page) :
  exists l,
    alerts (snd (run (handler rt now a) o p)) = (alerts p ++ l)%list /\
    List.length l <= notifications_bound a.
Proof.
  assert (H : notifies_at_most (notifications_bound a) (run (handler rt now a) o)).
  { unfold run. apply notifies_at_most_bind_quiet;
      [apply before_await_preserves_alerts | intros _].
    destruct a; simpl;
      try (apply guarded_notifies_once;
           apply notifies_bind_quiet; [auto with frame | intros data]).
    - apply notifies_unless_error. exact (render_preserves_alerts rt now LinearSolve data).
    - apply notifies_unless_error.
      apply preserves_bind; [apply preserves_lift | intros results].
      exact (render_preserves_alerts rt now SORIterate results).
    - apply guarded_notifies_twice.
      apply notifies_at_most_bind_quiet; [auto with frame | intros data].
      unfold unless_error.
      apply notifies_at_most_bind_quiet; [apply preserves_lift | intros err].
      destruct (ToBoolean err).
      + apply notifies_at_most_bind_quiet; [apply preserves_lift | intros msg].
        intros q. exists [("错误: " ++ msg)%string]. split; [reflexivity | simpl; lia].
      + apply notifies_at_most_bind_quiet; [apply preserves_lift | intros omega].
        apply notifies_at_most_bind_quiet; [apply preserves_lift | intros its].
        apply notifies_at_most_then_quiet.
        * intros q. eexists [_]. split; [reflexivity | simpl; lia].
        * apply preserves_bind; [apply preserves_lift | intros sr].
          intros q. apply (chart_call_keeps_elements rt (OptimalOmegaSearch sr) q).
    - apply notifies_unless_error. exact (render_preserves_alerts rt now Regression data).
    - apply notifies_preserved. exact (render_preserves_alerts rt now BridgeStatics data).
    - apply notifies_preserved. exact (render_preserves_alerts rt now BridgeStatics data).
    - apply notifies_preserved. exact (render_preserves_alerts rt now RayTrace data).
    - apply notifies_preserved.
      exact (render_preserves_alerts rt now ConjugateGradient data). }
  exact (H p).
Qed.

(** * The loading flag around a request *)

Lemma loading_display_with_loading (v : string) (i : nat) (p : Page) :
  element_index "loading" p = Some i ->
  loading_display (with_loading v i p) = Some v.
Proof.
  intros Hi. unfold loading_display.
  rewrite element_index_with_loading, Hi.
  unfold with_loading. cbn [elements].
  rewrite nth_error_update_nth, Nat.eqb_refl.
  destruct (element_at_id "loading" p i Hi) as [e [-> _]]. reflexivity.
Qed.

Lemma before_await_issues_request rt (now : N) (a : Action) (p : Page) (i : nat) :
  element_index "loading" p = Some i ->
  (forall id, input_of a = Some id -> element_index id p <> None) ->
  exists req,
    before_await (handler rt now a) p = (Normal req, with_loading "flex" i p).
Proof.
  intros Hi Hin.
  destruct a; simpl; unfold bind; rewrite (showLoading_page true p i Hi);
    try (eexists; reflexivity).
  - unfold getElementById. rewrite element_index_with_loading.
    destruct (element_index "num-rays" p) as [k|] eqn:Hk.
    + eexists. reflexivity.
    + exfalso. exact (Hin "num-rays" eq_refl Hk).
  - unfold getElementById. rewrite element_index_with_loading.
    destruct (element_index "matrix-size" p) as [k|] eqn:Hk.
    + eexists. reflexivity.
    + exfalso. exact (Hin "matrix-size" eq_refl Hk).
Qed.

(** C4, as the script behaves.  On a page that has the loading overlay (and,
    for [runCase5] and [runCase6], their input element), every handler sets
    the loading flag and then issues its request: when the request goes out
    the flag is set and nothing else on the page has changed.  Whatever the
    outcome of the request (a rendered response, a response carrying an
    error, a rejected call, a body that is not JSON, an exception thrown
    while rendering), the continuation completes normally with the flag
    cleared.  So the flag is set for the duration of the request when the
    handler runs with nothing interleaved. *)
Theorem loading_flag_brackets_request rt (now : N) (a : Action) (p : Page) (i : nat) :
  element_index "loading" p = Some i ->
  (forall id, input_of a = Some id -> element_index id p <> None) ->
  exists req,
    before_await (handler rt now a) p = (Normal req, with_loading "flex" i p) /\
    loading_display (with_loading "flex" i p) = Some "flex" /\
    forall o : NetOutcome,
      exists p2,
        after_await (handler rt now a) o (with_loading "flex" i p) = (Normal tt, p2) /\
        loading_display p2 = Some "none".
Proof.
  intros Hi Hin.
  destruct (before_await_issues_request rt now a p i Hi Hin) as [req Hreq].
  exists req. split; [exact Hreq|]. split.
  - apply loading_display_with_loading. exact Hi.
  - intros o. apply (after_await_clears_flag rt now a o (with_loading "flex" i p) i).
    rewrite element_index_with_loading. exact Hi.
Qed.

Lemma loading_flag_brackets_request_witness :
  Forall
    (fun a =>
       exists req,
         before_await (handler Host.runtime 0 a) dashboard_page
           = (Normal req, with_loading "flex" 0 dashboard_page) /\
         loading_display (with_loading "flex" 0 dashboard_page) = Some "flex" /\
         forall o : NetOutcome,
           exists p2,
             after_await (handler Host.runtime 0 a) o
                         (with_loading "flex" 0 dashboard_page) = (Normal tt, p2) /\
             loading_display p2 = Some "none")
    every_handler.
Proof.
  unfold every_handler.
  repeat (apply Forall_cons;
          [ apply (loading_flag_brackets_request Host.runtime 0 _ dashboard_page 0);
            [ reflexivity
            | intros id H; simpl in H; try discriminate H;
              injection H as <-; vm_compute; discriminate ]
          | ]).
  apply Forall_nil.
Defined.

(** C4 as stated fails in two ways.  The flag is one switch shared by all
    handlers: when [runCase5] issues its request while the request of
    [runCase2] is outstanding, the continuation of [runCase2] (here for a
    rejected call) hides the overlay although the request of [runCase5] is
    still outstanding.  And on a page without the ray-count input,
    [runCase5] sets the flag and throws before any request is issued, so the
    flag stays set with no request at all. *)
Lemma loading_flag_overlap_counterexample :
  (exists r1 r2,
     before_await (handler Host.runtime 0 DoCase2) dashboard_page
       = (Normal r1, with_loading "flex" 0 dashboard_page) /\
     before_await (handler Host.runtime 0 DoCase5) (with_loading "flex" 0 dashboard_page)
       = (Normal r2, with_loading "flex" 0 (with_loading "flex" 0 dashboard_page)) /\
     loading_display
       (snd (after_await (handler Host.runtime 0 DoCase2)
                         (FetchRejected (FetchError "Failed to fetch"))
                         (with_loading "flex" 0 (with_loading "flex" 0 dashboard_page))))
       = Some "none") /\
  (exists e,
     before_await (handler Host.runtime 0 DoCase5) page_without_inputs
       = (Throw e, with_loading "flex" 0 page_without_inputs) /\
     loading_display (with_loading "flex" 0 page_without_inputs) = Some "flex").
Proof.
  split.
  - eexists. eexists. repeat split; reflexivity.
  - eexists. split; reflexivity.
Qed.

(** * The coefficient list on the page *)

Lemma plotFeatureImportance_builds rt (cs : list Value)
    (entries : list (string * float)) (p : Page) :
  Forall2 (reads_as rt) cs entries ->
  plotFeatureImportance rt (VArr cs) p =
  (Normal tt,
   after_plot "case3-chart"
     (feature_config (map (fun c => field c "feature") cs)
                     (map (fun e => VNum (abs (snd e))) entries)) p).
Proof.
  intros H.
  unfold plotFeatureImportance, bind, getElementById, lift, new_currentChart.
  rewrite destroy_currentChart_spec. cbn [as_array cbind].
  rewrite (feature_labels_read rt cs entries H).
  rewrite (abs_coefficients_read rt cs entries H).
  rewrite !map_map. reflexivity.
Qed.

(** C9, as the script behaves.  For a regression response whose metrics
    render and whose [coefficients_sorted] is an array of entries with a
    printable feature and a numeric coefficient, on a page with the three
    elements of case 3, [displayCase3Result] completes, shows the panel, and
    the coefficient list area holds one item per entry in the order of the
    array (the script does not sort), the bar of each item
    [|coefficient| / Math.max(all |coefficient|) * 100] percent wide, where
    for coefficients that are not NaN the divisor is the largest magnitude of
    the list; the chart gets the same entries in the same order.  For an
    empty array no item is rendered and nothing is divided. *)
Theorem coefficient_bars rt (data : Value) (cs : list Value)
    (entries : list (string * float)) (metrics : string) (p : Page) (i1 i2 i3 : nat) :
  element_index "case3-result" p = Some i1 ->
  element_index "case3-coefficients" p = Some i2 ->
  element_index "case3-metrics" p = Some i3 ->
  case3_metricsHTML rt data = Normal metrics ->
  Get data "coefficients_sorted" = Normal (VArr cs) ->
  Forall2 (reads_as rt) cs entries ->
  (exists p',
     displayCase3Result rt data p = (Normal tt, p') /\
     display_of "case3-result" p' = Some "block" /\
     html_of "case3-coefficients" p' =
       Some (case3_list_open
             ++ String.concat ""
                  (map (fun e =>
                          case3_item_html (fst e)
                            (Number_toString rt (width_percent (map snd entries) (snd e)))
                            (toFixed rt (snd e) 6))
                       entries)
             ++ "</div>") /\
     current_config p' =
       Some (feature_config (map (fun c => field c "feature") cs)
                            (map (fun e => VNum (abs (snd e))) entries)))
  /\
  (entries <> [] ->
   (forall e, In e entries -> is_nan (snd e) = false) ->
   In (Math_max (map abs (map snd entries))) (map abs (map snd entries)) /\
   forall e, In e entries ->
             leb (abs (snd e)) (Math_max (map abs (map snd entries))) = true).
Proof.
  intros H1 H2 H3 Hm Hd Hall.
  destruct (coefficient_list_markup rt data cs entries Hd Hall) as [Hlist Hmax].
  split; [|exact Hmax].
  assert (N12 : i1 <> i2)
    by (apply (distinct_ids_distinct_indices _ _ p i1 i2 H1 H2); discriminate).
  destruct (element_at_id _ p i1 H1) as [e1 [E1 _]].
  destruct (element_at_id _ p i2 H2) as [e2 [E2 _]].
  set (list_html := case3_list_open
             ++ String.concat ""
                  (map (fun e =>
                          case3_item_html (fst e)
                            (Number_toString rt (width_percent (map snd entries) (snd e)))
                            (toFixed rt (snd e) 6))
                       entries)
             ++ "</div>") in *.
  set (p1 := mkPage (update_nth i2 (with_innerHTML list_html)
                       (update_nth i3 (with_innerHTML metrics)
                          (update_nth i1 (with_display "block") (elements p))))
                    (currentChart p) (charts p) (alerts p) (console p)).
  set (config := feature_config (map (fun c => field c "feature") cs)
                                (map (fun e => VNum (abs (snd e))) entries)).
  assert (Hids : map el_id (elements (after_plot "case3-chart" config p1))
                 = map el_id (elements p)).
  { unfold p1. cbn [after_plot elements].
    rewrite !map_el_id_update_nth by reflexivity. reflexivity. }
  exists (after_plot "case3-chart" config p1). split; [|split; [|split]].
  - unfold displayCase3Result. rewrite !bind_getElementById, H1, H2, H3.
    cbv [bind set_display set_innerHTML set_elements lift].
    rewrite Hm, Hlist, Hd.
    cbn [elements currentChart charts alerts console].
    exact (plotFeatureImportance_builds rt cs entries p1 Hall).
  - rewrite (display_of_at "case3-result" p _ i1 H1 Hids).
    unfold display_at, p1. cbn [after_plot elements].
    rewrite !nth_error_update_nth, E1, Nat.eqb_refl.
    destruct (Nat.eqb_spec i1 i2) as [|_]; [contradiction|].
    destruct (Nat.eqb i1 i3); reflexivity.
  - rewrite (html_of_at "case3-coefficients" p _ i2 H2 Hids).
    unfold html_at, p1. cbn [after_plot elements].
    rewrite !nth_error_update_nth, E2, Nat.eqb_refl.
    destruct (Nat.eqb i2 i3), (Nat.eqb i2 i1); reflexivity.
  - unfold current_config. cbn [after_plot currentChart charts].
    rewrite nth_error_app2, Nat.sub_diag by lia. reflexivity.
Qed.

Lemma coefficient_bars_witness :
  (exists p',
     displayCase3Result Host.runtime regression_data regression_page = (Normal tt, p') /\
     display_of "case3-result" p' = Some "block" /\
     html_of "case3-coefficients" p' =
       Some (case3_list_open
             ++ String.concat ""
                  (map (fun e =>
                          case3_item_html (fst e)
                            (Host.Number_toString
                               (width_percent [0.5; -2; 1]%float (snd e)))
                            (Host.toFixed (snd e) 6))
                       [("age", 0.5%float); ("income", (-2)%float); ("visits", 1%float)])
             ++ "</div>") /\
     current_config p' =
       Some (feature_config
               (map (fun c => field c "feature")
                    [coefficient_entry "age" 0.5%float;
                     coefficient_entry "income" (-2)%float;
                     coefficient_entry "visits" 1%float])
               (map (fun e => VNum (abs (snd e)))
                    [("age", 0.5%float); ("income", (-2)%float); ("visits", 1%float)])))
  /\
  ([("age", 0.5%float); ("income", (-2)%float); ("visits", 1%float)] <> [] ->
   (forall e, In e [("age", 0.5%float); ("income", (-2)%float); ("visits", 1%float)] ->
              is_nan (snd e) = false) ->
   In (Math_max (map abs [0.5; -2; 1]%float)) (map abs [0.5; -2; 1]%float) /\
   forall e, In e [("age", 0.5%float); ("income", (-2)%float); ("visits", 1%float)] ->
             leb (abs (snd e)) (Math_max (map abs [0.5; -2; 1]%float)) = true).
Proof.
  apply (coefficient_bars Host.runtime regression_data
           [coefficient_entry "age" 0.5%float;
            coefficient_entry "income" (-2)%float;
            coefficient_entry "visits" 1%float]
           [("age", 0.5%float); ("income", (-2)%float); ("visits", 1%float)]
           (match case3_metricsHTML Host.runtime regression_data with
            | Normal s => s
            | Throw _ => EmptyString
            end)
           regression_page 1 2 3); try reflexivity.
  repeat constructor.
Defined.

(** C9 as stated fails on both counts.  On the page, the coefficients 0.5,
    -2.0, 1.0 are rendered in the order they arrive (with widths 25%, 100%
    and 50%), not by descending magnitude; and for a response whose single
    coefficient is 0 the renderer completes and the width it writes is 0/0,
    which is NaN. *)
Lemma coefficient_bars_counterexample :
  fst (displayCase3Result Host.runtime regression_data regression_page) = Normal tt /\
  html_of "case3-coefficients"
    (snd (displayCase3Result Host.runtime regression_data regression_page)) =
  Some (case3_list_open
        ++ case3_item_html "age" "25" "0.500000"
        ++ case3_item_html "income" "100" "-2.000000"
        ++ case3_item_html "visits" "50" "1.000000"
        ++ "</div>")
  /\
  fst (displayCase3Result Host.runtime zero_regression_data regression_page) = Normal tt /\
  html_of "case3-coefficients"
    (snd (displayCase3Result Host.runtime zero_regression_data regression_page)) =
  Some (case3_list_open ++ case3_item_html "age" "NaN" "0.000000" ++ "</div>").
Proof.
  repeat split; vm_compute; reflexivity.
Qed.
